(** * Trustable: signal extraction, composite scoring and drift alerts

    A shallow embedding of the scan pipeline of the [run-scan] edge
    function (analyzeResponse, calculateScores, the score-drop alert of the
    request handler) and of the competitor-scan analyzer
    (analyzeCompetitorResponse), with the properties of the engine
    specification stated and settled against it.

    Conventions of the embedding.
    - A JavaScript string is a [jsstring]: the list of its UTF-16 code
      units.  [toLowerCase] and the case-insensitive canonicalisation of
      regular expressions are the ECMAScript ones on the code units
      U+0000..U+00FF and on the code units beyond whose lower case or
      canonical form meets that range; every other code unit is left as it
      is.  Statements about all names are therefore made for names within
      U+0000..U+00FF, or do not depend on the case mapping.
    - A JavaScript number is an IEEE-754 binary64 value, [number], with the
      arithmetic of [SpecFloat] at precision 53 and maximal exponent 1024.
      Array lengths and string indices, which are small integers, are kept
      as [nat] and [Z] and converted where the source does arithmetic on
      them.
    - [new RegExp] is modelled on the fragment of patterns made of literal
      characters, escaped syntax characters and the dot; the constructor
      returns [None] on any other pattern. *)

From Stdlib Require Import Bool Arith NArith ZArith List String Ascii Lia.
From Stdlib Require Import Permutation SpecFloat QArith Qround Qminmax.
Import ListNotations.

Local Close Scope Q_scope.
Local Open Scope string_scope.
Local Open Scope list_scope.

(** ** Code units and strings *)

Module JsString.

Definition codeUnit : Type := N.

Definition jsstring : Type := list codeUnit.

(** The string of an ASCII literal of the source text. *)
Definition js (s : string) : jsstring := map N_of_ascii (list_ascii_of_string s).

Definition inRange (lo hi n : N) : bool := (N.leb lo n && N.leb n hi)%bool.

(** [String.prototype.toLowerCase] on one code unit.  A-Z and the Latin-1
    capitals U+00C0..U+00DE (the multiplication sign U+00D7 apart) move up
    by 32.  Five code units above U+00FF have a lower case that meets
    U+0000..U+00FF: U+0130 (capital I with dot above) becomes [i] followed
    by the combining dot U+0307, U+0178 becomes U+00FF, U+1E9E becomes
    U+00DF, U+212A (the Kelvin sign) becomes [k] and U+212B (the Angstrom
    sign) becomes U+00E5. *)
Definition lowerUnit (n : codeUnit) : jsstring :=
  if (inRange 65 90 n || (inRange 192 222 n && negb (N.eqb n 215)))%bool
  then [n + 32]%N
  else if N.eqb n 304 then [105; 775]%N
  else if N.eqb n 376 then [255]%N
  else if N.eqb n 7838 then [223]%N
  else if N.eqb n 8490 then [107]%N
  else if N.eqb n 8491 then [229]%N
  else [n].

Definition toLowerCase (s : jsstring) : jsstring := flat_map lowerUnit s.

(** [Canonicalize] of a regular expression with the [i] flag and without
    the [u] flag: the upper-case mapping when it is a single code unit,
    and never from a code unit above U+007F to one below.  U+00FF maps to
    U+0178, and U+00B5 and U+03BC to U+039C; U+00DF, whose upper case is
    two letters, is its own canonical form, and so are U+0130 and
    U+212A, which are capitals. *)
Definition canonicalize (n : codeUnit) : codeUnit :=
  if (inRange 97 122 n || (inRange 224 254 n && negb (N.eqb n 247)))%bool
  then (n - 32)%N
  else if N.eqb n 255 then 376%N
  else if (N.eqb n 181 || N.eqb n 956)%bool then 924%N
  else n.

Definition charEqCI (c d : codeUnit) : bool := N.eqb (canonicalize c) (canonicalize d).

(** [s.startsWith(p)], as a function of the prefix first. *)
Fixpoint startsWith (p s : jsstring) : bool :=
  match p, s with
  | [], _ => true
  | _ :: _, [] => false
  | a :: p', b :: s' => (N.eqb a b && startsWith p' s')%bool
  end.

(** [s.includes(p)] *)
Fixpoint includes (s p : jsstring) : bool :=
  if startsWith p s then true
  else match s with
       | [] => false
       | _ :: s' => includes s' p
       end.

(** [s.indexOf(p)]: the first index, or -1. *)
Fixpoint indexOfFrom (i : Z) (s p : jsstring) : Z :=
  if startsWith p s then i
  else match s with
       | [] => (-1)%Z
       | _ :: s' => indexOfFrom (i + 1) s' p
       end.

Definition indexOf (s p : jsstring) : Z := indexOfFrom 0 s p.

Definition len (s : jsstring) : Z := Z.of_nat (List.length s).

(** [s.substring(a, b)]: both indices are clamped to the string, and
    swapped when the first is the larger. *)
Definition substring (a b : Z) (s : jsstring) : jsstring :=
  let clamp z := Z.min (Z.max 0 z) (len s) in
  let lo := Z.min (clamp a) (clamp b) in
  let hi := Z.max (clamp a) (clamp b) in
  firstn (Z.to_nat (hi - lo)) (skipn (Z.to_nat lo) s).

(** The class [\s]: the white space TAB, VT, FF, SPACE, NBSP, U+1680,
    U+2000..U+200A, U+202F, U+205F, U+3000 and U+FEFF, and the line
    terminators LF, CR, U+2028 and U+2029. *)
Definition isSpace (n : codeUnit) : bool :=
  (inRange 9 13 n || N.eqb n 32 || N.eqb n 160 || N.eqb n 5760
   || inRange 8192 8202 n || N.eqb n 8232 || N.eqb n 8233 || N.eqb n 8239
   || N.eqb n 8287 || N.eqb n 12288 || N.eqb n 65279)%bool.

(** [s.replace(/\s+/g, '')] *)
Definition stripSpaces (s : jsstring) : jsstring :=
  filter (fun c => negb (isSpace c)) s.

End JsString.

Import JsString.

(** ** Regular expressions: the literal and dot fragment *)

Module JsRegExp.

Definition backslash : codeUnit := 92%N.
Definition dot : codeUnit := 46%N.

(** The [SyntaxCharacter]s of a pattern, which are also exactly the
    characters of the class [[.*+?^${}()|[\]\\]] the primary analyzer
    escapes. *)
Definition isSyntaxChar (c : codeUnit) : bool :=
  existsb (N.eqb c) (js ".*+?^$" ++ js "{}()|[]" ++ [backslash]).

(** [s.replace(/[.*+?^${}()|[\]\\]/g, '\\$&')] *)
Fixpoint escapeRegExp (s : jsstring) : jsstring :=
  match s with
  | [] => []
  | c :: r =>
      if isSyntaxChar c then backslash :: c :: escapeRegExp r
      else c :: escapeRegExp r
  end.

Inductive atom : Type :=
| Lit (c : codeUnit)
| AnyChar.

Definition consAtom (a : atom) (r : option (list atom)) : option (list atom) :=
  match r with
  | Some l => Some (a :: l)
  | None => None
  end.

(** [new RegExp(p, 'gi')].  A pattern character that is not a syntax
    character is a literal, a backslash followed by a syntax character
    is that character, a dot is the wildcard.  Every other use of a
    syntax character (quantifiers, groups, classes, anchors, a trailing
    backslash, class escapes) is outside the fragment: [None]. *)
Fixpoint newRegExp (p : jsstring) : option (list atom) :=
  match p with
  | [] => Some []
  | c :: r =>
      if N.eqb c backslash then
        match r with
        | d :: r' =>
            if isSyntaxChar d then consAtom (Lit d) (newRegExp r') else None
        | [] => None
        end
      else if N.eqb c dot then consAtom AnyChar (newRegExp r)
      else if isSyntaxChar c then None
      else consAtom (Lit c) (newRegExp r)
  end.

(** The dot matches every code unit but a line terminator. *)
Definition isLineTerminator (c : codeUnit) : bool :=
  (N.eqb c 10 || N.eqb c 13 || N.eqb c 8232 || N.eqb c 8233)%bool.

Definition atomMatches (a : atom) (d : codeUnit) : bool :=
  match a with
  | Lit c => charEqCI c d
  | AnyChar => negb (isLineTerminator d)
  end.

(** Does the pattern match at the start of [s]?  Each atom consumes one
    code unit, so there is nothing to backtrack over. *)
Fixpoint matchesAt (re : list atom) (s : jsstring) : bool :=
  match re, s with
  | [], _ => true
  | _ :: _, [] => false
  | a :: re', d :: s' => (atomMatches a d && matchesAt re' s')%bool
  end.

(** [(s.match(re) || []).length] for a global [re]: the matches found by
    repeated [exec] from [lastIndex].  After a match of length [m] the
    search resumes [m] code units later, one code unit later when the
    match is empty; [skip] counts the code units still to step over. *)
Fixpoint countFrom (re : list atom) (skip : nat) (s : jsstring) : nat :=
  match s with
  | [] =>
      match skip with
      | O => if matchesAt re [] then 1 else 0
      | S _ => 0
      end
  | _ :: s' =>
      match skip with
      | S k => countFrom re k s'
      | O =>
          if matchesAt re s
          then S (countFrom re (Nat.pred (List.length re)) s')
          else countFrom re 0 s'
      end
  end.

Definition matchCount (re : list atom) (s : jsstring) : nat := countFrom re 0 s.

End JsRegExp.

Import JsRegExp.

(** ** Numbers: IEEE-754 binary64 *)

Module JsNumber.

Definition number : Type := spec_float.

Definition prec : Z := 53.
Definition emax : Z := 1024.

Definition add : number -> number -> number := SFadd prec emax.
Definition sub : number -> number -> number := SFsub prec emax.
Definition mul : number -> number -> number := SFmul prec emax.
Definition div : number -> number -> number := SFdiv prec emax.
Definition ltb : number -> number -> bool := SFltb.
Definition leb : number -> number -> bool := SFleb.

(** The number of an integer: exact below 2^53 in magnitude, rounded to
    nearest-even above. *)
Definition ofZ (z : Z) : number := binary_normalize prec emax z 0 false.
Definition ofNat (n : nat) : number := ofZ (Z.of_nat n).

(** A decimal literal [a/b] of the source text, such as [0.35]: the
    binary64 value nearest to the fraction, which the correctly rounded
    quotient of the two integers is. *)
Definition dec (a b : Z) : number := div (ofZ a) (ofZ b).

Definition isNaN (x : number) : bool :=
  match x with S754_nan => true | _ => false end.

(** [Math.max(a, b)] and [Math.min(a, b)]: NaN is contagious and +0 is
    larger than -0. *)
Definition Math_max (a b : number) : number :=
  if (isNaN a || isNaN b)%bool then S754_nan
  else if ltb a b then b
  else if ltb b a then a
  else match a with S754_zero true => b | _ => a end.

Definition Math_min (a b : number) : number :=
  if (isNaN a || isNaN b)%bool then S754_nan
  else if ltb a b then a
  else if ltb b a then b
  else match a with S754_zero false => b | _ => a end.

(** [Math.round(x)]: the integer nearest to [x], the larger one at a tie;
    NaN, the infinities, the zeros and the integers are returned as they
    are, and a result of zero keeps the sign of [x]. *)
Definition Math_round (x : number) : number :=
  match x with
  | S754_finite s m e =>
      if (0 <=? e)%Z then x
      else
        let d := (2 ^ (- e))%Z in
        let n := ((2 * cond_Zopp s (Zpos m) + d) / (2 * d))%Z in
        if (n =? 0)%Z then S754_zero s else ofZ n
  | _ => x
  end.

End JsNumber.

Import JsNumber.

Declare Scope num_scope.
Delimit Scope num_scope with num.
Bind Scope num_scope with number.
Infix "+" := add : num_scope.
Infix "-" := sub : num_scope.
Infix "*" := mul : num_scope.
Infix "/" := div : num_scope.


(** ** The data model *)

Inductive MentionType : Type :=
| PRIMARY | FEATURED | LISTED | BRIEF | COMPARISON | CITATION | NEGATIVE | ABSENT.

Inductive SentimentType : Type :=
| VERY_POSITIVE | POSITIVE | NEUTRAL | CAUTIOUS | SENT_NEGATIVE | VERY_NEGATIVE.

Inductive RecommendationStrength : Type :=
| STRONG | MODERATE | NONE.

Inductive AlertType : Type :=
| SCORE_DROP | SCORE_IMPROVEMENT | VISIBILITY_LOST | VISIBILITY_GAINED
| NEW_NEGATIVE_MENTION | NEW_POSITIVE_MENTION | COMPETITOR_OVERTAKE
| CITATION_ADDED | CITATION_LOST | RANKING_CHANGE | SHARE_OF_VOICE_CHANGE
| RECOMMENDATION_URGENT | AUDIT_CRITICAL | ZERO_MENTIONS_SPIKE.

Inductive AlertSeverity : Type :=
| INFO | WARNING | CRITICAL | SEV_POSITIVE.

Definition MentionType_eqb (a b : MentionType) : bool :=
  match a, b with
  | PRIMARY, PRIMARY | FEATURED, FEATURED | LISTED, LISTED | BRIEF, BRIEF
  | COMPARISON, COMPARISON | CITATION, CITATION | NEGATIVE, NEGATIVE
  | ABSENT, ABSENT => true
  | _, _ => false
  end.

Definition SentimentType_eqb (a b : SentimentType) : bool :=
  match a, b with
  | VERY_POSITIVE, VERY_POSITIVE | POSITIVE, POSITIVE | NEUTRAL, NEUTRAL
  | CAUTIOUS, CAUTIOUS | SENT_NEGATIVE, SENT_NEGATIVE
  | VERY_NEGATIVE, VERY_NEGATIVE => true
  | _, _ => false
  end.

(** The object [analyzeResponse] returns.  The fields [ranking],
    [keyPhrases], [positiveIndicators] and [negativeIndicators] of the
    source are read by nothing in the scoring path and are left out. *)
Record Analysis : Type := {
  mentioned : bool;
  mentionType : MentionType;
  mentionContext : jsstring;
  mentionCount : nat;
  sentiment : SentimentType;
  sentimentScore : number;
  confidenceScore : number;
  hasHedging : bool;
  hedgingPhrases : list jsstring;
  isRecommended : bool;
  recommendationStrength : RecommendationStrength;
  citedUrl : option jsstring;
  citedSources : list jsstring;
  competitorsMentioned : list jsstring
}.

(** The object [analyzeCompetitorResponse] returns. *)
Record CompetitorAnalysis : Type := {
  c_mentioned : bool;
  c_mentionCount : nat;
  c_sentimentScore : number;
  c_isRecommended : bool;
  c_positiveCount : nat;
  c_negativeCount : nat
}.

(** The object [calculateScores] returns. *)
Record Scores : Type := {
  overall_score : number;
  ai_trust_score : number;
  ai_visibility_score : number;
  ai_recommendation_score : number;
  ai_citation_score : number;
  sentiment_score : number;
  confidence_score : number
}.

(** The row inserted into [alerts], without its display texts. *)
Record Alert : Type := {
  alert_type : AlertType;
  severity : AlertSeverity;
  previousScore : Z;
  newScore : Z
}.


(** ** The lexicons *)

Definition HEDGING_WORDS : list jsstring :=
  map js
    [ "might"; "could"; "may"; "possibly"; "perhaps"; "maybe";
      "generally"; "typically"; "usually"; "sometimes"; "often";
      "it seems"; "appears to"; "tends to"; "some say" ].

Definition POSITIVE_INDICATORS : list jsstring :=
  map js
    [ "excellent"; "outstanding"; "great"; "recommend"; "trusted";
      "reliable"; "best"; "top"; "quality"; "professional";
      "highly recommended"; "well-known"; "established" ].

Definition NEGATIVE_INDICATORS : list jsstring :=
  map js
    [ "complaints"; "issues"; "problems"; "avoid"; "poor";
      "negative"; "scam"; "controversial"; "warning"; "careful" ].

Definition RECOMMENDATION_PHRASES : list jsstring :=
  map js
    [ "recommend"; "suggest"; "consider"; "good choice"; "worth";
      "definitely"; "should try"; "top pick" ].

(** ** Citations

    The matches of the global, case-insensitive pattern of the source:
    [http], an optional [s], [://], then one code unit or more that is
    not white space, an angle bracket, a double quote, a brace, a bar, a
    backslash, a caret, a backquote or a square bracket. *)

Module Citations.

(** The double quote, U+0022. *)
Definition quote : codeUnit := 34%N.

Definition isUrlChar (c : codeUnit) : bool :=
  negb (isSpace c || existsb (N.eqb c) (js "<>" ++ [quote] ++ js "{}|\^`[]")).

Fixpoint urlRun (s : jsstring) : nat :=
  match s with
  | c :: r => if isUrlChar c then S (urlRun r) else 0
  | [] => 0
  end.

Definition letter (c : ascii) : codeUnit := N_of_ascii c.

(** The rest of a match once [http] has been read: an optional [s], then
    [://], then one code unit or more of the class, as many as there
    are.  The result is the number of code units consumed. *)
Definition urlTail (r : jsstring) : option nat :=
  let '(k, r') :=
    match r with
    | c :: r1 => if charEqCI (letter "s") c then (1, r1) else (0, r)
    | [] => (0, r)
    end in
  if startsWith (js "://") r' then
    match urlRun (skipn 3 r') with
    | O => None
    | S n => Some (k + 3 + S n)
    end
  else None.

(** The length of the match that starts at the head of [s], if any. *)
Definition urlLength (s : jsstring) : option nat :=
  match s with
  | h :: t1 :: t2 :: p :: r =>
      if (charEqCI (letter "h") h && charEqCI (letter "t") t1 &&
          charEqCI (letter "t") t2 && charEqCI (letter "p") p)%bool
      then option_map (Nat.add 4) (urlTail r)
      else None
  | _ => None
  end.

Fixpoint urlsFrom (skip : nat) (s : jsstring) : list jsstring :=
  match s with
  | [] => []
  | _ :: s' =>
      match skip with
      | S k => urlsFrom k s'
      | O =>
          match urlLength s with
          | Some n => firstn n s :: urlsFrom (Nat.pred n) s'
          | None => urlsFrom 0 s'
          end
      end
  end.

(** [responseText.match(re)], with the empty list for [null]. *)
Definition matchUrls (s : jsstring) : list jsstring := urlsFrom 0 s.

End Citations.

Import Citations.

(** ** The analyzers *)

Local Open Scope num_scope.

Definition hits (lexicon : list jsstring) (lowerText : jsstring) : list jsstring :=
  filter (fun w => includes lowerText w) lexicon.

(** [(positiveCount - negativeCount) / Math.max(1, positiveCount + negativeCount)] *)
Definition sentimentOf (positiveCount negativeCount : nat) : number :=
  (ofNat positiveCount - ofNat negativeCount)
  / Math_max (ofZ 1) (ofNat positiveCount + ofNat negativeCount).

(** [Math.max(0, Math.min(1, 0.5 + (positiveCount * 0.1) - (hedgingPhrases.length * 0.1)))] *)
Definition confidenceOf (positiveCount hedgingCount : nat) : number :=
  Math_max (ofZ 0)
    (Math_min (ofZ 1)
       (dec 5 10 + (ofNat positiveCount * dec 1 10) - (ofNat hedgingCount * dec 1 10))).

Definition sentimentCategory (negativeCount : nat) (score : number) : SentimentType :=
  if (2 <=? negativeCount)%nat then SENT_NEGATIVE
  else if ltb (dec 3 10) score then POSITIVE
  else if ltb (ofZ 0) score then POSITIVE
  else if (0 <? negativeCount)%nat then CAUTIOUS
  else NEUTRAL.

Definition mentionContextOf (responseText lowerText lowerBusiness businessName : jsstring)
  : jsstring :=
  let index := indexOf lowerText lowerBusiness in
  let start := Z.max 0 (index - 150) in
  let end_ := Z.min (len responseText) (index + len businessName + 150) in
  let ctx := substring start end_ responseText in
  let ctx := if (0 <? start)%Z then js "..." ++ ctx else ctx in
  if (end_ <? len responseText)%Z then ctx ++ js "..." else ctx.

(** [analyzeResponse(responseText, businessName, competitors)].  The only
    step that can fail is the construction of the regular expression. *)
Definition analyzeResponse (responseText businessName : jsstring)
    (competitors : list jsstring) : option Analysis :=
  let lowerText := toLowerCase responseText in
  let lowerBusiness := toLowerCase businessName in
  let mentioned := includes lowerText lowerBusiness in
  match newRegExp (escapeRegExp lowerBusiness) with
  | None => None
  | Some mentionRegex =>
      let mentionCount := matchCount mentionRegex responseText in
      let mentionContext :=
        if mentioned
        then mentionContextOf responseText lowerText lowerBusiness businessName
        else [] in
      let positiveCount := List.length (hits POSITIVE_INDICATORS lowerText) in
      let negativeCount := List.length (hits NEGATIVE_INDICATORS lowerText) in
      let sentimentScore := sentimentOf positiveCount negativeCount in
      let sentiment := sentimentCategory negativeCount sentimentScore in
      let hedgingPhrases := hits HEDGING_WORDS lowerText in
      let hasHedging := (2 <=? List.length hedgingPhrases)%nat in
      let recommendationCount := List.length (hits RECOMMENDATION_PHRASES lowerText) in
      let isRecommended :=
        ((0 <? recommendationCount)%nat && negb (SentimentType_eqb sentiment SENT_NEGATIVE))%bool in
      let recommendationStrength :=
        if (2 <=? recommendationCount)%nat then STRONG
        else if (recommendationCount =? 1)%nat then MODERATE
        else NONE in
      let confidenceScore := confidenceOf positiveCount (List.length hedgingPhrases) in
      let mentionType :=
        if negb mentioned then ABSENT
        else if (2 <=? negativeCount)%nat then NEGATIVE
        else if (3 <=? mentionCount)%nat then PRIMARY
        else if (2 <=? mentionCount)%nat then FEATURED
        else if existsb (fun c => includes lowerText (toLowerCase c)) competitors
        then COMPARISON
        else BRIEF in
      let competitorsMentioned :=
        filter (fun c => includes lowerText (toLowerCase c)) competitors in
      let urlMatch := matchUrls responseText in
      let citedUrl :=
        find (fun url => includes (toLowerCase url) (stripSpaces lowerBusiness)) urlMatch in
      Some {| mentioned := mentioned;
              mentionType := mentionType;
              mentionContext := mentionContext;
              mentionCount := mentionCount;
              sentiment := sentiment;
              sentimentScore := sentimentScore;
              confidenceScore := confidenceScore;
              hasHedging := hasHedging;
              hedgingPhrases := hedgingPhrases;
              isRecommended := isRecommended;
              recommendationStrength := recommendationStrength;
              citedUrl := citedUrl;
              citedSources := urlMatch;
              competitorsMentioned := competitorsMentioned |}
  end.

(** [analyzeCompetitorResponse(response, competitorName)] of the competitor
    scan: the name goes into [new RegExp] as it is.  [None] is the
    SyntaxError of the constructor, and also the pattern outside the
    fragment modelled, whose matches are not counted here. *)
Definition analyzeCompetitorResponse (response competitorName : jsstring)
  : option CompetitorAnalysis :=
  let lowerText := toLowerCase response in
  let lowerName := toLowerCase competitorName in
  let mentioned := includes lowerText lowerName in
  match newRegExp lowerName with
  | None => None
  | Some re =>
      let mentionCount := matchCount re response in
      let positiveWords :=
        map js ["excellent"; "great"; "recommend"; "trusted"; "best"; "quality"] in
      let negativeWords :=
        map js ["complaints"; "issues"; "avoid"; "poor"; "negative"] in
      let positiveCount := List.length (hits positiveWords lowerText) in
      let negativeCount := List.length (hits negativeWords lowerText) in
      let sentimentScore := sentimentOf positiveCount negativeCount in
      let isRecommended := (includes lowerText (js "recommend") && (negativeCount =? 0)%nat)%bool in
      Some {| c_mentioned := mentioned;
              c_mentionCount := mentionCount;
              c_sentimentScore := sentimentScore;
              c_isRecommended := isRecommended;
              c_positiveCount := positiveCount;
              c_negativeCount := negativeCount |}
  end.

(** ** The aggregator *)

Definition count {A : Type} (p : A -> bool) (l : list A) : nat :=
  List.length (filter p l).

Definition isSome {A : Type} (o : option A) : bool :=
  match o with Some _ => true | None => false end.

(** The truth value of a string or null: the empty string is false too. *)
Definition truthy (o : option jsstring) : bool :=
  match o with
  | Some (_ :: _) => true
  | _ => false
  end.

(** [analyses.reduce((sum, a) => sum + f(a), 0)] *)
Definition sumOf (f : Analysis -> number) (analyses : list Analysis) : number :=
  fold_left (fun sum a => sum + f a) analyses (ofZ 0).

Definition calculateScores (analyses : list Analysis) : Scores :=
  let total := List.length analyses in
  if (total =? 0)%nat then
    {| overall_score := ofZ 0;
       ai_trust_score := ofZ 0;
       ai_visibility_score := ofZ 0;
       ai_recommendation_score := ofZ 0;
       ai_citation_score := ofZ 0;
       sentiment_score := ofZ 50;
       confidence_score := ofZ 50 |}
  else
    let total := ofNat total in
    (* Visibility *)
    let mentionedCount := ofNat (count mentioned analyses) in
    let visibilityRate := mentionedCount / total in
    let ai_visibility_score := Math_round (visibilityRate * ofZ 100) in
    (* Sentiment *)
    let avgSentiment := sumOf sentimentScore analyses / total in
    let sentiment_score := Math_round (((avgSentiment + ofZ 1) / ofZ 2) * ofZ 100) in
    (* Confidence *)
    let avgConfidence := sumOf confidenceScore analyses / total in
    let confidence_score := Math_round (avgConfidence * ofZ 100) in
    (* Recommendation *)
    let recommendedCount := ofNat (count isRecommended analyses) in
    let ai_recommendation_score := Math_round ((recommendedCount / total) * ofZ 100) in
    (* Citation *)
    let citedCount := ofNat (count (fun a => truthy (citedUrl a)) analyses) in
    let ai_citation_score := Math_round ((citedCount / total) * ofZ 100) in
    (* Trust (composite) *)
    let hedgingRate := ofNat (count hasHedging analyses) / total in
    let ai_trust_score :=
      Math_round
        (sentiment_score * dec 35 100 +
         (ofZ 100 - hedgingRate * ofZ 100) * dec 30 100 +
         ai_recommendation_score * dec 25 100 +
         (ofNat (count (fun a => negb (MentionType_eqb (mentionType a) NEGATIVE)) analyses)
            / total * ofZ 100) * dec 10 100) in
    (* Overall *)
    let overall_score :=
      Math_round
        (ai_trust_score * dec 25 100 +
         ai_visibility_score * dec 20 100 +
         ai_recommendation_score * dec 20 100 +
         ai_citation_score * dec 10 100 +
         sentiment_score * dec 15 100 +
         confidence_score * dec 10 100) in
    {| overall_score := overall_score;
       ai_trust_score := ai_trust_score;
       ai_visibility_score := ai_visibility_score;
       ai_recommendation_score := ai_recommendation_score;
       ai_citation_score := ai_citation_score;
       sentiment_score := sentiment_score;
       confidence_score := confidence_score |}.

(** ** The score-drop alert of the scan handler

    [prevScore] is the latest stored row of the business, if there is one;
    both overall scores are integers (the result of [Math.round], and an
    [INT] column), compared as such. *)
Definition scoreDropAlert (overall : Z) (prevScore : option Z) : option Alert :=
  match prevScore with
  | Some prev =>
      if (overall <? prev - 10)%Z then
        Some {| alert_type := SCORE_DROP;
                severity := if (overall <? prev - 20)%Z then CRITICAL else WARNING;
                previousScore := prev;
                newScore := overall |}
      else None
  | None => None
  end.

Local Close Scope num_scope.

(** ** Batches and sample responses *)

(** The loop of the scan handler: each response is analyzed and the
    analysis pushed, in order. *)
Definition analyzeAll (responses : list jsstring) (businessName : jsstring)
    (competitors : list jsstring) : list Analysis :=
  flat_map
    (fun r =>
       match analyzeResponse r businessName competitors with
       | Some a => [a]
       | None => []
       end)
    responses.

Definition acme : jsstring := js "Acme".

Definition plainResponse : jsstring :=
  js "The shop sells widgets.".
Definition hedgedResponse : jsstring :=
  js "The shop might sell widgets.".
Definition praiseResponse : jsstring :=
  js "A great and reliable shop.".

Definition scenarioA : jsstring :=
  js "We love this company, highly recommended and trusted!".

Definition scenarioC : jsstring :=
  js "It might possibly be great.".

(** A business name that starts with U+0130, the capital I with a dot
    above, and a response that names the business. *)
Definition istanbulKebab : jsstring := 304%N :: js "stanbul Kebab".

Definition istanbulResponse : jsstring :=
  istanbulKebab ++ js " is a popular restaurant.".

(** A response with U+212A, the Kelvin sign. *)
Definition kelvinResponse : jsstring := js "Water boils at 373 " ++ [8490%N].

(** 0.39999999999999997, the binary64 number just below 0.4. *)
Definition below_0_4 : number := S754_finite false 7205759403792793 (-54).

(** ** The mention count and the formulas of the specification *)

(** The spec's count: the occurrences of the name in the text, both
    case-folded, read left to right without overlap.  The empty name
    occurs once at every position, the end included. *)
Fixpoint occurrencesFrom (name : jsstring) (skip : nat) (text : jsstring) : nat :=
  match text with
  | [] =>
      match skip with
      | O => if startsWith name [] then 1 else 0
      | S _ => 0
      end
  | _ :: text' =>
      match skip with
      | S k => occurrencesFrom name k text'
      | O =>
          if startsWith name text
          then S (occurrencesFrom name (Nat.pred (List.length name)) text')
          else occurrencesFrom name 0 text'
      end
  end.

Definition occurrencesCI (name text : jsstring) : nat :=
  occurrencesFrom (toLowerCase name) 0 (toLowerCase text).

Module Spec.

Local Open Scope Q_scope.

Definition roundHalfAway (q : Q) : Z :=
  if Qle_bool 0 q then Qfloor (q + (1 # 2)) else Qceiling (q - (1 # 2)).

Definition rate (k n : nat) : Q := inject_Z (Z.of_nat k) / inject_Z (Z.of_nat n).

Definition citation (cited n : nat) : Z := roundHalfAway (100 * rate cited n).

Definition trust (sentiment recommendation : Z) (hedgingRate nonNegativeRate : Q) : Z :=
  roundHalfAway
    ((35 # 100) * inject_Z sentiment
     + (30 # 100) * (100 - 100 * hedgingRate)
     + (25 # 100) * inject_Z recommendation
     + (10 # 100) * 100 * nonNegativeRate).

Definition overall (trust visibility recommendation citation sentiment confidence : Z) : Z :=
  roundHalfAway
    ((25 # 100) * inject_Z trust
     + (20 # 100) * inject_Z visibility
     + (20 # 100) * inject_Z recommendation
     + (10 # 100) * inject_Z citation
     + (15 # 100) * inject_Z sentiment
     + (10 # 100) * inject_Z confidence).

(** The values the three formulas round, and the ties: the values half
    way between two integers. *)
Definition citationValue (cited n : nat) : Q := 100 * rate cited n.

Definition trustValue (sentiment recommendation : Z) (hedgingRate nonNegativeRate : Q)
  : Q :=
  (35 # 100) * inject_Z sentiment
  + (30 # 100) * (100 - 100 * hedgingRate)
  + (25 # 100) * inject_Z recommendation
  + (10 # 100) * 100 * nonNegativeRate.

Definition overallValue
    (trust visibility recommendation citation sentiment confidence : Z) : Q :=
  (25 # 100) * inject_Z trust
  + (20 # 100) * inject_Z visibility
  + (20 # 100) * inject_Z recommendation
  + (10 # 100) * inject_Z citation
  + (15 # 100) * inject_Z sentiment
  + (10 # 100) * inject_Z confidence.

Definition isTie (q : Q) : bool :=
  Qeq_bool (q + (1 # 2)) (inject_Z (Qfloor (q + (1 # 2)))).

(** [clamp01(0.5 + 0.1 * positiveCount - 0.1 * hedgingHitCount)] *)
Definition clamp01 (q : Q) : Q := Qmax 0 (Qmin 1 q).

Definition confidence (positiveCount hedgingCount : nat) : Q :=
  clamp01 ((5 # 10) + (1 # 10) * inject_Z (Z.of_nat positiveCount)
           - (1 # 10) * inject_Z (Z.of_nat hedgingCount)).

End Spec.

(** The exact value of a finite number. *)
Definition toQ (x : number) : Q :=
  match x with
  | S754_finite s m e =>
      (inject_Z (cond_Zopp s (Zpos m)) * Qpower 2 e)%Q
  | _ => 0%Q
  end.

(** ** Devices of the proofs *)

(** The code units U+0000..U+00FF, and the strings made of them. *)
Definition latin1 : list codeUnit := map N.of_nat (seq 0 256).

Definition isLatin1 (s : jsstring) : bool := forallb (fun c => (c <? 256)%N) s.

(** The lower case of a code unit of that range. *)
Definition lowerChar (c : codeUnit) : codeUnit := hd c (lowerUnit c).

Local Open Scope Z_scope.

(** Has a right shift lost a non-zero bit? *)
Definition inex (mrs : shr_record) : bool := shr_r mrs || shr_s mrs.

(** [y] is [x] shifted right by [k] bits: the mantissa is divided by
    [2 ^ k], and nothing is recorded as lost when nothing was. *)
Definition halved (k : Z) (x y : shr_record) : Prop :=
  shr_m y = shr_m x / 2 ^ k
  /\ (inex x = false -> shr_m x mod 2 ^ k = 0 -> inex y = false).

Abbreviation fexp64 := (fexp 53 1024).

(** The number of a sign, a mantissa and an exponent, as the rounding step
    builds it, and the same after a mantissa of [2 ^ 53] has been brought
    back to 53 bits. *)
Definition pack (sx : bool) (m e : Z) : spec_float :=
  match m with
  | Z0 => S754_zero sx
  | Zpos p => if e <=? 971 then S754_finite sx p e else S754_infinity sx
  | Zneg _ => S754_nan
  end.

Definition renorm (sx : bool) (m e : Z) : spec_float :=
  if m =? 2 ^ 53 then pack sx (2 ^ 52) (e + 1) else pack sx m e.

(** Values are measured in units of [2 ^ unitExp], a scale below every
    exponent the operations go through: [sc m e] is the value
    [m * 2 ^ e], and [scf x] the value of a number (0 for the zeros). *)
Definition unitExp : Z := -2200.

Definition sc (m e : Z) : Z := m * 2 ^ (e - unitExp).

Definition scf (x : spec_float) : Z :=
  match x with
  | S754_finite s m e => sc (cond_Zopp s (Zpos m)) e
  | _ => 0
  end.

(** The zeros and the finite numbers of binary64. *)
Definition finiteb (x : spec_float) : bool :=
  match x with
  | S754_zero _ => true
  | S754_finite _ m e => bounded 53 1024 m e
  | _ => false
  end.

(** A mantissa and exponent of the format: at most 53 bits, and 53 bits
    exactly above the least exponent. *)
Definition grid (m e : Z) : Prop :=
  0 <= m < 2 ^ 53 /\ -1074 <= e /\ (-1074 < e -> 2 ^ 52 <= m).

(** The magnitudes of the finite numbers, in units of [2 ^ unitExp]. *)
Definition OnGrid (z : Z) : Prop :=
  exists m e, grid m e /\ e <= 971 /\ z = sc m e.

(** What bounds the exact value from above and from below, in terms of
    the truncated mantissa and the location of the remainder. *)
Definition UB (mx ex : Z) (lx : location) (h : Z) : Prop :=
  sc mx ex <= h /\ (lx <> loc_Exact -> sc mx ex < h).

Definition LB (mx ex : Z) (lx : location) (l : Z) : Prop :=
  (lx = loc_Exact -> l <= sc mx ex) /\ l < sc (mx + 1) ex.

(** The values of the finite numbers, of either sign. *)
Definition SOn (z : Z) : Prop := OnGrid (Z.abs z).

(** The unit: the value 1 in units of [2 ^ unitExp]. *)
Definition unitOne : Z := 2 ^ (- unitExp).

(** A number between 0 and 1, and a number between 0 and 100. *)
Definition Unit (x : number) : Prop := finiteb x = true /\ 0 <= scf x <= unitOne.
Definition Pct (x : number) : Prop := finiteb x = true /\ 0 <= scf x <= 100 * unitOne.

(** [2 ^ -40], the slack left to the weights that are rounded up. *)
Definition eps : Z := sc 1 (-40).

(** A weight [c] takes a number between 0 and 100 to one between 0 and
    [h]. *)
Definition weight_ok (c : number) (h : Z) : bool :=
  finiteb c && (0 <=? scf c) && (100 * scf c <=? h).

(** An analysis whose sentiment score is between -1 and 1 and whose
    confidence score is between 0 and 1. *)
Definition scoresInRange (a : Analysis) : Prop :=
  (finiteb (sentimentScore a) = true /\ - unitOne <= scf (sentimentScore a) <= unitOne)
  /\ (finiteb (confidenceScore a) = true /\ 0 <= scf (confidenceScore a) <= unitOne).

Definition allPct (s : Scores) : Prop :=
  Pct (overall_score s) /\ Pct (ai_trust_score s) /\ Pct (ai_visibility_score s)
  /\ Pct (ai_recommendation_score s) /\ Pct (ai_citation_score s)
  /\ Pct (sentiment_score s) /\ Pct (confidence_score s).

(** [lo <= x <= hi], as the comparisons of the numbers decide it. *)
Definition between (lo hi : Z) (x : number) : Prop :=
  leb (ofZ lo) x = true /\ leb x (ofZ hi) = true.

(** The scores of given counts are in range, as a computation. *)
Definition sentimentInRange (p n : nat) : bool :=
  finiteb (sentimentOf p n)
  && (- unitOne <=? scf (sentimentOf p n)) && (scf (sentimentOf p n) <=? unitOne).

Definition confidenceInRange (p h : nat) : bool :=
  finiteb (confidenceOf p h)
  && (0 <=? scf (confidenceOf p h)) && (scf (confidenceOf p h) <=? unitOne).

Local Close Scope Z_scope.

(** * The rest of the scan

    The lexicon analysis seen from its counts, prompt generation, what the
    scan handler stores and reports, the competitor scan and the scheduled
    monitor, with the devices of their properties. *)

(** ** What the analyzers return, seen from outside *)

(** The sentiment category, as the hit counts decide it. *)
Definition sentimentByCounts (positiveCount negativeCount : nat) : SentimentType :=
  if (2 <=? negativeCount)%nat then SENT_NEGATIVE
  else if (negativeCount <? positiveCount)%nat then POSITIVE
  else if (0 <? negativeCount)%nat then CAUTIOUS
  else NEUTRAL.

(** A string that starts with [http://] or [https://], in any letter case. *)
Definition hasHttpScheme (u : jsstring) : bool :=
  (startsWith (js "http://") (toLowerCase u)
   || startsWith (js "https://") (toLowerCase u))%bool.

Definition noSpace (u : jsstring) : bool := forallb (fun c => negb (isSpace c)) u.

(** A name without a syntax character of regular expressions. *)
Definition isPlain (s : jsstring) : bool := forallb (fun c => negb (isSyntaxChar c)) s.

(** The lexicons of the competitor analyzer. *)
Definition competitorPositiveWords : list jsstring :=
  map js ["excellent"; "great"; "recommend"; "trusted"; "best"; "quality"].

Definition competitorNegativeWords : list jsstring :=
  map js ["complaints"; "issues"; "avoid"; "poor"; "negative"].

(** [analyzeCompetitorResponse] over any engine of regular expressions:
    [matches p s] is [(s.match(new RegExp(p, 'gi')) || []).length], and
    [None] when the constructor throws.  The analyzer asks nothing else
    of the engine. *)
Definition analyzeCompetitorResponseWith (matches : jsstring -> jsstring -> option nat)
    (response competitorName : jsstring) : option CompetitorAnalysis :=
  let lowerText := toLowerCase response in
  let lowerName := toLowerCase competitorName in
  let mentioned := includes lowerText lowerName in
  match matches lowerName response with
  | None => None
  | Some mentionCount =>
      let positiveWords :=
        map js ["excellent"; "great"; "recommend"; "trusted"; "best"; "quality"] in
      let negativeWords :=
        map js ["complaints"; "issues"; "avoid"; "poor"; "negative"] in
      let positiveCount := List.length (hits positiveWords lowerText) in
      let negativeCount := List.length (hits negativeWords lowerText) in
      let sentimentScore := sentimentOf positiveCount negativeCount in
      let isRecommended :=
        (includes lowerText (js "recommend") && (negativeCount =? 0)%nat)%bool in
      Some {| c_mentioned := mentioned;
              c_mentionCount := mentionCount;
              c_sentimentScore := sentimentScore;
              c_isRecommended := isRecommended;
              c_positiveCount := positiveCount;
              c_negativeCount := negativeCount |}
  end.

(** The engine of the fragment of patterns modelled. *)
Definition fragmentMatches (p s : jsstring) : option nat :=
  match newRegExp p with
  | Some re => Some (matchCount re s)
  | None => None
  end.

(** The names whose lower case is modelled: those made of the code units
    U+0000..U+00FF and of the five code units above them that [lowerUnit]
    maps. *)
Definition caseModelled (s : jsstring) : bool :=
  forallb (fun c => ((c <? 256)%N
                     || existsb (N.eqb c) [304; 376; 7838; 8490; 8491]%N)%bool) s.

(** [Number.isInteger(x)] *)
Definition isInteger (x : number) : bool :=
  match x with
  | S754_zero _ => true
  | S754_finite _ m e => ((0 <=? e) || (Zpos m mod 2 ^ (- e) =? 0))%Z
  | _ => false
  end.

(** The seven scores of the aggregator are integers. *)
Definition allInteger (s : Scores) : Prop :=
  isInteger (overall_score s) = true /\ isInteger (ai_trust_score s) = true
  /\ isInteger (ai_visibility_score s) = true
  /\ isInteger (ai_recommendation_score s) = true
  /\ isInteger (ai_citation_score s) = true
  /\ isInteger (sentiment_score s) = true /\ isInteger (confidence_score s) = true.

(** ** Prompt generation *)

(** The row of [businesses] the scan reads.  A column that can be NULL is
    an [option]. *)
Record Business : Type := {
  name : jsstring;
  category : option jsstring;
  city : option jsstring;
  country : option jsstring;
  website : option jsstring;
  instagram_handle : option jsstring;
  tiktok_handle : option jsstring;
  facebook_url : option jsstring;
  products : option (list jsstring);
  services : option (list jsstring);
  competitors : option (list jsstring)
}.

(** [x || d] for a string or null [x]. *)
Definition orString (o : option jsstring) (d : jsstring) : jsstring :=
  if truthy o then match o with Some s => s | None => d end else d.

(** A string or null inside a template literal. *)
Definition template (o : option jsstring) : jsstring :=
  match o with
  | Some s => s
  | None => js "null"
  end.

(** [x || []] for an array or null [x]: every array is true. *)
Definition orEmpty (o : option (list jsstring)) : list jsstring :=
  match o with
  | Some l => l
  | None => []
  end.

Module QueryType.

Inductive t : Type :=
| BRAND_DIRECT | CATEGORY_SEARCH | RECOMMENDATION | COMPARISON
| REVIEW_INQUIRY | LOCAL_SEARCH | PRODUCT_SEARCH | SERVICE_INQUIRY
| PRICING_INQUIRY | ALTERNATIVE_SEARCH | INDUSTRY_LEADER | TRUST_VERIFICATION.

Definition eqb (a b : t) : bool :=
  match a, b with
  | BRAND_DIRECT, BRAND_DIRECT | CATEGORY_SEARCH, CATEGORY_SEARCH
  | RECOMMENDATION, RECOMMENDATION | COMPARISON, COMPARISON
  | REVIEW_INQUIRY, REVIEW_INQUIRY | LOCAL_SEARCH, LOCAL_SEARCH
  | PRODUCT_SEARCH, PRODUCT_SEARCH | SERVICE_INQUIRY, SERVICE_INQUIRY
  | PRICING_INQUIRY, PRICING_INQUIRY | ALTERNATIVE_SEARCH, ALTERNATIVE_SEARCH
  | INDUSTRY_LEADER, INDUSTRY_LEADER | TRUST_VERIFICATION, TRUST_VERIFICATION => true
  | _, _ => false
  end.

End QueryType.

Inductive Priority : Type :=
| HIGH | MEDIUM | LOW.

Record Prompt : Type := {
  prompt : jsstring;
  type : QueryType.t;
  priority : Priority
}.

Definition mkPrompt (p : jsstring) (t : QueryType.t) (pr : Priority) : Prompt :=
  {| prompt := p; type := t; priority := pr |}.

(** [generatePrompts(business)] *)
Definition generatePrompts (business : Business) : list Prompt :=
  let name := name business in
  let category := orString (category business) (js "services") in
  let location :=
    if truthy (city business)
    then Some (template (city business)
               ++ (if truthy (country business)
                   then js ", " ++ template (country business) else []))
    else None in
  let products := orEmpty (products business) in
  let services := orEmpty (services business) in
  (* HIGH PRIORITY - Brand & Trust *)
  [ mkPrompt (js "Tell me about " ++ name) QueryType.BRAND_DIRECT HIGH;
    mkPrompt (js "What is " ++ name ++ js "?") QueryType.BRAND_DIRECT HIGH;
    mkPrompt (js "Is " ++ name ++ js " good?") QueryType.RECOMMENDATION HIGH;
    mkPrompt (js "Should I use " ++ name ++ js "?") QueryType.RECOMMENDATION HIGH;
    mkPrompt (js "Would you recommend " ++ name ++ js "?") QueryType.RECOMMENDATION HIGH;
    mkPrompt (js "Is " ++ name ++ js " trustworthy?") QueryType.TRUST_VERIFICATION HIGH;
    mkPrompt (js "Is " ++ name ++ js " legit?") QueryType.TRUST_VERIFICATION HIGH;
    mkPrompt (name ++ js " reviews") QueryType.REVIEW_INQUIRY HIGH;
    mkPrompt (js "What do people say about " ++ name ++ js "?")
      QueryType.REVIEW_INQUIRY HIGH ]
  (* MEDIUM PRIORITY - Category & Discovery *)
  ++ (if truthy (Some category) then
        [ mkPrompt (js "Best " ++ category ++ js " companies")
            QueryType.CATEGORY_SEARCH MEDIUM;
          mkPrompt (js "Top " ++ category ++ js " services")
            QueryType.CATEGORY_SEARCH MEDIUM;
          mkPrompt (js "Who are the leading " ++ category ++ js " providers?")
            QueryType.INDUSTRY_LEADER MEDIUM;
          mkPrompt (js "Most trusted " ++ category ++ js " companies")
            QueryType.TRUST_VERIFICATION MEDIUM ]
      else [])
  (* LOCAL SEARCH *)
  ++ (if truthy location then
        let location := template location in
        [ mkPrompt (js "Best " ++ category ++ js " in " ++ location)
            QueryType.LOCAL_SEARCH HIGH;
          mkPrompt (category ++ js " near " ++ location) QueryType.LOCAL_SEARCH MEDIUM;
          mkPrompt (js "Top rated " ++ category ++ js " in " ++ location)
            QueryType.LOCAL_SEARCH MEDIUM;
          mkPrompt (js "Trusted " ++ category ++ js " " ++ location)
            QueryType.LOCAL_SEARCH MEDIUM ]
      else [])
  (* PRODUCT/SHOPPING QUERIES *)
  ++ (if (0 <? List.length products)%nat then
        flat_map
          (fun product =>
             [ mkPrompt (js "Is " ++ product ++ js " by " ++ name ++ js " worth it?")
                 QueryType.PRODUCT_SEARCH MEDIUM;
               mkPrompt (js "Best " ++ product ++ js " to buy")
                 QueryType.PRODUCT_SEARCH MEDIUM;
               mkPrompt (product ++ js " reviews") QueryType.PRODUCT_SEARCH MEDIUM ])
          (firstn 3 products)
        ++ [ mkPrompt (js "Best products from " ++ name)
               QueryType.PRODUCT_SEARCH MEDIUM ]
      else [])
  (* SERVICE QUERIES *)
  ++ (if (0 <? List.length services)%nat then
        flat_map
          (fun service =>
             [ mkPrompt (js "Best " ++ service ++ js " provider")
                 QueryType.SERVICE_INQUIRY MEDIUM;
               mkPrompt (js "Who offers the best " ++ service ++ js "?")
                 QueryType.SERVICE_INQUIRY MEDIUM ])
          (firstn 2 services)
      else [])
  (* COMPETITOR COMPARISONS *)
  ++ (match competitors business with
      | Some comps =>
          if (0 <? List.length comps)%nat then
            flat_map
              (fun comp =>
                 [ mkPrompt (name ++ js " vs " ++ comp) QueryType.COMPARISON MEDIUM;
                   mkPrompt (js "Should I choose " ++ name ++ js " or " ++ comp ++ js "?")
                     QueryType.COMPARISON MEDIUM ])
              (firstn 3 comps)
          else []
      | None => []
      end)
  (* ALTERNATIVES & PRICING *)
  ++ [ mkPrompt (js "Alternatives to " ++ name) QueryType.ALTERNATIVE_SEARCH LOW;
       mkPrompt (name ++ js " pricing") QueryType.PRICING_INQUIRY LOW;
       mkPrompt (js "How much does " ++ name ++ js " cost?")
         QueryType.PRICING_INQUIRY LOW ].

(** [scanType === 'QUICK' ? prompts.slice(0, 5) : prompts] *)
Definition limitedPrompts (scanType : jsstring) (prompts : list Prompt) : list Prompt :=
  if list_eq_dec N.eq_dec scanType (js "QUICK") then firstn 5 prompts else prompts.

(** The queries of the scan loop, in the order they are sent: every
    platform for the first prompt, then for the second, and so on. *)
Definition scanQueries (prompts : list Prompt) (platforms : list jsstring)
  : list (jsstring * jsstring) :=
  flat_map (fun p => map (fun platform => (platform, prompt p)) platforms) prompts.

(** The business as [generatePrompts] reads it: the category with its
    default, the country only beside a city, and the first three
    products, two services and three competitors. *)
Definition promptView (b : Business) : Business :=
  {| name := name b;
     category := Some (orString (category b) (js "services"));
     city := city b;
     country := if truthy (city b) then country b else None;
     website := None;
     instagram_handle := None;
     tiktok_handle := None;
     facebook_url := None;
     products := Some (firstn 3 (orEmpty (products b)));
     services := Some (firstn 2 (orEmpty (services b)));
     competitors := Some (firstn 3 (orEmpty (competitors b))) |}.

(** ** What the scan handler stores and reports *)

Local Open Scope num_scope.

(** An [INT] column of a stored row as it is read back: an integer, or
    [null] for NULL (the score columns have no NOT NULL constraint). *)
Definition column : Type := option Z.

Definition columnValue (c : column) : Z :=
  match c with
  | Some z => z
  | None => 0
  end.

(** The number a column is in a subtraction: [null] counts as 0. *)
Definition columnNumber (c : column) : number := ofZ (columnValue c).

(** The row inserted into [scores]: the scores of the aggregator and the
    columns the handler adds.  [prevScore] is the [overall_score] column
    of the latest stored row, if there is such a row. *)
Record ScoreRow : Type := {
  row_scores : Scores;
  local_visibility_score : number;
  social_discovery_score : number;
  review_strength_score : number;
  website_optimization_score : number;
  technical_readiness_score : number;
  category_authority_score : number;
  overall_change : option number
}.

Definition scoreRow (business : Business) (scores : Scores)
    (prevScore : option column) : ScoreRow :=
  {| row_scores := scores;
     local_visibility_score := if truthy (city business) then ofZ 60 else ofZ 30;
     social_discovery_score :=
       ofNat (count truthy [instagram_handle business; tiktok_handle business;
                            facebook_url business])
       * ofZ 25;
     review_strength_score := ofZ 50;
     website_optimization_score := if truthy (website business) then ofZ 60 else ofZ 0;
     technical_readiness_score := ofZ 50;
     category_authority_score :=
       Math_round ((ai_trust_score scores + ai_visibility_score scores) / ofZ 2);
     overall_change :=
       match prevScore with
       | Some prev => Some (overall_score scores - columnNumber prev)
       | None => None
       end |}.

Definition highlightsOf (scores : Scores) : list jsstring :=
  (if leb (ofZ 70) (ai_visibility_score scores)
   then [js "Strong AI visibility"] else [])
  ++ (if leb (ofZ 70) (ai_trust_score scores)
      then [js "High AI trust signals"] else [])
  ++ (if leb (ofZ 60) (ai_recommendation_score scores)
      then [js "Good recommendation rate"] else []).

Definition criticalIssuesOf (scores : Scores) (analyses : list Analysis)
  : list jsstring :=
  (if ltb (ai_visibility_score scores) (ofZ 30)
   then [js "Very low AI visibility"] else [])
  ++ (if ltb (ai_trust_score scores) (ofZ 30)
      then [js "Trust issues detected"] else [])
  ++ (if existsb (fun a => MentionType_eqb (mentionType a) NEGATIVE) analyses
      then [js "Negative mentions found"] else []).

(** The score-drop test of the handler, on the numbers it compares: the
    severity of the alert, if one is raised. *)
Definition scoreDropSeverity (overall : number) (prevScore : option column)
  : option AlertSeverity :=
  match prevScore with
  | Some prev =>
      if ltb overall (columnNumber prev - ofZ 10)
      then Some (if ltb overall (columnNumber prev - ofZ 20) then CRITICAL else WARNING)
      else None
  | None => None
  end.

Local Close Scope num_scope.

(** The integer an integer-valued number stands for. *)
Definition toInt (x : number) : Z :=
  match x with
  | S754_finite s m e =>
      cond_Zopp s (if (0 <=? e)%Z then Zpos m * 2 ^ e else Zpos m / 2 ^ (- e))%Z
  | _ => 0%Z
  end.

(** An integer between 0 and 100. *)
Definition isScore (x : number) : Prop := isInteger x = true /\ between 0 100 x.

Definition rowInRange (r : ScoreRow) : Prop :=
  isScore (overall_score (row_scores r))
  /\ isScore (ai_trust_score (row_scores r))
  /\ isScore (ai_visibility_score (row_scores r))
  /\ isScore (ai_recommendation_score (row_scores r))
  /\ isScore (ai_citation_score (row_scores r))
  /\ isScore (sentiment_score (row_scores r))
  /\ isScore (confidence_score (row_scores r))
  /\ isScore (local_visibility_score r)
  /\ isScore (social_discovery_score r)
  /\ isScore (review_strength_score r)
  /\ isScore (website_optimization_score r)
  /\ isScore (technical_readiness_score r)
  /\ isScore (category_authority_score r).

(** ** The competitor scan *)

(** The loop over the queries of one competitor: each response that
    arrives is analyzed and the analysis pushed, in order; a query whose
    analysis throws is skipped.  [None] of the analyzer is the pattern
    that [new RegExp] rejects, and also the pattern outside the fragment
    modelled. *)
Definition analyzeCompetitorAll (responses : list jsstring) (competitor : jsstring)
  : list CompetitorAnalysis :=
  flat_map
    (fun r =>
       match analyzeCompetitorResponse r competitor with
       | Some a => [a]
       | None => []
       end)
    responses.

(** The columns of the latest stored row of [scores] the competitor scan
    reads; they are [INT] columns, which can be NULL. *)
Module StoredScore.

Record t : Type := {
  ai_visibility_score : column;
  ai_trust_score : column;
  ai_recommendation_score : column
}.

Definition isInt32 (c : column) : Prop :=
  (- 2 ^ 31 <= columnValue c < 2 ^ 31)%Z.

Definition valid (s : t) : Prop :=
  isInt32 (ai_visibility_score s) /\ isInt32 (ai_trust_score s)
  /\ isInt32 (ai_recommendation_score s).

End StoredScore.

Local Open Scope num_scope.

(** What the scan computes for one competitor: the estimated scores, the
    differences to the scores of the business (positive when the
    business is ahead), the areas, and whether a [COMPETITOR_OVERTAKE]
    alert is inserted. *)
Record Benchmark : Type := {
  estVisibility : number;
  estTrust : number;
  estRecommendation : number;
  visibilityDiff : number;
  trustDiff : number;
  recommendationDiff : number;
  strengthAreas : list jsstring;
  weaknessAreas : list jsstring;
  insights : list jsstring;
  overtakeAlert : bool
}.

(** The body of [if (competitorAnalyses.length > 0) { ... }]; [yourScore]
    is the latest stored row of the business. *)
Definition benchmarkOf (competitor : jsstring) (yourScore : StoredScore.t)
    (competitorAnalyses : list CompetitorAnalysis) : option Benchmark :=
  if (0 <? List.length competitorAnalyses)%nat then
    let total := ofNat (List.length competitorAnalyses) in
    let mentionRate := ofNat (count c_mentioned competitorAnalyses) / total in
    let avgSentiment :=
      fold_left (fun sum a => sum + c_sentimentScore a) competitorAnalyses (ofZ 0)
      / total in
    let recommendRate := ofNat (count c_isRecommended competitorAnalyses) / total in
    let estVisibility := Math_round (mentionRate * ofZ 100) in
    let estTrust :=
      Math_round (((avgSentiment + ofZ 1) / ofZ 2) * ofZ 70 + recommendRate * ofZ 30) in
    let estRecommendation := Math_round (recommendRate * ofZ 100) in
    let visibilityDiff :=
      columnNumber (StoredScore.ai_visibility_score yourScore) - estVisibility in
    let trustDiff := columnNumber (StoredScore.ai_trust_score yourScore) - estTrust in
    let recommendationDiff :=
      columnNumber (StoredScore.ai_recommendation_score yourScore)
      - estRecommendation in
    Some
      {| estVisibility := estVisibility;
         estTrust := estTrust;
         estRecommendation := estRecommendation;
         visibilityDiff := visibilityDiff;
         trustDiff := trustDiff;
         recommendationDiff := recommendationDiff;
         strengthAreas :=
           (if ltb (ofZ 10) visibilityDiff then [js "AI Visibility"] else [])
           ++ (if ltb (ofZ 10) trustDiff then [js "AI Trust"] else [])
           ++ (if ltb (ofZ 10) recommendationDiff then [js "Recommendations"] else []);
         weaknessAreas :=
           (if ltb (ofZ 10) visibilityDiff then []
            else if ltb visibilityDiff (ofZ (-10)) then [js "AI Visibility"] else [])
           ++ (if ltb (ofZ 10) trustDiff then []
               else if ltb trustDiff (ofZ (-10)) then [js "AI Trust"] else [])
           ++ (if ltb (ofZ 10) recommendationDiff then []
               else if ltb recommendationDiff (ofZ (-10))
                    then [js "Recommendations"] else []);
         insights :=
           (if ltb (ofZ 10) visibilityDiff then []
            else if ltb visibilityDiff (ofZ (-10))
                 then [competitor ++ js " has higher AI visibility"] else [])
           ++ (if ltb (ofZ 10) trustDiff then []
               else if ltb trustDiff (ofZ (-10))
                    then [competitor ++ js " has stronger trust signals"] else [])
           ++ (if ltb (ofZ 10) recommendationDiff then []
               else if ltb recommendationDiff (ofZ (-10))
                    then [competitor ++ js " gets recommended more often"] else []);
         overtakeAlert :=
           (ltb visibilityDiff (ofZ (-20)) || ltb trustDiff (ofZ (-20)))%bool |}
  else None.

Local Close Scope num_scope.

(** The queries sent for one competitor. *)
Definition competitorQueries (business : Business) (competitor : jsstring)
  : list jsstring :=
  [ js "Tell me about " ++ competitor;
    js "Is " ++ competitor ++ js " good?";
    js "Would you recommend " ++ competitor ++ js "?";
    competitor ++ js " reviews" ]
  ++ (if truthy (category business)
      then [js "Best " ++ template (category business) ++ js " companies"]
      else []).

(** The queries counted for the share of voice:
    [allMentionData.filter(d => d.query.includes('Best'))], on the queries. *)
Definition categoryQueries (queries : list jsstring) : list jsstring :=
  filter (fun query => includes query (js "Best")) queries.

(** ** The scheduled monitor *)

(** [a === b] on strings. *)
Definition strictEq (a b : jsstring) : bool :=
  if list_eq_dec N.eq_dec a b then true else false.

(** [getPlatformsForPlan(plan)] *)
Definition getPlatformsForPlan (plan : jsstring) : list jsstring :=
  if strictEq plan (js "FREE") then [js "chatgpt"]
  else if strictEq plan (js "STARTER") then [js "chatgpt"]
  else if strictEq plan (js "PROFESSIONAL")
       then [js "chatgpt"; js "claude"; js "perplexity"]
  else if (strictEq plan (js "SCALE") || strictEq plan (js "CUSTOM"))%bool
       then [js "chatgpt"; js "claude"; js "perplexity"; js "gemini"]
  else [js "chatgpt"].

(** The scans one run of the monitor requests: for each of the first 50
    businesses due, the platforms of the plan of its owner (FREE when the
    plan is missing); the scan type is [SCHEDULED].  The result lists,
    for each scan requested, the queries the scan handler sends when it
    runs, the business being the row that handler reads. *)
Definition monitorQueries (businessesToScan : list (Business * option jsstring))
  : list (list (jsstring * jsstring)) :=
  map (fun '(business, plan) =>
         let platforms := getPlatformsForPlan (orString plan (js "FREE")) in
         scanQueries (limitedPrompts (js "SCHEDULED") (generatePrompts business))
           platforms)
    (firstn 50 businessesToScan).

(** ** Hit counts, and batches without signal *)

(** The number of entries of a lexicon found in a response. *)
Definition hitCount (lexicon : list jsstring) (responseText : jsstring) : nat :=
  List.length (hits lexicon (toLowerCase responseText)).

(** [a === b] on numbers. *)
Definition numEq (a b : number) : bool := SFeqb a b.

(** An analysis without any signal: the business is not mentioned and no
    entry of a lexicon and no URL of the business was found. *)
Definition noSignal (a : Analysis) : Prop :=
  mentioned a = false /\ mentionType a = ABSENT
  /\ sentimentScore a = sentimentOf 0 0 /\ confidenceScore a = confidenceOf 0 0
  /\ hasHedging a = false /\ isRecommended a = false /\ citedUrl a = None.

(** ** The composite scores against the exact formulas *)

Local Open Scope Z_scope.

(** [2 ^ -46], the spacing of the numbers between 64 and 128, and
    [2 ^ -52], that of the numbers between 1/2 and 1. *)
Definition coarse : Z := sc 1 (-46).
Definition fine : Z := sc 1 (-52).

(** A weight of the source text: the binary64 number nearest to
    [wt / 100]. *)
Definition weight_near (c : number) (wt : Z) : bool :=
  finiteb c && (0 <=? scf c) && (scf c <=? unitOne)
  && (5 * Z.abs (100 * scf c - wt * unitOne) <=? coarse).

(** The score [x] is the integer [z], or, when the exact value [q] of the
    formula is a tie, possibly the integer below. *)
Definition agrees (x : number) (q : Q) (z : Z) : Prop :=
  isInteger x = true
  /\ (toInt x = z \/ (Spec.isTie q = true /\ toInt x = z - 1)).

Local Close Scope Z_scope.

(** * Properties *)

(** ** Strings and the mention pattern *)

Section CodeUnitFacts.

Lemma latin1_complete (c : codeUnit) : (c < 256)%N -> In c latin1.
Proof.
  intros H. unfold latin1.
  rewrite <- (N2Nat.id c).
  apply in_map, in_seq. lia.
Qed.

Lemma forall_latin1 (P : codeUnit -> bool) :
  forallb P latin1 = true -> forall c, (c < 256)%N -> P c = true.
Proof.
  intros H c Hc. rewrite forallb_forall in H. apply H, latin1_complete, Hc.
Qed.

Lemma forall_latin1_pairs (P : codeUnit -> codeUnit -> bool) :
  forallb (fun c => forallb (P c) latin1) latin1 = true ->
  forall c d, (c < 256)%N -> (d < 256)%N -> P c d = true.
Proof.
  intros H c d Hc Hd.
  apply (forall_latin1 (P c)); [|exact Hd].
  apply (forall_latin1 (fun c => forallb (P c) latin1) H c Hc).
Qed.

(** Within U+0000..U+00FF the lower case of a code unit is one code unit
    of that range. *)
Lemma lowerUnit_latin1 (c : codeUnit) :
  (c < 256)%N -> lowerUnit c = [lowerChar c] /\ (lowerChar c < 256)%N.
Proof.
  intros Hc.
  assert (K : forall c, (c < 256)%N ->
            (match lowerUnit c with
             | [l] => N.eqb l (lowerChar c) && N.ltb (lowerChar c) 256
             | _ => false
             end)%bool = true).
  { apply forall_latin1. vm_compute. reflexivity. }
  specialize (K c Hc).
  destruct (lowerUnit c) as [|l [|l' r]]; try discriminate K.
  apply andb_true_iff in K. destruct K as [K1 K2].
  apply N.eqb_eq in K1. apply N.ltb_lt in K2. subst l. split; [reflexivity|exact K2].
Qed.

(** A lower-cased pattern character matches a text character under the
    [i] flag exactly when it is the lower case of that character. *)
Lemma charEqCI_lower (b d : codeUnit) :
  (b < 256)%N -> (d < 256)%N ->
  charEqCI (lowerChar b) d = N.eqb (lowerChar b) (lowerChar d).
Proof.
  intros Hb Hd. apply Bool.eqb_prop.
  revert b d Hb Hd. apply forall_latin1_pairs. vm_compute. reflexivity.
Qed.

Lemma isLatin1_cons (c : codeUnit) (s : jsstring) :
  isLatin1 (c :: s) = true -> (c < 256)%N /\ isLatin1 s = true.
Proof.
  unfold isLatin1. simpl. intros H.
  apply andb_true_iff in H. destruct H as [H1 H2].
  apply N.ltb_lt in H1. split; assumption.
Qed.

(** On a string of U+0000..U+00FF, [toLowerCase] works code unit by code
    unit, and stays in that range. *)
Lemma toLowerCase_latin1 (s : jsstring) :
  isLatin1 s = true -> toLowerCase s = map lowerChar s.
Proof.
  induction s as [|c s IH]; intros H; [reflexivity|].
  apply isLatin1_cons in H. destruct H as [Hc Hs].
  unfold toLowerCase in *. simpl.
  rewrite (proj1 (lowerUnit_latin1 c Hc)), (IH Hs). reflexivity.
Qed.

Lemma not_syntax_not_special (c : codeUnit) :
  isSyntaxChar c = false ->
  N.eqb c backslash = false /\ N.eqb c dot = false.
Proof.
  intros H. split.
  - destruct (N.eqb_spec c backslash) as [->|]; [discriminate H|reflexivity].
  - destruct (N.eqb_spec c dot) as [->|]; [discriminate H|reflexivity].
Qed.

End CodeUnitFacts.

Section MentionPattern.

(** The escaped name always compiles, to the literal atoms of the name. *)
Lemma newRegExp_escapeRegExp (s : jsstring) :
  newRegExp (escapeRegExp s) = Some (map Lit s).
Proof.
  induction s as [|c r IH]; [reflexivity|].
  simpl escapeRegExp. destruct (isSyntaxChar c) eqn:E.
  - cbn [newRegExp]. rewrite N.eqb_refl, E, IH. reflexivity.
  - destruct (not_syntax_not_special c E) as [E1 E2].
    cbn [newRegExp]. rewrite E1, E2, E, IH. reflexivity.
Qed.

(** Matching the literal atoms of a lower-cased name against the text,
    case-insensitively, is a prefix test on the lower-cased text. *)
Lemma matchesAt_literals (name text : jsstring) :
  isLatin1 name = true -> isLatin1 text = true ->
  matchesAt (map Lit (map lowerChar name)) text
  = startsWith (map lowerChar name) (map lowerChar text).
Proof.
  revert text. induction name as [|b name IH]; intros text Hn Ht.
  - reflexivity.
  - destruct text as [|d text]; [reflexivity|].
    apply isLatin1_cons in Hn. destruct Hn as [Hb Hn].
    apply isLatin1_cons in Ht. destruct Ht as [Hd Ht].
    simpl. rewrite (charEqCI_lower b d Hb Hd), (IH text Hn Ht). reflexivity.
Qed.

Lemma startsWith_empty (s : jsstring) : startsWith [] s = true.
Proof. destruct s; reflexivity. Qed.

Lemma includes_empty (s : jsstring) : includes s [] = true.
Proof. destruct s; reflexivity. Qed.

Lemma countFrom_literals (name text : jsstring) (skip : nat) :
  isLatin1 name = true -> isLatin1 text = true ->
  countFrom (map Lit (map lowerChar name)) skip text
  = occurrencesFrom (map lowerChar name) skip (map lowerChar text).
Proof.
  intros Hn. revert skip. induction text as [|d text IH]; intros skip Ht.
  - simpl. destruct skip; [|reflexivity].
    rewrite (matchesAt_literals name [] Hn Ht). reflexivity.
  - pose proof (isLatin1_cons d text Ht) as [_ Ht'].
    simpl countFrom. simpl map. simpl occurrencesFrom.
    destruct skip as [|k]; [|apply IH, Ht'].
    rewrite (matchesAt_literals name (d :: text) Hn Ht).
    simpl map.
    rewrite !length_map, !(IH _ Ht'). reflexivity.
Qed.

(** A count from position zero is positive exactly when the name occurs. *)
Lemma occurrencesFrom_positive (name text : jsstring) :
  (0 <? occurrencesFrom name 0 text)%nat = includes text name.
Proof.
  induction text as [|d text IH].
  - simpl. destruct (startsWith name []); reflexivity.
  - simpl occurrencesFrom. simpl includes.
    destruct (startsWith name (d :: text)); [reflexivity|exact IH].
Qed.

(** The count of the escaped pattern, for a name and a text of
    U+0000..U+00FF: the occurrences of the lower-cased name in the
    lower-cased text. *)
Lemma matchCount_occurrencesCI (name text : jsstring) :
  isLatin1 name = true -> isLatin1 text = true ->
  matchCount (map Lit (toLowerCase name)) text = occurrencesCI name text.
Proof.
  intros Hn Ht. unfold matchCount, occurrencesCI.
  rewrite (toLowerCase_latin1 name Hn), (toLowerCase_latin1 text Ht).
  apply countFrom_literals; assumption.
Qed.

End MentionPattern.

(** ** What [analyzeResponse] returns *)

Section AnalyzeResponse.

Variables (responseText businessName : jsstring) (competitors : list jsstring).

Let lowerText := toLowerCase responseText.
Let lowerBusiness := toLowerCase businessName.
Let positiveCount := List.length (hits POSITIVE_INDICATORS lowerText).
Let negativeCount := List.length (hits NEGATIVE_INDICATORS lowerText).
Let hedgingCount := List.length (hits HEDGING_WORDS lowerText).
Let recommendationCount := List.length (hits RECOMMENDATION_PHRASES lowerText).

(** The analyzer never fails, and its fields are these. *)
Lemma analyzeResponse_fields :
  exists a,
    analyzeResponse responseText businessName competitors = Some a
    /\ mentioned a = includes lowerText lowerBusiness
    /\ mentionCount a = matchCount (map Lit lowerBusiness) responseText
    /\ mentionContext a =
         (if mentioned a
          then mentionContextOf responseText lowerText lowerBusiness businessName
          else [])
    /\ sentimentScore a = sentimentOf positiveCount negativeCount
    /\ sentiment a = sentimentCategory negativeCount (sentimentScore a)
    /\ confidenceScore a = confidenceOf positiveCount hedgingCount
    /\ hasHedging a = (2 <=? hedgingCount)%nat
    /\ isRecommended a =
         ((0 <? recommendationCount)%nat
          && negb (SentimentType_eqb (sentiment a) SENT_NEGATIVE))%bool
    /\ recommendationStrength a =
         (if (2 <=? recommendationCount)%nat then STRONG
          else if (recommendationCount =? 1)%nat then MODERATE
          else NONE)
    /\ mentionType a =
         (if negb (mentioned a) then ABSENT
          else if (2 <=? negativeCount)%nat then NEGATIVE
          else if (3 <=? mentionCount a)%nat then PRIMARY
          else if (2 <=? mentionCount a)%nat then FEATURED
          else if existsb (fun c => includes lowerText (toLowerCase c)) competitors
          then COMPARISON
          else BRIEF).
Proof.
  unfold analyzeResponse.
  rewrite newRegExp_escapeRegExp.
  eexists. split; [reflexivity|].
  cbv beta iota zeta
    delta [mentioned mentionCount mentionContext sentimentScore sentiment
           confidenceScore hasHedging isRecommended recommendationStrength
           mentionType].
  repeat split; reflexivity.
Qed.

End AnalyzeResponse.

Lemma mentionType_absent_iff (a : Analysis) (neg : nat) (comp : bool) :
  mentionType a =
    (if negb (mentioned a) then ABSENT
     else if (2 <=? neg)%nat then NEGATIVE
     else if (3 <=? mentionCount a)%nat then PRIMARY
     else if (2 <=? mentionCount a)%nat then FEATURED
     else if comp then COMPARISON
     else BRIEF) ->
  (mentionType a = ABSENT <-> mentioned a = false).
Proof.
  intros ->.
  destruct (mentioned a); cbn [negb].
  - destruct (2 <=? neg)%nat, (3 <=? mentionCount a)%nat,
      (2 <=? mentionCount a)%nat, comp; split; intros H; discriminate H.
  - split; reflexivity.
Qed.

(** For every response and every business name the primary analyzer
    builds its pattern from the escaped name, which compiles to the
    literal code units of the lower-cased name; for a name and a response
    of U+0000..U+00FF the count it reports is the number of occurrences
    of the name, both case-folded, read left to right without overlap. *)
Theorem analyzeResponse_mentionCount (responseText businessName : jsstring)
    (competitors : list jsstring) :
  exists a,
    analyzeResponse responseText businessName competitors = Some a
    /\ newRegExp (escapeRegExp (toLowerCase businessName))
       = Some (map Lit (toLowerCase businessName))
    /\ mentionCount a = matchCount (map Lit (toLowerCase businessName)) responseText
    /\ (isLatin1 businessName = true -> isLatin1 responseText = true ->
        mentionCount a = occurrencesCI businessName responseText).
Proof.
  destruct (analyzeResponse_fields responseText businessName competitors)
    as (a & Ha & _ & Hc & _).
  exists a. split; [exact Ha|].
  split; [apply newRegExp_escapeRegExp|].
  split; [exact Hc|].
  intros Hn Ht. rewrite Hc. apply matchCount_occurrencesCI; assumption.
Qed.

(** C4, evaluated where it fails.  The competitor analyzer passes the name
    to the pattern constructor without escaping it: for the name [a.c] and
    the response [abc] the dot matches the [b] and one mention is counted,
    although the name does not occur in the response (no occurrence is
    counted by the escaped pattern, and [mentioned] is false). *)
Theorem analyzeCompetitorResponse_unescaped :
  option_map c_mentionCount (analyzeCompetitorResponse (js "abc") (js "a.c")) = Some 1
  /\ option_map c_mentioned (analyzeCompetitorResponse (js "abc") (js "a.c")) = Some false
  /\ occurrencesCI (js "a.c") (js "abc") = 0
  /\ option_map mentionCount (analyzeResponse (js "abc") (js "a.c") []) = Some 0.
Proof.
  repeat split; vm_compute; reflexivity.
Qed.

(** The mention invariant within U+0000..U+00FF.  For a response and a
    business name made of code units of that range, [mentioned] is true
    exactly when [mentionCount] is positive; and for every response and
    name, [mentionType] is [ABSENT] exactly when [mentioned] is false. *)
Theorem mention_count_invariant_latin1 (responseText businessName : jsstring)
    (competitors : list jsstring) :
  exists a,
    analyzeResponse responseText businessName competitors = Some a
    /\ (isLatin1 businessName = true -> isLatin1 responseText = true ->
        (mentioned a = true <-> 0 < mentionCount a))
    /\ (mentionType a = ABSENT <-> mentioned a = false).
Proof.
  destruct (analyzeResponse_fields responseText businessName competitors)
    as (a & Ha & Hm & Hc & _ & _ & _ & _ & _ & _ & _ & Ht).
  exists a. split; [exact Ha|]. split.
  - intros Hn Hx.
    rewrite Hm, Hc, (matchCount_occurrencesCI _ _ Hn Hx). unfold occurrencesCI.
    rewrite <- occurrencesFrom_positive.
    apply Nat.ltb_lt.
  - eapply mentionType_absent_iff, Ht.
Qed.

(** C5, evaluated where it fails.  [mentioned] compares the lower-cased
    strings, [mentionCount] matches the lower-cased name against the
    response as it is, case-insensitively, and the two disagree where
    [toLowerCase] is not undone by the canonicalisation of the pattern.
    The lower case of U+0130 is [i] followed by U+0307, which the pattern
    does not match against U+0130: a response that names the business
    [istanbulKebab] has [mentioned] true and a count of zero.  The same
    holds for the name [K] and a response with the Kelvin sign U+212A. *)
Theorem mention_without_count :
  option_map mentioned (analyzeResponse istanbulResponse istanbulKebab []) = Some true
  /\ option_map mentionCount (analyzeResponse istanbulResponse istanbulKebab []) = Some 0
  /\ option_map mentionType (analyzeResponse istanbulResponse istanbulKebab [])
     = Some BRIEF
  /\ option_map mentioned (analyzeResponse kelvinResponse (js "K") []) = Some true
  /\ option_map mentionCount (analyzeResponse kelvinResponse (js "K") []) = Some 0.
Proof.
  repeat split; vm_compute; reflexivity.
Qed.

(** C10. With the empty business name every response is a mention, and for
    the empty response the mention comes with an empty context: at that
    input [mentionContext] is not non-empty exactly when [mentioned]. *)
Theorem empty_name_always_mentioned :
  (forall (responseText : jsstring) (competitors : list jsstring),
      exists a,
        analyzeResponse responseText [] competitors = Some a
        /\ mentioned a = true)
  /\ (forall competitors : list jsstring,
         exists a,
           analyzeResponse [] [] competitors = Some a
           /\ mentioned a = true
           /\ mentionContext a = []
           /\ ~ (mentionContext a <> [] <-> mentioned a = true)).
Proof.
  split.
  - intros responseText competitors.
    destruct (analyzeResponse_fields responseText [] competitors)
      as (a & Ha & Hm & _).
    exists a. split; [exact Ha|].
    rewrite Hm. apply includes_empty.
  - intros competitors.
    destruct (analyzeResponse_fields [] [] competitors)
      as (a & Ha & Hm & _ & Hx & _).
    assert (Hm' : mentioned a = true) by (rewrite Hm; reflexivity).
    assert (Hx' : mentionContext a = []) by (rewrite Hx, Hm'; reflexivity).
    exists a. repeat split; try assumption.
    intros [_ K]. apply (K Hm'). exact Hx'.
Qed.

(** ** The score-drop alert *)

Section ScoreDrop.

Local Open Scope Z_scope.

(** C1, where it fails.  At a drop of exactly 10 the handler raises no
    alert, and at a drop of exactly 20 the alert is a WARNING. *)
Lemma scoreDropAlert_boundaries :
  (70 - 80 <= -10)%Z /\ scoreDropAlert 70 (Some 80) = None
  /\ (60 - 80 <= -20)%Z
  /\ option_map severity (scoreDropAlert 60 (Some 80)) = Some WARNING.
Proof.
  repeat split; vm_compute; try reflexivity; discriminate.
Qed.

(** C1, as the handler has it.  Without a previous score there is no
    alert.  With one, and [delta = overall - previous], a [SCORE_DROP]
    alert is raised exactly when [delta < -10] (a drop of more than 10),
    and it is [CRITICAL] when [delta < -20] and a [WARNING] otherwise. *)
Theorem scoreDropAlert_thresholds (overall prev : Z) :
  let delta := (overall - prev)%Z in
  scoreDropAlert overall None = None
  /\ ((exists a, scoreDropAlert overall (Some prev) = Some a) <-> (delta < -10)%Z)
  /\ (forall a, scoreDropAlert overall (Some prev) = Some a ->
        alert_type a = SCORE_DROP
        /\ (severity a = CRITICAL <-> (delta < -20)%Z)
        /\ (severity a = WARNING <-> (-20 <= delta)%Z)).
Proof.
  intros delta. subst delta. unfold scoreDropAlert.
  split; [reflexivity|].
  destruct (overall <? prev - 10)%Z eqn:E1.
  - apply Z.ltb_lt in E1. split.
    + split; [intros _; lia | intros _; eexists; reflexivity].
    + intros a [= <-]. simpl.
      destruct (overall <? prev - 20)%Z eqn:E2.
      * apply Z.ltb_lt in E2. repeat split; try reflexivity; try lia;
          intros H; try discriminate H; lia.
      * apply Z.ltb_ge in E2. repeat split; try reflexivity; try lia;
          intros H; try discriminate H; lia.
  - apply Z.ltb_ge in E1. split.
    + split; [intros [a H]; discriminate H | intros H; lia].
    + intros a H. discriminate H.
Qed.

Lemma scoreDropAlert_thresholds_witness :
  scoreDropAlert 55 None = None
  /\ ((exists a, scoreDropAlert 55 (Some 80) = Some a) <-> (55 - 80 < -10)%Z)
  /\ (forall a, scoreDropAlert 55 (Some 80) = Some a ->
        alert_type a = SCORE_DROP
        /\ (severity a = CRITICAL <-> (55 - 80 < -20)%Z)
        /\ (severity a = WARNING <-> (-20 <= 55 - 80)%Z)).
Proof.
  exact (scoreDropAlert_thresholds 55 80).
Defined.

End ScoreDrop.

(** ** Scenario A *)

(** C3, where it fails.  The response of scenario A contains [recommend],
    so the analyzer reports it as a recommendation although the business
    is not mentioned. *)
Lemma scenarioA_is_recommended :
  ~ (exists a,
        analyzeResponse scenarioA acme [] = Some a
        /\ mentioned a = false
        /\ mentionType a = ABSENT
        /\ isRecommended a = false).
Proof.
  intros (a & Ha & _ & _ & Hr).
  vm_compute in Ha. injection Ha as <-. discriminate Hr.
Qed.

(** C3, as the analyzer has it.  For the response of scenario A and the
    business [Acme], whatever the competitors: [mentioned] is false, the
    mention type is [ABSENT], the sentiment is the category of the lexicon
    hits alone (three positive entries, no negative one: [POSITIVE]), and
    [isRecommended] is true, with strength [MODERATE]. *)
Theorem scenarioA_analysis (competitors : list jsstring) :
  exists a,
    analyzeResponse scenarioA acme competitors = Some a
    /\ mentioned a = false
    /\ mentionType a = ABSENT
    /\ sentiment a =
         sentimentCategory
           (List.length (hits NEGATIVE_INDICATORS (toLowerCase scenarioA)))
           (sentimentOf
              (List.length (hits POSITIVE_INDICATORS (toLowerCase scenarioA)))
              (List.length (hits NEGATIVE_INDICATORS (toLowerCase scenarioA))))
    /\ hits POSITIVE_INDICATORS (toLowerCase scenarioA)
       = map js ["recommend"; "trusted"; "highly recommended"]
    /\ hits NEGATIVE_INDICATORS (toLowerCase scenarioA) = []
    /\ sentiment a = POSITIVE
    /\ isRecommended a = true
    /\ recommendationStrength a = MODERATE.
Proof.
  destruct (analyzeResponse_fields scenarioA acme competitors)
    as (a & Ha & Hm & _ & _ & Hs & Hc & _ & _ & Hr & Hrs & Ht).
  assert (Hm' : mentioned a = false) by (rewrite Hm; vm_compute; reflexivity).
  assert (Hc' : sentiment a = POSITIVE)
    by (rewrite Hc, Hs; vm_compute; reflexivity).
  exists a.
  split; [exact Ha|]. split; [exact Hm'|].
  split; [rewrite Ht, Hm'; reflexivity|].
  split; [rewrite Hc, Hs; reflexivity|].
  split; [vm_compute; reflexivity|].
  split; [vm_compute; reflexivity|].
  split; [exact Hc'|].
  split; [rewrite Hr, Hc'; vm_compute; reflexivity|].
  rewrite Hrs. vm_compute. reflexivity.
Qed.

(** ** The aggregator on the empty batch *)

(** C2, where it fails.  On the empty batch the trust score is 0, not the
    value 48 of the trust formula at sentiment 50 and zeros, and the
    overall score is 0, not the value of the overall formula (25 with the
    trust of the formula, 13 with the trust returned). *)
Lemma calculateScores_empty_not_formula :
  ai_trust_score (calculateScores []) <> ofZ (Spec.trust 50 0 0 0)
  /\ overall_score (calculateScores [])
     <> ofZ (Spec.overall (Spec.trust 50 0 0 0) 0 0 0 50 50)
  /\ overall_score (calculateScores []) <> ofZ (Spec.overall 0 0 0 0 50 50).
Proof.
  repeat split; vm_compute; discriminate.
Qed.

(** C2, as the aggregator has it.  On the empty batch the result is the
    fixed object: visibility, citation and recommendation 0, sentiment and
    confidence 50, and trust and overall both 0. *)
Theorem calculateScores_empty :
  calculateScores [] =
    {| overall_score := ofZ 0;
       ai_trust_score := ofZ 0;
       ai_visibility_score := ofZ 0;
       ai_recommendation_score := ofZ 0;
       ai_citation_score := ofZ 0;
       sentiment_score := ofZ 50;
       confidence_score := ofZ 50 |}.
Proof. reflexivity. Qed.

(** ** Order of the batch *)

Lemma count_Permutation {A : Type} (p : A -> bool) (l l' : list A) :
  Permutation l l' -> count p l = count p l'.
Proof.
  unfold count.
  induction 1 as [|x l l' _ IH|x y l|l l' l'' _ IH1 _ IH2]; simpl.
  - reflexivity.
  - destruct (p x); simpl; congruence.
  - destruct (p x), (p y); reflexivity.
  - congruence.
Qed.

(** C6, where it fails.  The confidence scores 0.7, 0.4, 0.5 and 0.5 add up
    to 2.1 in one order and to 2.0999999999999996 in another, so the same
    four analyses give a confidence of 53 or of 52. *)
Lemma calculateScores_order_matters :
  let b := analyzeAll [praiseResponse; hedgedResponse; plainResponse; plainResponse]
             acme [] in
  let b' := analyzeAll [hedgedResponse; plainResponse; plainResponse; praiseResponse]
              acme [] in
  Permutation b b'
  /\ confidence_score (calculateScores b) = ofZ 53
  /\ confidence_score (calculateScores b') = ofZ 52
  /\ confidence_score (calculateScores b) <> confidence_score (calculateScores b').
Proof.
  split; [|repeat split; vm_compute; try reflexivity; discriminate].
  unfold analyzeAll.
  apply Permutation_flat_map.
  apply (Permutation_cons_append [hedgedResponse; plainResponse; plainResponse]).
Qed.

(** C6, as the aggregator has it.  The aggregator is a function of the
    batch, and the scores that are rates of counts (visibility,
    recommendation and citation) do not change when the batch is
    permuted. *)
Theorem calculateScores_permutation (b b' : list Analysis) :
  Permutation b b' ->
  calculateScores b = calculateScores b
  /\ ai_visibility_score (calculateScores b) = ai_visibility_score (calculateScores b')
  /\ ai_recommendation_score (calculateScores b)
     = ai_recommendation_score (calculateScores b')
  /\ ai_citation_score (calculateScores b) = ai_citation_score (calculateScores b').
Proof.
  intros P. split; [reflexivity|].
  unfold calculateScores.
  rewrite <- (Permutation_length P).
  rewrite <- !(count_Permutation _ b b' P).
  destruct (List.length b =? 0)%nat; repeat split; reflexivity.
Qed.

Lemma calculateScores_permutation_witness :
  let b := analyzeAll [praiseResponse; hedgedResponse] acme [] in
  let b' := analyzeAll [hedgedResponse; praiseResponse] acme [] in
  Permutation b b'
  /\ ai_visibility_score (calculateScores b) = ai_visibility_score (calculateScores b').
Proof.
  assert (P : Permutation
                (analyzeAll [praiseResponse; hedgedResponse] acme [])
                (analyzeAll [hedgedResponse; praiseResponse] acme [])).
  { unfold analyzeAll. apply Permutation_flat_map. apply perm_swap. }
  split; [exact P|].
  exact (proj1 (proj2 (calculateScores_permutation _ _ P))).
Defined.

(** ** The composite formulas *)

Local Open Scope num_scope.

(** C7, where it fails.  Two plain responses and one with two positive
    words give trust 63, sentiment 67 and confidence 57, the other scores
    being 0; the overall formula is worth 15.75 + 10.05 + 5.7 = 31.5, which
    rounds to 32, but the sum of the binary64 products is just below 31.5
    and the aggregator returns 31. *)
Lemma calculateScores_overall_tie :
  let s := calculateScores
             (analyzeAll [plainResponse; plainResponse; praiseResponse] acme []) in
  ai_trust_score s = ofZ 63
  /\ ai_visibility_score s = ofZ 0
  /\ ai_recommendation_score s = ofZ 0
  /\ ai_citation_score s = ofZ 0
  /\ sentiment_score s = ofZ 67
  /\ confidence_score s = ofZ 57
  /\ Spec.overall 63 0 0 0 67 57 = 32%Z
  /\ overall_score s = ofZ 31
  /\ overall_score s <> ofZ (Spec.overall 63 0 0 0 67 57).
Proof.
  repeat split; vm_compute; try reflexivity; discriminate.
Qed.

(** ** The confidence score *)

(** C8, where it fails.  A response with the two hedging words [might] and
    [possibly] and the positive word [great] has confidence
    (0.5 + 0.1) - 0.2, which in binary64 is 0.39999999999999997: not the
    number 0.4, and not the rational 2/5 of the exact formula. *)
Lemma scenarioC_confidence_not_0_4 :
  hits HEDGING_WORDS (toLowerCase scenarioC) = map js ["might"; "possibly"]
  /\ hits POSITIVE_INDICATORS (toLowerCase scenarioC) = map js ["great"]
  /\ option_map hasHedging (analyzeResponse scenarioC acme []) = Some true
  /\ option_map confidenceScore (analyzeResponse scenarioC acme []) = Some below_0_4
  /\ below_0_4 <> dec 4 10
  /\ Qeq_bool (toQ below_0_4) (Spec.confidence 1 2) = false.
Proof.
  repeat split; vm_compute; try reflexivity; discriminate.
Qed.

Lemma confidenceOf_1_2 : confidenceOf 1 2 = below_0_4.
Proof. vm_compute. reflexivity. Qed.

Lemma below_0_4_not_0_4 : below_0_4 <> dec 4 10.
Proof. vm_compute. discriminate. Qed.

(** C8, as the analyzer has it.  The confidence score of every response is
    [confidenceOf positiveCount hedgingCount], that is
    [max(0, min(1, (0.5 + positiveCount * 0.1) - hedgingCount * 0.1))]
    evaluated in binary64 arithmetic, the counts being the numbers of
    distinct lexicon entries found in the lower-cased response; with two
    hedging hits and one positive hit, [hasHedging] is true and the score
    is 0.39999999999999997, the binary64 number just below 0.4. *)
Theorem confidenceScore_formula (responseText businessName : jsstring)
    (competitors : list jsstring) :
  exists a,
    analyzeResponse responseText businessName competitors = Some a
    /\ let positiveCount :=
         List.length (hits POSITIVE_INDICATORS (toLowerCase responseText)) in
       let hedgingCount :=
         List.length (hits HEDGING_WORDS (toLowerCase responseText)) in
       confidenceScore a = confidenceOf positiveCount hedgingCount
       /\ hasHedging a = (2 <=? hedgingCount)%nat
       /\ (positiveCount = 1%nat -> hedgingCount = 2%nat ->
           hasHedging a = true
           /\ confidenceScore a = below_0_4
           /\ confidenceScore a <> dec 4 10).
Proof.
  destruct (analyzeResponse_fields responseText businessName competitors)
    as (a & Ha & _ & _ & _ & _ & _ & Hc & Hh & _).
  exists a. split; [exact Ha|].
  cbv zeta. split; [exact Hc|]. split; [exact Hh|].
  intros Hp Hg. rewrite Hc, Hh, Hp, Hg.
  split; [reflexivity|].
  rewrite confidenceOf_1_2.
  split; [reflexivity|exact below_0_4_not_0_4].
Qed.

Local Close Scope num_scope.

(** ** Binary64 arithmetic: rounding is faithful *)

Local Open Scope Z_scope.

(** The operations of binary64 round an exact result to the format.  The
    properties below follow [SpecFloat]'s definitions step by step and
    end in one fact for each operation: when the exact result lies
    between two numbers of the format, so does the rounded one.  All
    values are integers, in units of [2 ^ unitExp]. *)

(** *** Shifting a mantissa to the right *)

Lemma digits2_pos_bounds (m : positive) :
  2 ^ (Zpos (digits2_pos m) - 1) <= Zpos m < 2 ^ Zpos (digits2_pos m).
Proof.
  induction m as [m IH|m IH|]; simpl digits2_pos.
  - rewrite Pos2Z.inj_succ.
    replace (Z.succ (Zpos (digits2_pos m)) - 1) with (Z.succ (Zpos (digits2_pos m) - 1)) by lia.
    rewrite !Z.pow_succ_r by lia. lia.
  - rewrite Pos2Z.inj_succ.
    replace (Z.succ (Zpos (digits2_pos m)) - 1) with (Z.succ (Zpos (digits2_pos m) - 1)) by lia.
    rewrite !Z.pow_succ_r by lia. lia.
  - simpl. lia.
Qed.

Lemma shr_1_halved (x : shr_record) : 0 <= shr_m x -> halved 1 x (shr_1 x).
Proof.
  destruct x as [m r s]. unfold halved, inex. change (2 ^ 1) with 2.
  cbn [shr_m shr_r shr_s]. intros Hm.
  destruct m as [|[p|p|]|p]; [| | | |lia]; cbn [shr_1 shr_m shr_r shr_s].
  - split; [reflexivity|]. intros H _. exact H.
  - split.
    + rewrite Pos2Z.inj_xI. apply Z.div_unique with 1; lia.
    + intros _ H. rewrite Pos2Z.inj_xI in H.
      rewrite Z.add_comm, Z.mul_comm, Z.mod_add in H by lia. discriminate H.
  - split.
    + rewrite Pos2Z.inj_xO. apply Z.div_unique with 0; lia.
    + intros H _. exact H.
  - split; [reflexivity|]. intros _ H. discriminate H.
Qed.

Lemma halved_compose (a b : Z) (x y z : shr_record) :
  0 <= a -> 0 <= b -> 0 <= shr_m x ->
  halved a x y -> halved b y z -> halved (a + b) x z.
Proof.
  intros Ha Hb Hx [Hy1 Hy2] [Hz1 Hz2]. split.
  - assert (P1 : 0 < 2 ^ a) by (apply Z.pow_pos_nonneg; lia).
    assert (P2 : 0 < 2 ^ b) by (apply Z.pow_pos_nonneg; lia).
    rewrite Hz1, Hy1, Z.pow_add_r by lia.
    apply Z.div_div; lia.
  - intros Hi Hm.
    rewrite Z.pow_add_r in Hm by lia.
    assert (P1 : 0 < 2 ^ a) by (apply Z.pow_pos_nonneg; lia).
    assert (P2 : 0 < 2 ^ b) by (apply Z.pow_pos_nonneg; lia).
    apply Z.mod_divide in Hm; [|lia]. destruct Hm as [q Hq].
    apply Hz2.
    + apply Hy2; [exact Hi|].
      rewrite Hq. replace (q * (2 ^ a * 2 ^ b)) with (q * 2 ^ b * 2 ^ a) by ring.
      apply Z.mod_mul. lia.
    + rewrite Hy1, Hq.
      replace (q * (2 ^ a * 2 ^ b)) with (q * 2 ^ b * 2 ^ a) by ring.
      rewrite Z.div_mul by lia. apply Z.mod_mul. lia.
Qed.

Lemma halved_nonneg (k : Z) (x y : shr_record) :
  0 <= k -> 0 <= shr_m x -> halved k x y -> 0 <= shr_m y.
Proof.
  intros Hk Hx [H _]. rewrite H. apply Z.div_pos; [exact Hx|].
  apply Z.pow_pos_nonneg; lia.
Qed.

Lemma iter_pos_halved (p : positive) :
  forall x, 0 <= shr_m x -> halved (Zpos p) x (SpecFloat.iter_pos shr_1 p x).
Proof.
  induction p as [p IH|p IH|]; intros x Hx; simpl SpecFloat.iter_pos.
  - pose proof (shr_1_halved x Hx) as H1.
    pose proof (halved_nonneg 1 _ _ ltac:(lia) Hx H1) as N1.
    pose proof (IH _ N1) as H2.
    pose proof (halved_nonneg (Zpos p) _ _ ltac:(lia) N1 H2) as N2.
    pose proof (IH _ N2) as H3.
    replace (Zpos p~1) with (1 + (Zpos p + Zpos p)) by lia.
    eapply halved_compose; [lia|lia|exact Hx|exact H1|].
    eapply halved_compose; [lia|lia|exact N1|exact H2|exact H3].
  - pose proof (IH _ Hx) as H2.
    pose proof (halved_nonneg (Zpos p) _ _ ltac:(lia) Hx H2) as N2.
    pose proof (IH _ N2) as H3.
    replace (Zpos p~0) with (Zpos p + Zpos p) by lia.
    eapply halved_compose; [lia|lia|exact Hx|exact H2|exact H3].
  - apply shr_1_halved. exact Hx.
Qed.

(** *** The rounding step *)

Lemma fexp64_eq (e : Z) : fexp64 e = Z.max (e - 53) (-1074).
Proof. reflexivity. Qed.

Lemma Zdigits2_bounds (m : Z) :
  0 < m -> 2 ^ (Zdigits2 m - 1) <= m < 2 ^ Zdigits2 m.
Proof.
  destruct m as [|p|p]; try lia. intros _. apply digits2_pos_bounds.
Qed.

Lemma Zdigits2_pos (m : Z) : 0 < m -> 0 < Zdigits2 m.
Proof. destruct m; simpl; lia. Qed.

Lemma Zdigits2_le (m : Z) (d : Z) : 0 < m -> m < 2 ^ d -> 0 <= d -> Zdigits2 m <= d.
Proof.
  intros Hm Hlt Hd.
  pose proof (Zdigits2_bounds m Hm) as [H1 _].
  pose proof (Zdigits2_pos m Hm).
  assert (2 ^ (Zdigits2 m - 1) < 2 ^ d) by lia.
  apply Z.pow_lt_mono_r_iff in H0; lia.
Qed.

Lemma halved_zero (x : shr_record) : halved 0 x x.
Proof.
  split; [rewrite Z.pow_0_r, Z.div_1_r; reflexivity|]. intros H _. exact H.
Qed.

(** [shr] divides the mantissa by a power of two and keeps track of what
    is lost. *)
Lemma shr_halved (x : shr_record) (e n : Z) :
  0 <= shr_m x -> 0 <= n ->
  halved n x (fst (shr x e n)) /\ snd (shr x e n) = e + n.
Proof.
  intros Hx Hn. destruct n as [|p|p]; [| |lia]; simpl.
  - split; [apply halved_zero|lia].
  - split; [apply iter_pos_halved; exact Hx|reflexivity].
Qed.

Lemma shr_nonpos (x : shr_record) (e n : Z) : n <= 0 -> shr x e n = (x, e).
Proof. destruct n; [reflexivity|lia|reflexivity]. Qed.

Lemma inex_of_loc (m : Z) (l : location) :
  inex (shr_record_of_loc m l) = false <-> l = loc_Exact.
Proof.
  destruct l as [|[| |]]; unfold inex; simpl; split; intros H;
    try reflexivity; discriminate H.
Qed.

Lemma shr_m_of_loc (m : Z) (l : location) : shr_m (shr_record_of_loc m l) = m.
Proof. destruct l as [|[| |]]; reflexivity. Qed.

(** Rounding to nearest moves the truncated mantissa up by one at most,
    and only when something was lost. *)
Lemma round_nearest_even_cases (x : shr_record) :
  let m1 := round_nearest_even (shr_m x) (loc_of_shr_record x) in
  m1 = shr_m x \/ (m1 = shr_m x + 1 /\ inex x = true).
Proof.
  destruct x as [m [|] [|]]; unfold inex; simpl; auto.
  destruct (Z.even m); auto.
Qed.

(** The rounding step of every operation: the mantissa is shifted to the
    exponent of the format, rounded by at most one unit, and renormalised. *)
Lemma binary_round_aux_shape (sx : bool) (mx ex : Z) (lx : location) :
  0 <= mx ->
  ex <= fexp64 (Zdigits2 mx + ex) ->
  let e' := fexp64 (Zdigits2 mx + ex) in
  let m' := mx / 2 ^ (e' - ex) in
  0 <= m' < 2 ^ 53
  /\ -1074 <= e'
  /\ (-1074 < e' -> 2 ^ 52 <= m')
  /\ exists m1,
       (m1 = m' \/ (m1 = m' + 1 /\ ~ (lx = loc_Exact /\ mx mod 2 ^ (e' - ex) = 0)))
       /\ binary_round_aux 53 1024 sx mx ex lx = renorm sx m1 e'.
Proof.
  intros Hmx Hex e' m'.
  assert (Hk : 0 <= e' - ex) by (unfold e'; lia).
  assert (Pk : 0 < 2 ^ (e' - ex)) by (apply Z.pow_pos_nonneg; lia).
  assert (He' : -1074 <= e') by (unfold e'; rewrite fexp64_eq; lia).
  assert (Hm'0 : 0 <= m') by (apply Z.div_pos; lia).
  assert (Hm'1 : m' < 2 ^ 53).
  { destruct (Z.eq_dec mx 0) as [->|Hnz].
    - unfold m'. rewrite Z.div_0_l by lia. reflexivity.
    - pose proof (Zdigits2_bounds mx ltac:(lia)) as [_ Hd].
      pose proof (Zdigits2_pos mx ltac:(lia)) as Hdp.
      apply Z.div_lt_upper_bound; [lia|].
      rewrite <- Z.pow_add_r by lia.
      eapply Z.lt_le_trans; [exact Hd|].
      apply Z.pow_le_mono_r; [lia|].
      unfold e'. rewrite fexp64_eq. lia. }
  assert (Hm'2 : -1074 < e' -> 2 ^ 52 <= m').
  { intros Hgt.
    destruct (Z.eq_dec mx 0) as [->|Hnz].
    - exfalso. unfold e' in *. rewrite fexp64_eq in *. simpl Zdigits2 in *. lia.
    - pose proof (Zdigits2_bounds mx ltac:(lia)) as [Hd _].
      pose proof (Zdigits2_pos mx ltac:(lia)) as Hdp.
      assert (Ee : e' = Zdigits2 mx + ex - 53)
        by (unfold e' in *; rewrite fexp64_eq in *; lia).
      apply Z.div_le_lower_bound; [lia|].
      rewrite <- Z.pow_add_r by lia.
      replace (e' - ex + 52) with (Zdigits2 mx - 1) by lia. exact Hd. }
  split; [lia|]. split; [exact He'|]. split; [exact Hm'2|].
  unfold binary_round_aux, shr_fexp. fold e'.
  pose proof (shr_halved (shr_record_of_loc mx lx) ex (e' - ex)) as Hs.
  rewrite shr_m_of_loc in Hs. specialize (Hs Hmx Hk).
  destruct (shr (shr_record_of_loc mx lx) ex (e' - ex)) as [mrs1 e1].
  simpl fst in Hs; simpl snd in Hs. destruct Hs as [[Hh1 Hh2] He1].
  rewrite shr_m_of_loc in Hh1, Hh2.
  assert (Ee1 : e1 = e') by lia. clear He1. subst e1.
  fold m' in Hh1.
  pose proof (round_nearest_even_cases mrs1) as Hr. cbv zeta in Hr.
  set (m1 := round_nearest_even (shr_m mrs1) (loc_of_shr_record mrs1)) in *.
  rewrite Hh1 in Hr.
  exists m1. split.
  { destruct Hr as [Hr|[Hr Hi]]; [left; exact Hr|right].
    split; [exact Hr|]. intros [Hl Hd].
    rewrite Hh2 in Hi; [discriminate Hi| |exact Hd].
    apply inex_of_loc. exact Hl. }
  assert (Hm1 : 0 <= m1 <= 2 ^ 53) by (destruct Hr as [Hr|[Hr _]]; lia).
  unfold renorm.
  destruct (Z.eqb_spec m1 (2 ^ 53)) as [Emax|Nmax].
  - rewrite Emax.
    replace (fexp64 (Zdigits2 (2 ^ 53) + e') - e') with 1
      by (rewrite fexp64_eq; change (Zdigits2 (2 ^ 53)) with 54; lia).
    reflexivity.
  - assert (Hn : fexp64 (Zdigits2 m1 + e') - e' <= 0).
    { rewrite fexp64_eq.
      destruct (Z.eq_dec m1 0) as [->|Hnz]; [simpl; lia|].
      pose proof (Zdigits2_le m1 53 ltac:(lia) ltac:(lia) ltac:(lia)). lia. }
    rewrite shr_nonpos by exact Hn.
    rewrite shr_m_of_loc.
    unfold pack. destruct m1; reflexivity.
Qed.

(** *** Values in units of [2 ^ unitExp] *)

Lemma pow2_pos (k : Z) : 0 < 2 ^ k \/ k < 0.
Proof.
  destruct (Z_lt_le_dec k 0); [right; lia|left; apply Z.pow_pos_nonneg; lia].
Qed.

Lemma unit_pos (e : Z) : unitExp <= e -> 0 < 2 ^ (e - unitExp).
Proof. intros H. apply Z.pow_pos_nonneg; lia. Qed.

Lemma sc_shift (m e k : Z) : unitExp <= e -> 0 <= k -> sc (m * 2 ^ k) e = sc m (e + k).
Proof.
  intros He Hk. unfold sc.
  replace (e + k - unitExp) with (k + (e - unitExp)) by lia.
  rewrite Z.pow_add_r by lia. ring.
Qed.

Lemma sc_le (m n e : Z) : unitExp <= e -> m <= n -> sc m e <= sc n e.
Proof.
  intros He H. unfold sc. pose proof (unit_pos e He). nia.
Qed.

Lemma sc_lt (m n e : Z) : unitExp <= e -> m < n -> sc m e < sc n e.
Proof.
  intros He H. unfold sc. pose proof (unit_pos e He). nia.
Qed.

Lemma sc_exp_le (m e1 e2 : Z) : 0 <= m -> unitExp <= e1 -> e1 <= e2 -> sc m e1 <= sc m e2.
Proof.
  intros Hm H1 H2. unfold sc.
  apply Z.mul_le_mono_nonneg_l; [exact Hm|].
  apply Z.pow_le_mono_r; lia.
Qed.

Lemma sc_lt_inv (m n e : Z) : unitExp <= e -> sc m e < sc n e -> m < n.
Proof.
  intros He H. unfold sc in H. pose proof (unit_pos e He). nia.
Qed.

(** *** The grid of the format *)

(** A bounded mantissa and exponent are on the grid, and the exponent is
    at most 971. *)
Lemma bounded_grid (m : positive) (e : Z) :
  bounded 53 1024 m e = true <-> (grid (Zpos m) e /\ e <= 971).
Proof.
  unfold bounded, canonical_mantissa, grid.
  rewrite andb_true_iff, Z.eqb_eq, Z.leb_le, fexp64_eq.
  change (1024 - 53) with 971.
  pose proof (digits2_pos_bounds m) as [B1 B2].
  assert (Hd : 0 < Zpos (digits2_pos m)) by lia.
  split.
  - intros [Hc He]. split; [|exact He].
    split; [split; [lia|]|split; [lia|]].
    + eapply Z.lt_le_trans; [exact B2|]. apply Z.pow_le_mono_r; lia.
    + intros Hgt. replace 52 with (Zpos (digits2_pos m) - 1) by lia. exact B1.
  - intros [[[_ Hm] [He Hn]] Hle]. split; [|exact Hle].
    assert (Hd53 : Zpos (digits2_pos m) <= 53).
    { assert (2 ^ (Zpos (digits2_pos m) - 1) < 2 ^ 53) by lia.
      apply Z.pow_lt_mono_r_iff in H; lia. }
    destruct (Z.eq_dec e (-1074)) as [->|Hne]; [lia|].
    assert (H52 : 2 ^ 52 <= Zpos m) by (apply Hn; lia).
    assert (Hd52 : 52 < Zpos (digits2_pos m)).
    { assert (2 ^ 52 < 2 ^ Zpos (digits2_pos m)) by lia.
      apply Z.pow_lt_mono_r_iff in H; lia. }
    lia.
Qed.

(** Between two neighbours of the grid there is no number of the format. *)
Lemma grid_gap (m e mf ef : Z) :
  grid m e -> grid mf ef -> unitExp <= e -> unitExp <= ef ->
  sc m e < sc mf ef -> sc (m + 1) e <= sc mf ef.
Proof.
  intros [[Hm0 Hm1] [He Hn]] [[Hf0 Hf1] [Hef Hfn]] HE HEf Hlt.
  destruct (Z_le_gt_dec e ef) as [Hle|Hgt].
  - replace ef with (e + (ef - e)) in * by lia.
    rewrite <- sc_shift in * by lia.
    apply sc_le; [lia|]. apply sc_lt_inv in Hlt; lia.
  - exfalso.
    assert (H52 : 2 ^ 52 <= m) by (apply Hn; lia).
    assert (sc mf ef < sc (2 ^ 53) ef) by (apply sc_lt; lia).
    assert (sc (2 ^ 52) e <= sc m e) by (apply sc_le; lia).
    assert (sc (2 ^ 53) ef <= sc (2 ^ 52) e).
    { replace e with (ef + (e - ef)) by lia.
      rewrite <- sc_shift by lia. apply sc_le; [lia|].
      replace (2 ^ 53) with (2 ^ 52 * 2 ^ 1) by reflexivity.
      apply Z.mul_le_mono_nonneg_l; [lia|].
      apply Z.pow_le_mono_r; lia. }
    lia.
Qed.

(** The value of the renormalised result, when a number of the format
    bounds it from above. *)
Lemma renorm_value (sx : bool) (m1 e' h : Z) :
  0 <= m1 <= 2 ^ 53 -> -1074 <= e' -> (-1074 < e' -> 2 ^ 52 <= m1) ->
  OnGrid h -> sc m1 e' <= h ->
  finiteb (renorm sx m1 e') = true
  /\ scf (renorm sx m1 e') = cond_Zopp sx (sc m1 e').
Proof.
  intros Hm He Hn (mh & eh & [[Hh0 Hh1] [Heh _]] & Hle & ->) Hb.
  assert (Hh : sc mh eh < sc (2 ^ 53) 971).
  { eapply Z.lt_le_trans; [apply (sc_lt mh (2 ^ 53) eh); unfold unitExp; lia|].
    apply sc_exp_le; unfold unitExp; lia. }
  unfold renorm.
  destruct (Z.eqb_spec m1 (2 ^ 53)) as [->|Hne].
  - assert (He971 : e' + 1 <= 971).
    { destruct (Z_le_gt_dec (e' + 1) 971) as [|Hgt]; [assumption|exfalso].
      assert (sc (2 ^ 53) 971 <= sc (2 ^ 53) e'); [|lia].
      apply sc_exp_le; unfold unitExp; lia. }
    change (2 ^ 52) with (Zpos (Z.to_pos (2 ^ 52))). unfold pack.
    destruct (Z.leb_spec (e' + 1) 971); [|lia].
    split.
    + cbn [finiteb]. apply bounded_grid. split; [|lia].
      split; [split; [lia|reflexivity]|]. split; [lia|]. intros _. reflexivity.
    + cbn [scf].
      change (Zpos (Z.to_pos (2 ^ 52))) with (2 ^ 52).
      unfold sc.
      replace (e' + 1 - unitExp) with (Z.succ (e' - unitExp)) by lia.
      rewrite Z.pow_succ_r by (unfold unitExp; lia).
      change (2 ^ 53) with (2 * 2 ^ 52).
      destruct sx; cbn [cond_Zopp]; ring.
  - destruct m1 as [|p|p]; [| |lia].
    + split; [reflexivity|]. destruct sx; reflexivity.
    + assert (He971 : e' <= 971).
      { destruct (Z_le_gt_dec e' 971) as [|Hgt]; [assumption|exfalso].
        assert (H52 : 2 ^ 52 <= Zpos p) by (apply Hn; lia).
        assert (sc (2 ^ 53) 971 <= sc (Zpos p) e'); [|lia].
        eapply Z.le_trans; [|apply (sc_le (2 ^ 52) (Zpos p) e'); unfold unitExp; lia].
        change (2 ^ 53) with (2 ^ 52 * 2 ^ 1).
        rewrite sc_shift by (unfold unitExp; lia).
        apply sc_exp_le; unfold unitExp; lia. }
      unfold pack. destruct (Z.leb_spec e' 971); [|lia].
      split.
      * cbn [finiteb]. apply bounded_grid. split; [|lia].
        split; [lia|]. split; [lia|exact Hn].
      * cbn [scf]. destruct sx; cbn [cond_Zopp]; unfold sc; ring.
Qed.

(** Rounding is faithful: a number of the format that bounds the exact
    value bounds the rounded one. *)
Lemma binary_round_aux_bounds (sx : bool) (mx ex : Z) (lx : location) (lo hi : Z) :
  0 <= mx -> unitExp <= ex ->
  ex <= fexp64 (Zdigits2 mx + ex) ->
  OnGrid lo -> OnGrid hi ->
  LB mx ex lx lo -> UB mx ex lx hi ->
  exists a,
    finiteb (binary_round_aux 53 1024 sx mx ex lx) = true
    /\ scf (binary_round_aux 53 1024 sx mx ex lx) = cond_Zopp sx a
    /\ lo <= a <= hi.
Proof.
  intros Hmx HE Hex Hlo Hhi [Hl1 Hl2] [Hu1 Hu2].
  destruct (binary_round_aux_shape sx mx ex lx Hmx Hex)
    as (Hm' & He' & Hn & m1 & Hm1 & ->).
  set (e' := fexp64 (Zdigits2 mx + ex)) in *.
  set (k := e' - ex) in *.
  set (m' := mx / 2 ^ k) in *.
  assert (Hk : 0 <= k) by (unfold k; lia).
  assert (Pk : 0 < 2 ^ k) by (apply Z.pow_pos_nonneg; lia).
  assert (Hdiv : m' * 2 ^ k <= mx < (m' + 1) * 2 ^ k).
  { unfold m'. pose proof (Z.div_mod mx (2 ^ k) ltac:(lia)).
    pose proof (Z.mod_pos_bound mx (2 ^ k) Pk). nia. }
  assert (Ee : e' = ex + k) by (unfold k; lia).
  assert (HD : sc m' e' <= sc mx ex).
  { rewrite Ee, <- sc_shift by lia. apply sc_le; lia. }
  assert (HU : sc (mx + 1) ex <= sc (m' + 1) e').
  { rewrite Ee, <- sc_shift by lia. apply sc_le; lia. }
  assert (Gm' : grid m' e') by (split; [lia|split; assumption]).
  assert (HEe : unitExp <= e') by lia.
  assert (Hgap : forall z, OnGrid z -> sc m' e' < z -> sc (m' + 1) e' <= z).
  { intros z (mz & ez & Gz & Hz & ->) Hlt.
    apply grid_gap; try assumption. destruct Gz as [_ [? _]]. unfold unitExp. lia. }
  assert (Hbounds : lo <= sc m1 e' <= hi).
  { destruct Hm1 as [->|[-> Hinex]].
    - split; [|lia].
      destruct (Z_le_gt_dec lo (sc m' e')) as [|Hgt]; [assumption|exfalso].
      pose proof (Hgap lo Hlo ltac:(lia)). lia.
    - split; [lia|].
      apply Hgap; [exact Hhi|].
      destruct lx as [|c].
      + assert (Hnd : mx mod 2 ^ k <> 0) by (intros Hd; apply Hinex; auto).
        assert (m' * 2 ^ k < mx).
        { unfold m'. pose proof (Z.div_mod mx (2 ^ k) ltac:(lia)).
          pose proof (Z.mod_pos_bound mx (2 ^ k) Pk). nia. }
        assert (sc m' e' < sc mx ex); [|lia].
        rewrite Ee, <- sc_shift by lia. apply sc_lt; lia.
      + assert (sc mx ex < hi) by (apply Hu2; discriminate). lia. }
  assert (Hm1r : 0 <= m1 <= 2 ^ 53) by (destruct Hm1 as [->|[-> _]]; lia).
  assert (Hn1 : -1074 < e' -> 2 ^ 52 <= m1)
    by (intros Hgt; specialize (Hn Hgt); destruct Hm1 as [->|[-> _]]; lia).
  destruct (renorm_value sx m1 e' hi Hm1r He' Hn1 Hhi ltac:(lia)) as [Hf Hv].
  exists (sc m1 e'). split; [exact Hf|]. split; [exact Hv|exact Hbounds].
Qed.

(** An exact value that needs no shift is returned as it is. *)
Lemma binary_round_aux_exact (sx : bool) (mx ex : Z) (h : Z) :
  0 <= mx -> unitExp <= ex ->
  ex = fexp64 (Zdigits2 mx + ex) ->
  OnGrid h -> sc mx ex <= h ->
  finiteb (binary_round_aux 53 1024 sx mx ex loc_Exact) = true
  /\ scf (binary_round_aux 53 1024 sx mx ex loc_Exact) = cond_Zopp sx (sc mx ex).
Proof.
  intros Hmx HE Hex Hh Hle.
  destruct (binary_round_aux_shape sx mx ex loc_Exact Hmx ltac:(lia))
    as (Hm' & He' & Hn & m1 & Hm1 & ->).
  rewrite <- Hex in *. rewrite Z.sub_diag, Z.pow_0_r, Z.div_1_r in *.
  assert (m1 = mx).
  { destruct Hm1 as [->|[_ Hc]]; [reflexivity|exfalso].
    apply Hc. split; [reflexivity|apply Z.mod_1_r]. }
  subst m1.
  apply renorm_value with (h := h); try assumption; lia.
Qed.

(** *** Signed values *)

Lemma OnGrid_0 : OnGrid 0.
Proof.
  exists 0, (-1074). split; [|split; [lia|reflexivity]].
  split; [split; [lia|reflexivity]|]. split; lia.
Qed.

Lemma OnGrid_nonneg (z : Z) : OnGrid z -> 0 <= z.
Proof.
  intros (m & e & [[H0 _] [He _]] & _ & ->).
  unfold sc. pose proof (unit_pos e ltac:(unfold unitExp; lia)). nia.
Qed.

Lemma SOn_nonneg (z : Z) : SOn z -> 0 <= z -> OnGrid z.
Proof. unfold SOn. intros H Hz. rewrite Z.abs_eq in H; assumption. Qed.

Lemma SOn_nonpos (z : Z) : SOn z -> z <= 0 -> OnGrid (- z).
Proof. unfold SOn. intros H Hz. rewrite Z.abs_neq in H; assumption. Qed.

Lemma sc_opp (s : bool) (m e : Z) : sc (cond_Zopp s m) e = cond_Zopp s (sc m e).
Proof. destruct s; unfold sc; cbn [cond_Zopp]; ring. Qed.

Lemma sc_pos (m e : Z) : unitExp <= e -> 0 < m -> 0 < sc m e.
Proof. intros He Hm. unfold sc. pose proof (unit_pos e He). nia. Qed.

(** The value of a finite number is a number of the format. *)
Lemma finite_SOn (x : spec_float) : finiteb x = true -> SOn (scf x).
Proof.
  destruct x as [s|s| |s m e]; cbn [finiteb scf]; try discriminate;
    try (intros _; apply OnGrid_0).
  intros H. apply bounded_grid in H. destruct H as [unitOne He].
  unfold SOn. rewrite sc_opp.
  assert (Hp : 0 < sc (Zpos m) e).
  { apply sc_pos; [destruct unitOne as [_ [? _]]; unfold unitExp; lia|lia]. }
  replace (Z.abs (cond_Zopp s (sc (Zpos m) e))) with (sc (Zpos m) e)
    by (destruct s; cbn [cond_Zopp]; lia).
  exists (Zpos m), e. auto.
Qed.

Lemma finite_exp (s : bool) (m : positive) (e : Z) :
  finiteb (S754_finite s m e) = true ->
  -1074 <= e <= 971 /\ e = fexp64 (Zpos (digits2_pos m) + e).
Proof.
  cbn [finiteb]. unfold bounded, canonical_mantissa.
  rewrite andb_true_iff, Z.eqb_eq, Z.leb_le, fexp64_eq.
  change (1024 - 53) with 971. lia.
Qed.

(** Rounding a signed value whose magnitude is bounded on both sides. *)
Lemma round_signed (sx : bool) (mx ex : Z) (lx : location) (lo hi : Z) :
  0 <= mx -> unitExp <= ex ->
  ex <= fexp64 (Zdigits2 mx + ex) ->
  SOn lo -> SOn hi ->
  (if sx
   then UB mx ex lx (- lo) /\ (0 <= hi \/ LB mx ex lx (- hi))
   else UB mx ex lx hi /\ (lo <= 0 \/ LB mx ex lx lo)) ->
  finiteb (binary_round_aux 53 1024 sx mx ex lx) = true
  /\ lo <= scf (binary_round_aux 53 1024 sx mx ex lx) <= hi.
Proof.
  intros Hmx HE Hex Hlo Hhi H.
  assert (Hv : 0 <= sc mx ex) by (unfold sc; pose proof (unit_pos ex HE); nia).
  assert (Hv1 : 0 < sc (mx + 1) ex) by (apply sc_pos; lia).
  assert (L0 : LB mx ex lx 0) by (split; [intros _; exact Hv|exact Hv1]).
  destruct sx.
  - destruct H as [[Hu1 Hu2] Hl].
    assert (Gh : OnGrid (- lo)) by (apply SOn_nonpos; [exact Hlo|lia]).
    destruct (Z_le_gt_dec 0 hi) as [Hp|Hn].
    + destruct (binary_round_aux_bounds true mx ex lx 0 (- lo) Hmx HE Hex
                  OnGrid_0 Gh L0 (conj Hu1 Hu2)) as (a & Hf & Hs & Ha).
      split; [exact Hf|]. rewrite Hs. cbn [cond_Zopp]. lia.
    + destruct Hl as [Hl|Hl]; [lia|].
      assert (Gl : OnGrid (- hi)) by (apply SOn_nonpos; [exact Hhi|lia]).
      destruct (binary_round_aux_bounds true mx ex lx (- hi) (- lo) Hmx HE Hex
                  Gl Gh Hl (conj Hu1 Hu2)) as (a & Hf & Hs & Ha).
      split; [exact Hf|]. rewrite Hs. cbn [cond_Zopp]. lia.
  - destruct H as [[Hu1 Hu2] Hl].
    assert (Gh : OnGrid hi) by (apply SOn_nonneg; [exact Hhi|lia]).
    destruct (Z_le_gt_dec lo 0) as [Hp|Hn].
    + destruct (binary_round_aux_bounds false mx ex lx 0 hi Hmx HE Hex
                  OnGrid_0 Gh L0 (conj Hu1 Hu2)) as (a & Hf & Hs & Ha).
      split; [exact Hf|]. rewrite Hs. cbn [cond_Zopp]. lia.
    + destruct Hl as [Hl|Hl]; [lia|].
      assert (Gl : OnGrid lo) by (apply SOn_nonneg; [exact Hlo|lia]).
      destruct (binary_round_aux_bounds false mx ex lx lo hi Hmx HE Hex
                  Gl Gh Hl (conj Hu1 Hu2)) as (a & Hf & Hs & Ha).
      split; [exact Hf|]. rewrite Hs. cbn [cond_Zopp]. lia.
Qed.

(** The same for an exact value. *)
Lemma round_signed_exact (sx : bool) (mx ex : Z) (lo hi : Z) :
  0 <= mx -> unitExp <= ex ->
  ex <= fexp64 (Zdigits2 mx + ex) ->
  SOn lo -> SOn hi ->
  lo <= cond_Zopp sx (sc mx ex) <= hi ->
  finiteb (binary_round_aux 53 1024 sx mx ex loc_Exact) = true
  /\ lo <= scf (binary_round_aux 53 1024 sx mx ex loc_Exact) <= hi.
Proof.
  intros Hmx HE Hex Hlo Hhi H.
  assert (Hv1 : sc mx ex < sc (mx + 1) ex) by (apply sc_lt; lia).
  apply round_signed; try assumption.
  destruct sx; cbn [cond_Zopp] in H.
  - split; [split; [lia|intros C; contradiction C; reflexivity]|].
    destruct (Z_le_gt_dec 0 hi); [left; assumption|right].
    split; [intros _; lia|lia].
  - split; [split; [lia|intros C; contradiction C; reflexivity]|].
    destruct (Z_le_gt_dec lo 0); [left; assumption|right].
    split; [intros _; lia|lia].
Qed.

(** *** Alignment *)

(** [shl_align] moves a mantissa to a smaller exponent without changing
    the value. *)
Lemma iter_xO_value (m d : positive) :
  Zpos (Pos.iter xO m d) = Zpos m * 2 ^ Zpos d.
Proof.
  induction d as [|d IH] using Pos.peano_ind.
  - simpl. lia.
  - rewrite Pos.iter_succ, Pos2Z.inj_xO, IH, Pos2Z.inj_succ, Z.pow_succ_r by lia.
    ring.
Qed.

Lemma iter_xO_digits (m d : positive) :
  Zpos (digits2_pos (Pos.iter xO m d)) = Zpos (digits2_pos m) + Zpos d.
Proof.
  induction d as [|d IH] using Pos.peano_ind.
  - simpl. lia.
  - rewrite Pos.iter_succ. simpl digits2_pos. rewrite Pos2Z.inj_succ, IH. lia.
Qed.

Lemma shl_align_spec (mx : positive) (ex ex' : Z) :
  unitExp <= ex -> unitExp <= ex' ->
  let '(mz, ez) := shl_align mx ex ex' in
  ez = Z.min ex ex'
  /\ sc (Zpos mz) ez = sc (Zpos mx) ex
  /\ Zpos (digits2_pos mz) + ez = Zpos (digits2_pos mx) + ex.
Proof.
  intros HE HE'. unfold shl_align.
  destruct (ex' - ex) as [|d|d] eqn:Hd.
  - split; [lia|]. split; reflexivity.
  - split; [lia|]. split; reflexivity.
  - split; [lia|]. split.
    + rewrite iter_xO_value, sc_shift by lia. f_equal. lia.
    + rewrite iter_xO_digits. lia.
Qed.

(** *** [binary_normalize] *)

(** Normalising a mantissa and an exponent is faithful. *)
Lemma binary_round_bounds (sx : bool) (mx : positive) (ex : Z) (lo hi : Z) :
  unitExp <= ex -> SOn lo -> SOn hi ->
  lo <= cond_Zopp sx (sc (Zpos mx) ex) <= hi ->
  finiteb (binary_round 53 1024 sx mx ex) = true
  /\ lo <= scf (binary_round 53 1024 sx mx ex) <= hi.
Proof.
  intros HE Hlo Hhi H. unfold binary_round.
  set (ex' := fexp64 (Zpos (digits2_pos mx) + ex)).
  assert (HE' : unitExp <= ex') by (unfold ex'; rewrite fexp64_eq; unfold unitExp; lia).
  pose proof (shl_align_spec mx ex ex' HE HE') as Hs.
  destruct (shl_align mx ex ex') as [mz ez].
  destruct Hs as (Hez & Hv & Hd).
  apply round_signed_exact; try assumption; try lia.
  - cbn [Zdigits2]. rewrite Hd. fold ex'. lia.
  - rewrite Hv. exact H.
Qed.

Lemma binary_normalize_bounds (m e : Z) (sz : bool) (lo hi : Z) :
  unitExp <= e -> SOn lo -> SOn hi ->
  lo <= sc m e <= hi ->
  finiteb (binary_normalize 53 1024 m e sz) = true
  /\ lo <= scf (binary_normalize 53 1024 m e sz) <= hi.
Proof.
  intros HE Hlo Hhi H. destruct m as [|p|p]; cbn [binary_normalize].
  - split; [reflexivity|]. cbn [scf]. unfold sc in H. lia.
  - apply binary_round_bounds; assumption.
  - apply binary_round_bounds; try assumption.
    cbn [cond_Zopp]. unfold sc in *. lia.
Qed.

(** A mantissa below [2 ^ 53] in magnitude, at an exponent of the format,
    is a number of the format. *)
Lemma binary_normalize_exact (m e : Z) (sz : bool) :
  Z.abs m < 2 ^ 53 -> -1074 <= e <= 970 ->
  finiteb (binary_normalize 53 1024 m e sz) = true
  /\ scf (binary_normalize 53 1024 m e sz) = sc m e.
Proof.
  intros Hm He.
  assert (K : forall (s : bool) (p : positive), Zpos p < 2 ^ 53 ->
            finiteb (binary_round 53 1024 s p e) = true
            /\ scf (binary_round 53 1024 s p e) = cond_Zopp s (sc (Zpos p) e)).
  { intros s p Hp. unfold binary_round.
    pose proof (digits2_pos_bounds p) as [B1 B2].
    assert (Hd : Zpos (digits2_pos p) <= 53).
    { assert (2 ^ (Zpos (digits2_pos p) - 1) < 2 ^ 53) by lia.
      apply Z.pow_lt_mono_r_iff in H; lia. }
    set (ex' := fexp64 (Zpos (digits2_pos p) + e)).
    assert (Hex' : -1074 <= ex' <= e) by (unfold ex'; rewrite fexp64_eq; lia).
    pose proof (shl_align_spec p e ex' ltac:(unfold unitExp; lia) ltac:(unfold unitExp; lia)) as Hs.
    destruct (shl_align p e ex') as [mz ez].
    destruct Hs as (Hez & Hv & Hdz).
    assert (Ez : ez = ex') by lia. clear Hez. subst ez.
    rewrite <- Hv.
    apply binary_round_aux_exact with (h := sc (2 ^ 52) (e + 1)); try lia.
    - unfold unitExp; lia.
    - cbn [Zdigits2]. rewrite Hdz. reflexivity.
    - exists (2 ^ 52), (e + 1). split; [|split; [lia|reflexivity]].
      split; [split; [lia|reflexivity]|]. split; [lia|]. intros _; lia.
    - rewrite Hv. rewrite <- sc_shift by (unfold unitExp; lia).
      apply sc_le; [unfold unitExp; lia|]. change (2 ^ 52 * 2 ^ 1) with (2 ^ 53). lia. }
  destruct m as [|p|p]; cbn [binary_normalize].
  - split; reflexivity.
  - apply (K false p). lia.
  - destruct (K true p ltac:(lia)) as [Hf Hv]. split; [exact Hf|].
    rewrite Hv. cbn [cond_Zopp]. unfold sc. lia.
Qed.

Lemma SOn_sc (m e : Z) : Z.abs m < 2 ^ 53 -> -1074 <= e <= 970 -> SOn (sc m e).
Proof.
  intros Hm He.
  destruct (binary_normalize_exact m e false Hm He) as [Hf Hv].
  rewrite <- Hv. apply finite_SOn, Hf.
Qed.

(** ** The four operations *)

Lemma unitOne_pos : 0 < unitOne.
Proof. reflexivity. Qed.

Lemma finite_zero_scf (x : spec_float) (s : bool) : scf (S754_zero s) = 0.
Proof. reflexivity. Qed.

Lemma aligned_value (m : positive) (e ez : Z) :
  unitExp <= ez -> ez <= e ->
  sc (Zpos (fst (shl_align m e ez))) ez = sc (Zpos m) e.
Proof.
  intros HE Hle.
  pose proof (shl_align_spec m e ez ltac:(lia) HE) as Hs.
  destruct (shl_align m e ez) as [mz ez']. cbn [fst].
  destruct Hs as (Hez & Hv & _).
  replace ez' with ez in Hv by lia. exact Hv.
Qed.

Lemma sc_add (a b e : Z) : sc (a + b) e = sc a e + sc b e.
Proof. unfold sc. ring. Qed.

Lemma sc_sub (a b e : Z) : sc (a - b) e = sc a e - sc b e.
Proof. unfold sc. ring. Qed.

(** Addition: the sum of two finite numbers is finite and lies between
    any two numbers of the format that bound the exact sum. *)
Theorem add_bounds (x y : spec_float) (lo hi : Z) :
  finiteb x = true -> finiteb y = true -> SOn lo -> SOn hi ->
  lo <= scf x + scf y <= hi ->
  finiteb (SFadd 53 1024 x y) = true
  /\ lo <= scf (SFadd 53 1024 x y) <= hi.
Proof.
  intros Hx Hy Hlo Hhi H.
  destruct x as [sx|sx| |sx mx ex]; try discriminate Hx;
    destruct y as [sy|sy| |sy my ey]; try discriminate Hy.
  - cbn [SFadd]. destruct sx, sy; cbn [scf finiteb] in *; split; auto; lia.
  - cbn [SFadd]. split; [exact Hy|]. cbn [scf] in *. lia.
  - cbn [SFadd]. split; [exact Hx|]. cbn [scf] in *. lia.
  - cbn [SFadd].
    destruct (finite_exp _ _ _ Hx) as [Hex _].
    destruct (finite_exp _ _ _ Hy) as [Hey _].
    apply binary_normalize_bounds; try assumption; [unfold unitExp; lia|].
    rewrite sc_add, !sc_opp, !aligned_value by (unfold unitExp; lia).
    cbn [scf] in H. rewrite !sc_opp in H. exact H.
Qed.

(** Subtraction, likewise. *)
Theorem sub_bounds (x y : spec_float) (lo hi : Z) :
  finiteb x = true -> finiteb y = true -> SOn lo -> SOn hi ->
  lo <= scf x - scf y <= hi ->
  finiteb (SFsub 53 1024 x y) = true
  /\ lo <= scf (SFsub 53 1024 x y) <= hi.
Proof.
  intros Hx Hy Hlo Hhi H.
  destruct x as [sx|sx| |sx mx ex]; try discriminate Hx;
    destruct y as [sy|sy| |sy my ey]; try discriminate Hy.
  - cbn [SFsub]. destruct sx, sy; cbn [scf finiteb] in *; split; auto; lia.
  - cbn [SFsub]. split; [exact Hy|]. cbn [scf] in *.
    rewrite sc_opp in *. destruct sy; cbn [negb cond_Zopp] in *; lia.
  - cbn [SFsub]. split; [exact Hx|]. cbn [scf] in *. lia.
  - cbn [SFsub].
    destruct (finite_exp _ _ _ Hx) as [Hex _].
    destruct (finite_exp _ _ _ Hy) as [Hey _].
    apply binary_normalize_bounds; try assumption; [unfold unitExp; lia|].
    rewrite sc_sub, !sc_opp, !aligned_value by (unfold unitExp; lia).
    cbn [scf] in H. rewrite !sc_opp in H. exact H.
Qed.

Lemma digits_mul (a b : positive) :
  Zpos (digits2_pos a) + Zpos (digits2_pos b) - 1 <= Zpos (digits2_pos (a * b)).
Proof.
  pose proof (digits2_pos_bounds a) as [A1 A2].
  pose proof (digits2_pos_bounds b) as [B1 B2].
  pose proof (digits2_pos_bounds (a * b)) as [C1 C2].
  assert (H : 2 ^ (Zpos (digits2_pos a) - 1 + (Zpos (digits2_pos b) - 1))
              < 2 ^ Zpos (digits2_pos (a * b))).
  { rewrite Z.pow_add_r by lia. rewrite Pos2Z.inj_mul in C2.
    assert (0 < 2 ^ (Zpos (digits2_pos a) - 1)) by (apply Z.pow_pos_nonneg; lia).
    assert (0 < 2 ^ (Zpos (digits2_pos b) - 1)) by (apply Z.pow_pos_nonneg; lia).
    nia. }
  apply Z.pow_lt_mono_r_iff in H; lia.
Qed.

Lemma canonical_facts (s : bool) (m : positive) (e : Z) :
  finiteb (S754_finite s m e) = true ->
  -1074 <= e <= 971
  /\ Zpos (digits2_pos m) <= 53
  /\ (-1074 < e -> Zpos (digits2_pos m) = 53).
Proof.
  intros H. destruct (finite_exp _ _ _ H) as [He Hc].
  rewrite fexp64_eq in Hc. lia.
Qed.

(** Multiplication: the exact product of two values in units of
    [2 ^ unitExp] is in units of its square, hence the factor [unitOne]. *)
Theorem mul_bounds (x y : spec_float) (lo hi : Z) :
  finiteb x = true -> finiteb y = true -> SOn lo -> SOn hi ->
  lo * unitOne <= scf x * scf y <= hi * unitOne ->
  finiteb (SFmul 53 1024 x y) = true
  /\ lo <= scf (SFmul 53 1024 x y) <= hi.
Proof.
  intros Hx Hy Hlo Hhi H. pose proof unitOne_pos as HG.
  destruct x as [sx|sx| |sx mx ex]; try discriminate Hx;
    destruct y as [sy|sy| |sy my ey]; try discriminate Hy;
    cbn [SFmul].
  - cbn [scf finiteb] in *. split; [reflexivity|]. nia.
  - cbn [scf finiteb] in *. split; [reflexivity|]. nia.
  - cbn [scf finiteb] in *. split; [reflexivity|]. nia.
  - destruct (canonical_facts _ _ _ Hx) as (Hex & Hdx & Hnx).
    destruct (canonical_facts _ _ _ Hy) as (Hey & Hdy & Hny).
    pose proof (digits_mul mx my) as Hd.
    apply round_signed_exact; try assumption; try lia.
    + unfold unitExp. lia.
    + cbn [Zdigits2]. rewrite fexp64_eq. lia.
    + assert (Hv : scf (S754_finite sx mx ex) * scf (S754_finite sy my ey)
                   = sc (cond_Zopp (xorb sx sy) (Zpos (mx * my))) (ex + ey) * unitOne).
      { cbn [scf]. unfold sc, unitOne.
        rewrite Pos2Z.inj_mul.
        replace (ex + ey - unitExp) with ((ex - unitExp) + (ey - unitExp) - (- unitExp)) by lia.
        assert (P1 : 2 ^ (ex - unitExp) * 2 ^ (ey - unitExp)
                     = 2 ^ (ex - unitExp + (ey - unitExp) - - unitExp) * 2 ^ (- unitExp)).
        { rewrite <- !Z.pow_add_r by (unfold unitExp; lia). f_equal. lia. }
        set (A := 2 ^ (ex - unitExp)) in *. set (B := 2 ^ (ey - unitExp)) in *.
        set (C := 2 ^ (ex - unitExp + (ey - unitExp) - - unitExp)) in *. set (D := 2 ^ (- unitExp)) in *.
        assert (P2 : forall a b, a * A * (b * B) = a * b * C * D)
          by (intros a b; replace (a * A * (b * B)) with (a * b * (A * B)) by ring;
              rewrite P1; ring).
        rewrite P2.
        destruct sx, sy; cbn [xorb cond_Zopp]; ring. }
      rewrite sc_opp in Hv. rewrite Hv in H. nia.
Qed.

Lemma new_location_exact (n r : Z) : new_location n r = loc_Exact <-> r = 0.
Proof.
  unfold new_location, new_location_even, new_location_odd.
  destruct (Z.even n); destruct (Z.eqb_spec r 0) as [->|Hr];
    split; intros H; try reflexivity; try discriminate H; try contradiction.
Qed.

Lemma Zdigits2_ge (q d : Z) : 0 <= q -> (0 <= d -> 2 ^ d <= q) -> d < Zdigits2 q.
Proof.
  intros Hq H.
  destruct (Z_lt_le_dec d 0) as [Hd|Hd].
  - destruct q; simpl; lia.
  - specialize (H Hd).
    assert (Hq0 : 0 < q) by (pose proof (Z.pow_pos_nonneg 2 d); lia).
    pose proof (Zdigits2_bounds q Hq0) as [_ B].
    assert (K : 2 ^ d < 2 ^ Zdigits2 q) by lia.
    pose proof (Zdigits2_pos q Hq0).
    apply Z.pow_lt_mono_r_iff in K; lia.
Qed.

(** Division by a positive number. *)
Theorem div_bounds (x y : spec_float) (lo hi : Z) :
  finiteb x = true -> finiteb y = true -> 0 < scf y -> SOn lo -> SOn hi ->
  lo * scf y <= scf x * unitOne <= hi * scf y ->
  finiteb (SFdiv 53 1024 x y) = true
  /\ lo <= scf (SFdiv 53 1024 x y) <= hi.
Proof.
  intros Hx Hy Hpos Hlo Hhi H. pose proof unitOne_pos as HG.
  destruct y as [sy|sy| |sy my ey]; try discriminate Hy;
    [cbn [scf] in Hpos; lia|].
  assert (Hsy : sy = false).
  { destruct sy; [|reflexivity]. cbn [scf] in Hpos. rewrite sc_opp in Hpos.
    destruct (canonical_facts _ _ _ Hy) as (Hey & _).
    pose proof (sc_pos (Zpos my) ey ltac:(unfold unitExp; lia) ltac:(lia)).
    cbn [cond_Zopp] in Hpos. lia. }
  subst sy.
  destruct x as [sx|sx| |sx mx ex]; try discriminate Hx; cbn [SFdiv].
  - cbn [scf finiteb] in *. split; [reflexivity|]. nia.
  - destruct (canonical_facts _ _ _ Hx) as (Hex & Hdx & Hnx).
    destruct (canonical_facts _ _ _ Hy) as (Hey & Hdy & Hny).
    unfold SFdiv_core_binary.
    set (d1 := Zdigits2 (Zpos mx)). set (d2 := Zdigits2 (Zpos my)).
    set (e' := Z.min (fexp64 (d1 + ex - (d2 + ey))) (ex - ey)).
    set (s := ex - ey - e').
    assert (Hs : 0 <= s) by (unfold s, e'; lia).
    set (m' := match s with
               | 0 => Zpos mx
               | Zpos _ => Z.shiftl (Zpos mx) s
               | Zneg _ => 0
               end).
    assert (Hm' : m' = Zpos mx * 2 ^ s).
    { unfold m'. destruct s as [|p|p]; [simpl; lia| |lia].
      apply Z.shiftl_mul_pow2. lia. }
    clearbody m'.
    pose proof (Z_div_mod m' (Zpos my) ltac:(lia)) as Hdm.
    destruct (Z.div_eucl m' (Zpos my)) as [q r]. destruct Hdm as [Hq Hr].
    assert (Ps : 0 < 2 ^ s) by (apply Z.pow_pos_nonneg; lia).
    assert (Hq0 : 0 <= q) by nia.
    assert (He'lo : -2045 <= e') by (unfold e'; rewrite fexp64_eq; lia).
    assert (HE : unitExp <= e') by (unfold unitExp; lia).
    pose proof (unit_pos e' HE) as Pu.
    cbn [xorb]. rewrite xorb_false_r.
    (* the exponent of the quotient *)
    assert (Hpre : e' <= fexp64 (Zdigits2 q + e')).
    { pose proof (Zdigits2_bounds (Zpos mx) ltac:(lia)) as [A1 _].
      pose proof (Zdigits2_bounds (Zpos my) ltac:(lia)) as [_ B2].
      fold d1 in A1. fold d2 in B2.
      assert (D1 : 0 < d1) by (unfold d1; simpl; lia).
      assert (D2 : 0 < d2) by (unfold d2; simpl; lia).
      assert (Hdq : d1 + s - d2 - 1 < Zdigits2 q).
      { apply Zdigits2_ge; [exact Hq0|]. intros Hd.
        assert (K : 2 ^ (d1 + s - d2 - 1) * 2 ^ d2 <= m').
        { rewrite <- Z.pow_add_r by lia. rewrite Hm'.
          replace (d1 + s - d2 - 1 + d2) with (d1 - 1 + s) by lia.
          rewrite Z.pow_add_r by lia. nia. }
        assert (P : 0 < 2 ^ (d1 + s - d2 - 1)) by (apply Z.pow_pos_nonneg; lia).
        nia. }
      assert (Hmono : fexp64 (d1 + ex - (d2 + ey)) <= fexp64 (Zdigits2 q + e'))
        by (rewrite !fexp64_eq; unfold s in *; lia).
      unfold e' at 1. lia. }
    (* the value of the quotient *)
    set (t := ex - ey - unitExp).
    assert (Ht : 0 <= t) by (unfold t, unitExp; lia).
    set (c := 2 ^ (ey - unitExp)).
    assert (Pc : 0 < c) by (apply Z.pow_pos_nonneg; unfold unitExp; lia).
    assert (Vx : scf (S754_finite sx mx ex) * unitOne
                 = cond_Zopp sx (m' * 2 ^ (e' - unitExp)) * c).
    { cbn [scf]. rewrite sc_opp. unfold sc, unitOne, c. rewrite Hm'.
      assert (P1 : 2 ^ (ex - unitExp) * 2 ^ (- unitExp) = 2 ^ s * 2 ^ (e' - unitExp) * 2 ^ (ey - unitExp)).
      { rewrite <- !Z.pow_add_r by (unfold unitExp in *; lia). f_equal. unfold s. lia. }
      destruct sx; cbn [cond_Zopp]; nia. }
    assert (Vy : scf (S754_finite false my ey) = Zpos my * c)
      by (cbn [scf cond_Zopp]; reflexivity).
    rewrite Vx, Vy in H.
    assert (H' : lo * Zpos my <= cond_Zopp sx (m' * 2 ^ (e' - unitExp)) <= hi * Zpos my)
      by nia.
    rewrite Hq in H'. clear H Vx Vy.
    set (u := 2 ^ (e' - unitExp)) in *.
    assert (Hloc : new_location (Zpos my) r = loc_Exact <-> r = 0)
      by apply new_location_exact.
    apply round_signed; try assumption.
    unfold UB, LB, sc. fold u.
    destruct sx; cbn [cond_Zopp] in H'.
    + split.
      * split; [nia|]. intros Hne.
        assert (r <> 0) by (intros C; apply Hne, Hloc, C). nia.
      * destruct (Z_le_gt_dec 0 hi); [left; assumption|right].
        split; [intros Hex'; apply Hloc in Hex'; nia|nia].
    + split.
      * split; [nia|]. intros Hne.
        assert (r <> 0) by (intros C; apply Hne, Hloc, C). nia.
      * destruct (Z_le_gt_dec lo 0); [left; assumption|right].
        split; [intros Hex'; apply Hloc in Hex'; nia|nia].
Qed.

(** ** Comparison *)

Lemma grid_exp_lt (m1 e1 m2 e2 : Z) :
  grid m1 e1 -> grid m2 e2 -> 0 < m2 -> e1 < e2 -> sc m1 e1 < sc m2 e2.
Proof.
  intros [[A0 A1] [Ae An]] [[B0 B1] [Be Bn]] Hm2 Hlt.
  assert (H52 : 2 ^ 52 <= m2) by (apply Bn; lia).
  assert (K1 : sc m1 e1 < sc (2 ^ 52 * 2 ^ 1) e1) by (apply sc_lt; [unfold unitExp|]; lia).
  rewrite sc_shift in K1 by (unfold unitExp; lia).
  assert (K2 : sc (2 ^ 52) (e1 + 1) <= sc (2 ^ 52) e2)
    by (apply sc_exp_le; unfold unitExp; lia).
  assert (K3 : sc (2 ^ 52) e2 <= sc m2 e2) by (apply sc_le; [unfold unitExp|]; lia).
  lia.
Qed.

Lemma compare_magnitudes (m1 m2 : positive) (e1 e2 : Z) :
  grid (Zpos m1) e1 -> grid (Zpos m2) e2 ->
  match e1 ?= e2 with
  | Lt => Lt
  | Gt => Gt
  | Eq => Pos.compare_cont Eq m1 m2
  end = (sc (Zpos m1) e1 ?= sc (Zpos m2) e2).
Proof.
  intros G1 G2. symmetry.
  destruct (Z.compare_spec e1 e2) as [->|Hlt|Hgt].
  - change (Pos.compare_cont Eq m1 m2) with (Zpos m1 ?= Zpos m2).
    assert (HE : unitExp <= e2) by (destruct G2 as [_ [? _]]; unfold unitExp; lia).
    destruct (Z.compare_spec (Zpos m1) (Zpos m2)) as [->|H|H].
    + apply Z.compare_refl.
    + apply Z.compare_lt_iff, sc_lt; assumption.
    + apply Z.compare_gt_iff, sc_lt; assumption.
  - apply Z.compare_lt_iff, grid_exp_lt; try assumption; lia.
  - apply Z.compare_gt_iff, grid_exp_lt; try assumption; lia.
Qed.

(** Finite numbers compare as their values do. *)
Lemma SFcompare_scf (x y : spec_float) :
  finiteb x = true -> finiteb y = true ->
  SFcompare x y = Some (scf x ?= scf y).
Proof.
  intros Hx Hy.
  destruct x as [sx|sx| |sx mx ex]; try discriminate Hx;
    destruct y as [sy|sy| |sy my ey]; try discriminate Hy;
    cbn [SFcompare scf].
  - reflexivity.
  - apply bounded_grid in Hy. destruct Hy as [Gy _].
    pose proof (sc_pos (Zpos my) ey
                  ltac:(destruct Gy as [_ [? _]]; unfold unitExp; lia) ltac:(lia)).
    rewrite sc_opp. f_equal. symmetry.
    destruct sy; cbn [cond_Zopp];
      [apply Z.compare_gt_iff|apply Z.compare_lt_iff]; lia.
  - apply bounded_grid in Hx. destruct Hx as [Gx _].
    pose proof (sc_pos (Zpos mx) ex
                  ltac:(destruct Gx as [_ [? _]]; unfold unitExp; lia) ltac:(lia)).
    rewrite sc_opp. f_equal. symmetry.
    destruct sx; cbn [cond_Zopp];
      [apply Z.compare_lt_iff|apply Z.compare_gt_iff]; lia.
  - apply bounded_grid in Hx, Hy. destruct Hx as [Gx _], Hy as [Gy _].
    pose proof (sc_pos (Zpos mx) ex
                  ltac:(destruct Gx as [_ [? _]]; unfold unitExp; lia) ltac:(lia)).
    pose proof (sc_pos (Zpos my) ey
                  ltac:(destruct Gy as [_ [? _]]; unfold unitExp; lia) ltac:(lia)).
    rewrite !sc_opp. f_equal.
    destruct sx, sy; cbn [cond_Zopp].
    + rewrite Z.compare_opp.
      rewrite (Z.compare_antisym (sc (Zpos mx) ex) (sc (Zpos my) ey)).
      rewrite <- (compare_magnitudes mx my ex ey Gx Gy).
      destruct (ex ?= ey); reflexivity.
    + symmetry. apply Z.compare_lt_iff. lia.
    + symmetry. apply Z.compare_gt_iff. lia.
    + apply compare_magnitudes; assumption.
Qed.

Lemma leb_scf (x y : number) :
  finiteb x = true -> finiteb y = true ->
  (leb x y = true <-> scf x <= scf y).
Proof.
  intros Hx Hy. unfold leb, SFleb. rewrite (SFcompare_scf x y Hx Hy).
  destruct (Z.compare_spec (scf x) (scf y)); split; intros K;
    try reflexivity; try lia; discriminate K.
Qed.

(** ** Integers *)

(** An integer below [2 ^ 53] in magnitude is a number, exactly. *)
Lemma ofZ_exact (n : Z) :
  Z.abs n < 2 ^ 53 -> finiteb (ofZ n) = true /\ scf (ofZ n) = n * unitOne.
Proof.
  intros H. destruct (binary_normalize_exact n 0 false H ltac:(lia)) as [Hf Hv].
  split; [exact Hf|]. unfold ofZ. fold prec emax. 
  change (binary_normalize prec emax n 0 false)
    with (binary_normalize 53 1024 n 0 false).
  rewrite Hv. reflexivity.
Qed.

Lemma SOn_int (n : Z) : Z.abs n < 2 ^ 53 -> SOn (n * unitOne).
Proof.
  intros H. destruct (ofZ_exact n H) as [Hf Hv].
  rewrite <- Hv. apply finite_SOn, Hf.
Qed.

(** ** [Math.round] *)

(** [Math.round] of a non-negative number below [k + 1/2] is a
    non-negative number, [k] at most. *)
Lemma Math_round_bounds (x : number) (k : Z) :
  finiteb x = true -> 0 <= k < 2 ^ 53 ->
  0 <= scf x -> 2 * scf x < (2 * k + 1) * unitOne ->
  finiteb (Math_round x) = true
  /\ 0 <= scf (Math_round x) <= k * unitOne.
Proof.
  intros Hx Hk H0 H1. pose proof unitOne_pos as HG.
  destruct x as [s|s| |s m e]; try discriminate Hx.
  - cbn [Math_round scf]. split; [reflexivity|]. nia.
  - destruct (canonical_facts _ _ _ Hx) as (He & _).
    assert (Hp : 0 < sc (Zpos m) e) by (apply sc_pos; [unfold unitExp|]; lia).
    assert (Hs : s = false).
    { destruct s; [|reflexivity]. cbn [scf] in H0. rewrite sc_opp in H0.
      cbn [cond_Zopp] in H0. lia. }
    subst s. cbn [Math_round cond_Zopp].
    destruct (Z.leb_spec 0 e) as [Hpos|Hneg].
    + split; [exact Hx|]. split; [exact H0|].
      cbn [scf cond_Zopp] in *. unfold sc in *.
      assert (Hpow : 2 ^ (e - unitExp) = 2 ^ e * unitOne).
      { unfold unitOne. rewrite <- Z.pow_add_r by (unfold unitExp; lia). f_equal; lia. }
      rewrite Hpow in *.
      assert (0 < 2 ^ e) by (apply Z.pow_pos_nonneg; lia).
      assert (Zpos m * 2 ^ e <= k) by nia. nia.
    + set (d := 2 ^ (- e)).
      assert (Pd : 0 < d) by (apply Z.pow_pos_nonneg; lia).
      assert (Hpow : unitOne = 2 ^ (e - unitExp) * d).
      { unfold unitOne, d. rewrite <- Z.pow_add_r by (unfold unitExp; lia). f_equal; lia. }
      cbn [scf cond_Zopp] in H0, H1. unfold sc in H0, H1.
      pose proof (unit_pos e ltac:(unfold unitExp; lia)) as Pu.
      assert (Hm : 2 * Zpos m < (2 * k + 1) * d) by (rewrite Hpow in H1; nia).
      set (n := (2 * Zpos m + d) / (2 * d)).
      assert (Hn : 0 <= n <= k).
      { split; [apply Z.div_pos; lia|].
        assert (n < k + 1); [|lia].
        apply Z.div_lt_upper_bound; lia. }
      destruct (Z.eqb_spec n 0) as [Hz|Hnz].
      * split; [reflexivity|]. cbn [scf]. nia.
      * destruct (ofZ_exact n ltac:(lia)) as [Hf Hv].
        split; [exact Hf|]. rewrite Hv. nia.
Qed.

(** ** Bounds on sums and products of non-negative numbers *)

Lemma add_nonneg (x y : number) (hx hy h : Z) :
  finiteb x = true -> finiteb y = true ->
  0 <= scf x <= hx -> 0 <= scf y <= hy ->
  SOn h -> hx + hy <= h ->
  finiteb (add x y) = true /\ 0 <= scf (add x y) <= h.
Proof.
  intros Hx Hy Bx By Hh Hle.
  apply add_bounds; try assumption; [apply OnGrid_0|lia].
Qed.

Lemma mul_nonneg (x y : number) (hx hy h : Z) :
  finiteb x = true -> finiteb y = true ->
  0 <= scf x <= hx -> 0 <= scf y <= hy ->
  SOn h -> hx * hy <= h * unitOne ->
  finiteb (mul x y) = true /\ 0 <= scf (mul x y) <= h.
Proof.
  intros Hx Hy Bx By Hh Hle.
  apply mul_bounds; try assumption; [apply OnGrid_0|nia].
Qed.

(** ** Ranges *)

(** The numbers [j + i * 2 ^ -40], for small [j] and [i], are numbers of
    the format: they serve as bounds of the weighted sums. *)
Lemma SOn_mix (j i : Z) :
  0 <= j < 2 ^ 12 -> 0 <= i < 2 ^ 40 -> SOn (j * unitOne + i * eps).
Proof.
  intros Hj Hi.
  replace (j * unitOne + i * eps) with (sc (j * 2 ^ 40 + i) (-40)).
  - apply SOn_sc; [|lia].
    assert (0 <= j * 2 ^ 40 + i < 2 ^ 53); [|lia].
    change (2 ^ 53) with (2 ^ 13 * 2 ^ 40). nia.
  - unfold sc, eps, sc, unitOne.
    change (2 ^ (- unitExp)) with (2 ^ 40 * 2 ^ (-40 - unitExp)). ring.
Qed.

Lemma ofNat_exact (n : nat) :
  Z.of_nat n < 2 ^ 53 ->
  finiteb (ofNat n) = true /\ scf (ofNat n) = Z.of_nat n * unitOne.
Proof. intros H. apply ofZ_exact. lia. Qed.

(** A count divided by a total it does not exceed is between 0 and 1, and
    the score rounded from it is between 0 and 100. *)
Lemma rate_unit (k n : nat) :
  (k <= n)%nat -> (0 < n)%nat -> Z.of_nat n < 2 ^ 53 ->
  Unit (div (ofNat k) (ofNat n)).
Proof.
  intros Hk Hn Hb. pose proof unitOne_pos as HG.
  destruct (ofNat_exact k ltac:(lia)) as [Fk Vk].
  destruct (ofNat_exact n Hb) as [Fn Vn].
  apply div_bounds;
    [exact Fk|exact Fn|rewrite Vn; nia|apply OnGrid_0| |rewrite Vk, Vn; nia].
  replace unitOne with (1 * unitOne) by ring. apply SOn_int. reflexivity.
Qed.

Lemma SOn_100 : SOn (100 * unitOne).
Proof. apply SOn_int. reflexivity. Qed.

Lemma ofZ_100 : finiteb (ofZ 100) = true /\ scf (ofZ 100) = 100 * unitOne.
Proof. apply ofZ_exact. reflexivity. Qed.

Lemma pct_of_unit (r : number) : Unit r -> Pct (mul r (ofZ 100)).
Proof.
  intros [Fr Br]. destruct ofZ_100 as [F100 V100]. pose proof unitOne_pos.
  apply (mul_nonneg r (ofZ 100) unitOne (100 * unitOne) (100 * unitOne));
    [exact Fr|exact F100|exact Br|lia|apply SOn_100|nia].
Qed.

Lemma round_pct (x : number) :
  finiteb x = true -> 0 <= scf x -> 2 * scf x < 201 * unitOne -> Pct (Math_round x).
Proof.
  intros Fx B0 B1.
  apply (Math_round_bounds x 100); try assumption; lia.
Qed.

Lemma rate_score (k n : nat) :
  (k <= n)%nat -> (0 < n)%nat -> Z.of_nat n < 2 ^ 53 ->
  Pct (Math_round (mul (div (ofNat k) (ofNat n)) (ofZ 100))).
Proof.
  intros Hk Hn Hb. pose proof unitOne_pos.
  destruct (pct_of_unit _ (rate_unit k n Hk Hn Hb)) as [F B].
  apply round_pct; [exact F|lia|lia].
Qed.

(** ** Sums *)

(** A sum of [n] numbers between [-c] and 1, accumulated from the left, is
    between [-c * n] and [n]: every partial sum is bounded by integers,
    which are numbers of the format. *)
Lemma fold_add_bounds (f : Analysis -> number) (c : Z) (b : list Analysis) :
  0 <= c <= 1 ->
  Forall (fun a => finiteb (f a) = true /\ - c * unitOne <= scf (f a) <= unitOne) b ->
  forall (acc : number) (i : Z),
    0 <= i -> finiteb acc = true -> - c * i * unitOne <= scf acc <= i * unitOne ->
    i + Z.of_nat (List.length b) < 2 ^ 53 ->
    let r := fold_left (fun sum a => add sum (f a)) b acc in
    let n := i + Z.of_nat (List.length b) in
    finiteb r = true /\ - c * n * unitOne <= scf r <= n * unitOne.
Proof.
  intros Hc Hall. pose proof unitOne_pos as HG.
  induction Hall as [|a b [Fa Ba] _ IH]; intros acc i Hi Facc Bacc Hn.
  - cbn [fold_left List.length]. rewrite Z.add_0_r. split; assumption.
  - cbn [fold_left]. cbn [List.length] in *.
    rewrite Nat2Z.inj_succ in *.
    replace (i + Z.succ (Z.of_nat (List.length b)))
      with ((i + 1) + Z.of_nat (List.length b)) by lia.
    assert (Hstep : finiteb (add acc (f a)) = true
                    /\ - c * (i + 1) * unitOne <= scf (add acc (f a)) <= (i + 1) * unitOne).
    { replace (- c * (i + 1) * unitOne) with ((- c * (i + 1)) * unitOne) by ring.
      apply add_bounds;
        [exact Facc|exact Fa|apply SOn_int; nia|apply SOn_int; lia|nia]. }
    destruct Hstep as [Fs Bs].
    apply IH; try assumption; lia.
Qed.

Lemma sumOf_bounds (f : Analysis -> number) (c : Z) (b : list Analysis) :
  0 <= c <= 1 ->
  Forall (fun a => finiteb (f a) = true /\ - c * unitOne <= scf (f a) <= unitOne) b ->
  Z.of_nat (List.length b) < 2 ^ 53 ->
  finiteb (sumOf f b) = true
  /\ - c * Z.of_nat (List.length b) * unitOne <= scf (sumOf f b)
     <= Z.of_nat (List.length b) * unitOne.
Proof.
  intros Hc Hall Hn. unfold sumOf.
  pose proof (fold_add_bounds f c b Hc Hall (ofZ 0) 0 ltac:(lia)
                ltac:(reflexivity)) as K.
  cbv zeta in K. rewrite !Z.add_0_l in K. apply K; [|exact Hn].
  cbn [scf ofZ binary_normalize]. lia.
Qed.

(** ** Weights *)

(** The weights of the formulas, as binary64 numbers, are at most the
    decimal fractions they stand for, up to [2 ^ -40]. *)
Lemma weighted (x c : number) (h : Z) :
  Pct x -> weight_ok c h = true -> SOn h ->
  finiteb (mul x c) = true /\ 0 <= scf (mul x c) <= h.
Proof.
  intros [Fx Bx] Hw Hh. pose proof unitOne_pos as HG.
  unfold weight_ok in Hw. rewrite !andb_true_iff, !Z.leb_le in Hw.
  destruct Hw as [[Fc B0] B1].
  apply (mul_nonneg x c (100 * unitOne) (scf c) h);
    [exact Fx|exact Fc|exact Bx|lia|exact Hh|nia].
Qed.

Lemma weights_ok :
  weight_ok (dec 35 100) (35 * unitOne) = true
  /\ weight_ok (dec 30 100) (30 * unitOne) = true
  /\ weight_ok (dec 25 100) (25 * unitOne) = true
  /\ weight_ok (dec 20 100) (20 * unitOne + eps) = true
  /\ weight_ok (dec 15 100) (15 * unitOne) = true
  /\ weight_ok (dec 10 100) (10 * unitOne + eps) = true.
Proof. repeat split; vm_compute; reflexivity. Qed.

(** ** The scores of a non-empty batch *)

Lemma count_le {A : Type} (p : A -> bool) (l : list A) :
  (count p l <= List.length l)%nat.
Proof.
  unfold count. induction l as [|x l IH]; simpl; [lia|].
  destruct (p x); simpl; lia.
Qed.

(** The sentiment score: the average of numbers between -1 and 1 is
    between -1 and 1, and is mapped into 0..100. *)
Lemma average_sentiment (b : list Analysis) :
  (0 < List.length b)%nat -> Z.of_nat (List.length b) < 2 ^ 53 ->
  Forall scoresInRange b ->
  Pct (Math_round
         (mul (div (add (div (sumOf sentimentScore b) (ofNat (List.length b))) (ofZ 1))
                   (ofZ 2))
              (ofZ 100))).
Proof.
  intros Hn Hb Hall. pose proof unitOne_pos as HG.
  destruct (ofNat_exact _ Hb) as [FN VN].
  destruct (ofZ_exact 1 ltac:(reflexivity)) as [F1 V1].
  destruct (ofZ_exact 2 ltac:(reflexivity)) as [F2 V2].
  destruct (sumOf_bounds sentimentScore 1 b ltac:(lia)) as [FS BS];
    [|exact Hb|].
  { eapply Forall_impl; [|exact Hall]. intros a [[Fa Ba] _].
    split; [exact Fa|lia]. }
  assert (Havg : finiteb (div (sumOf sentimentScore b) (ofNat (List.length b))) = true
                 /\ (-1) * unitOne <= scf (div (sumOf sentimentScore b) (ofNat (List.length b)))
                    <= 1 * unitOne).
  { apply div_bounds;
      [exact FS|exact FN|rewrite VN; nia| | |rewrite VN; nia];
      apply SOn_int; reflexivity. }
  destruct Havg as [Fa Ba].
  set (avg := div (sumOf sentimentScore b) (ofNat (List.length b))) in *.
  assert (Hp : finiteb (add avg (ofZ 1)) = true
               /\ 0 <= scf (add avg (ofZ 1)) <= 2 * unitOne).
  { apply add_bounds;
      [exact Fa|exact F1|apply OnGrid_0|apply SOn_int; reflexivity|rewrite V1; lia]. }
  destruct Hp as [Fp Bp].
  assert (Hh : Unit (div (add avg (ofZ 1)) (ofZ 2))).
  { apply div_bounds;
      [exact Fp|exact F2|rewrite V2; lia|apply OnGrid_0| |rewrite V2; nia].
    replace unitOne with (1 * unitOne) by ring. apply SOn_int. reflexivity. }
  destruct (pct_of_unit _ Hh) as [F B].
  apply round_pct; [exact F|lia|lia].
Qed.

(** The confidence score. *)
Lemma average_confidence (b : list Analysis) :
  (0 < List.length b)%nat -> Z.of_nat (List.length b) < 2 ^ 53 ->
  Forall scoresInRange b ->
  Pct (Math_round
         (mul (div (sumOf confidenceScore b) (ofNat (List.length b))) (ofZ 100))).
Proof.
  intros Hn Hb Hall. pose proof unitOne_pos as HG.
  destruct (ofNat_exact _ Hb) as [FN VN].
  destruct (sumOf_bounds confidenceScore 0 b ltac:(lia)) as [FS BS];
    [|exact Hb|].
  { eapply Forall_impl; [|exact Hall]. intros a [_ [Fa Ba]].
    split; [exact Fa|lia]. }
  assert (Havg : Unit (div (sumOf confidenceScore b) (ofNat (List.length b)))).
  { apply div_bounds;
      [exact FS|exact FN|rewrite VN; nia|apply OnGrid_0| |rewrite VN; nia].
    replace unitOne with (1 * unitOne) by ring. apply SOn_int. reflexivity. }
  destruct (pct_of_unit _ Havg) as [F B].
  apply round_pct; [exact F|lia|lia].
Qed.

(** The trust score: the weights add up to 1, so the weighted sum stays
    below 100.5 and rounds to 100 at most. *)
Lemma trust_pct (sentiment recommendation hedgingRate nonNegativeRate : number) :
  Pct sentiment -> Pct recommendation -> Unit hedgingRate -> Unit nonNegativeRate ->
  Pct (Math_round
         (add (add (add (mul sentiment (dec 35 100))
                        (mul (sub (ofZ 100) (mul hedgingRate (ofZ 100))) (dec 30 100)))
                   (mul recommendation (dec 25 100)))
              (mul (mul nonNegativeRate (ofZ 100)) (dec 10 100)))).
Proof.
  intros Hs Hr Hh Hn. pose proof unitOne_pos as HG.
  destruct weights_ok as (W35 & W30 & W25 & W20 & W15 & W10).
  destruct ofZ_100 as [F100 V100].
  assert (Peps : 0 <= eps /\ 16 * eps < unitOne) by (split; vm_compute; [discriminate|reflexivity]).
  destruct (weighted _ _ _ Hs W35 (SOn_int 35 ltac:(reflexivity))) as [F1 B1].
  destruct (pct_of_unit _ Hh) as [Fh Bh].
  assert (Hd : Pct (sub (ofZ 100) (mul hedgingRate (ofZ 100)))).
  { apply sub_bounds;
      [exact F100|exact Fh|apply OnGrid_0|apply SOn_100|rewrite V100; lia]. }
  destruct (weighted _ _ _ Hd W30 (SOn_int 30 ltac:(reflexivity))) as [F2 B2].
  destruct (weighted _ _ _ Hr W25 (SOn_int 25 ltac:(reflexivity))) as [F3 B3].
  destruct (weighted _ _ _ (pct_of_unit _ Hn) W10
              (SOn_mix 10 1 ltac:(lia) ltac:(lia))) as [F4 B4].
  destruct (add_nonneg _ _ _ _ (65 * unitOne) F1 F2 B1 B2
              (SOn_int 65 ltac:(reflexivity)) ltac:(lia)) as [F12 B12].
  destruct (add_nonneg _ _ _ _ (90 * unitOne) F12 F3 B12 B3
              (SOn_int 90 ltac:(reflexivity)) ltac:(lia)) as [F123 B123].
  destruct (add_nonneg _ _ _ _ (100 * unitOne + 1 * eps) F123 F4 B123 B4
              (SOn_mix 100 1 ltac:(lia) ltac:(lia)) ltac:(lia)) as [F B].
  apply round_pct; [exact F|lia|lia].
Qed.

(** The overall score, likewise. *)
Lemma overall_pct (trust visibility recommendation citation sentiment confidence : number) :
  Pct trust -> Pct visibility -> Pct recommendation -> Pct citation ->
  Pct sentiment -> Pct confidence ->
  Pct (Math_round
         (add (add (add (add (add (mul trust (dec 25 100))
                                  (mul visibility (dec 20 100)))
                             (mul recommendation (dec 20 100)))
                        (mul citation (dec 10 100)))
                   (mul sentiment (dec 15 100)))
              (mul confidence (dec 10 100)))).
Proof.
  intros Ht Hv Hr Hc Hs Hf. pose proof unitOne_pos as HG.
  destruct weights_ok as (W35 & W30 & W25 & W20 & W15 & W10).
  assert (Peps : 0 <= eps /\ 16 * eps < unitOne) by (split; vm_compute; [discriminate|reflexivity]).
  destruct (weighted _ _ _ Ht W25 (SOn_int 25 ltac:(reflexivity))) as [F1 B1].
  destruct (weighted _ _ _ Hv W20 (SOn_mix 20 1 ltac:(lia) ltac:(lia))) as [F2 B2].
  destruct (weighted _ _ _ Hr W20 (SOn_mix 20 1 ltac:(lia) ltac:(lia))) as [F3 B3].
  destruct (weighted _ _ _ Hc W10 (SOn_mix 10 1 ltac:(lia) ltac:(lia))) as [F4 B4].
  destruct (weighted _ _ _ Hs W15 (SOn_int 15 ltac:(reflexivity))) as [F5 B5].
  destruct (weighted _ _ _ Hf W10 (SOn_mix 10 1 ltac:(lia) ltac:(lia))) as [F6 B6].
  destruct (add_nonneg _ _ _ _ (45 * unitOne + 1 * eps) F1 F2 B1 B2
              (SOn_mix 45 1 ltac:(lia) ltac:(lia)) ltac:(lia)) as [G2 C2].
  destruct (add_nonneg _ _ _ _ (65 * unitOne + 2 * eps) G2 F3 C2 B3
              (SOn_mix 65 2 ltac:(lia) ltac:(lia)) ltac:(lia)) as [G3 C3].
  destruct (add_nonneg _ _ _ _ (75 * unitOne + 3 * eps) G3 F4 C3 B4
              (SOn_mix 75 3 ltac:(lia) ltac:(lia)) ltac:(lia)) as [G4 C4].
  destruct (add_nonneg _ _ _ _ (90 * unitOne + 3 * eps) G4 F5 C4 B5
              (SOn_mix 90 3 ltac:(lia) ltac:(lia)) ltac:(lia)) as [G5 C5].
  destruct (add_nonneg _ _ _ _ (100 * unitOne + 4 * eps) G5 F6 C5 B6
              (SOn_mix 100 4 ltac:(lia) ltac:(lia)) ltac:(lia)) as [F B].
  apply round_pct; [exact F|lia|lia].
Qed.

Lemma Pct_int (k : Z) : 0 <= k <= 100 -> Pct (ofZ k).
Proof.
  intros Hk. destruct (ofZ_exact k) as [F V].
  - assert (Z.abs k < 2 ^ 7) by lia. 
    eapply Z.lt_trans; [eassumption|reflexivity].
  - pose proof unitOne_pos. split; [exact F|]. rewrite V. nia.
Qed.

(** Every score of a batch of analyses in range is between 0 and 100. *)
Lemma calculateScores_allPct (b : list Analysis) :
  Z.of_nat (List.length b) < 2 ^ 53 -> Forall scoresInRange b ->
  allPct (calculateScores b).
Proof.
  intros Hb Hall. unfold allPct, calculateScores.
  destruct b as [|a l].
  - cbn [List.length Nat.eqb overall_score ai_trust_score ai_visibility_score
         ai_recommendation_score ai_citation_score sentiment_score
         confidence_score].
    repeat split; try (apply Pct_int; lia).
  - set (b := a :: l) in *.
    assert (Hn : (0 < List.length b)%nat) by (unfold b; simpl; lia).
    replace (List.length b =? 0)%nat with false
      by (symmetry; apply Nat.eqb_neq; lia).
    cbn [overall_score ai_trust_score ai_visibility_score
         ai_recommendation_score ai_citation_score sentiment_score
         confidence_score].
    pose proof (rate_score (count mentioned b) _ (count_le _ b) Hn Hb) as Pv.
    pose proof (rate_score (count isRecommended b) _ (count_le _ b) Hn Hb) as Pr.
    pose proof (rate_score (count (fun a => truthy (citedUrl a)) b) _
                  (count_le _ b) Hn Hb) as Pc.
    pose proof (average_sentiment b Hn Hb Hall) as Ps.
    pose proof (average_confidence b Hn Hb Hall) as Pf.
    pose proof (rate_unit (count hasHedging b) _ (count_le _ b) Hn Hb) as Uh.
    pose proof (rate_unit
                  (count (fun a => negb (MentionType_eqb (mentionType a) NEGATIVE)) b)
                  _ (count_le _ b) Hn Hb) as Un.
    pose proof (trust_pct _ _ _ _ Ps Pr Uh Un) as Pt.
    pose proof (overall_pct _ _ _ _ _ _ Pt Pv Pr Pc Ps Pf) as Po.
    repeat split; first [apply Po|apply Pt|apply Pv|apply Pr|apply Pc|apply Ps|apply Pf].
Qed.

Lemma between_of_bounds (lo hi : Z) (x : number) :
  Z.abs lo < 2 ^ 53 -> Z.abs hi < 2 ^ 53 ->
  finiteb x = true -> lo * unitOne <= scf x <= hi * unitOne ->
  between lo hi x.
Proof.
  intros Hlo Hhi Fx Bx.
  destruct (ofZ_exact lo Hlo) as [Fl Vl].
  destruct (ofZ_exact hi Hhi) as [Fh Vh].
  split; apply leb_scf; try assumption; lia.
Qed.

Lemma Pct_between (x : number) : Pct x -> between 0 100 x.
Proof.
  intros [F B]. apply between_of_bounds; [reflexivity|reflexivity|assumption|lia].
Qed.

(** ** The scores of one response *)

Lemma forall_below (P : nat -> bool) (n : nat) :
  forallb P (seq 0 n) = true -> forall k, (k < n)%nat -> P k = true.
Proof.
  intros H k Hk. rewrite forallb_forall in H. apply H, in_seq. lia.
Qed.

(** The counts are bounded by the sizes of the lexicons, and the scores
    are in range for each pair of counts within these sizes. *)
Lemma sentimentOf_range (p n : nat) :
  (p <= 13)%nat -> (n <= 10)%nat ->
  finiteb (sentimentOf p n) = true /\ - unitOne <= scf (sentimentOf p n) <= unitOne.
Proof.
  intros Hp Hn.
  assert (H : sentimentInRange p n = true).
  { apply (forall_below (fun n => sentimentInRange p n) 11); [|lia].
    apply (forall_below
             (fun p => forallb (fun n => sentimentInRange p n) (seq 0 11)) 14);
      [|lia].
    vm_compute. reflexivity. }
  unfold sentimentInRange in H. rewrite !andb_true_iff, !Z.leb_le in H. tauto.
Qed.

Lemma confidenceOf_range (p h : nat) :
  (p <= 13)%nat -> (h <= 15)%nat ->
  finiteb (confidenceOf p h) = true /\ 0 <= scf (confidenceOf p h) <= unitOne.
Proof.
  intros Hp Hh.
  assert (H : confidenceInRange p h = true).
  { apply (forall_below (fun h => confidenceInRange p h) 16); [|lia].
    apply (forall_below
             (fun p => forallb (fun h => confidenceInRange p h) (seq 0 16)) 14);
      [|lia].
    vm_compute. reflexivity. }
  unfold confidenceInRange in H. rewrite !andb_true_iff, !Z.leb_le in H. tauto.
Qed.

Lemma hits_length (lexicon : list jsstring) (lowerText : jsstring) :
  (List.length (hits lexicon lowerText) <= List.length lexicon)%nat.
Proof.
  unfold hits. induction lexicon as [|w l IH]; simpl; [lia|].
  destruct (includes lowerText w); simpl; lia.
Qed.

(** Every analysis the analyzer returns is in range. *)
Lemma analyzeResponse_inRange (responseText businessName : jsstring)
    (competitors : list jsstring) (a : Analysis) :
  analyzeResponse responseText businessName competitors = Some a -> scoresInRange a.
Proof.
  intros Ha.
  destruct (analyzeResponse_fields responseText businessName competitors)
    as (a' & Ha' & _ & _ & _ & Hs & _ & Hc & _).
  rewrite Ha in Ha'. injection Ha' as <-.
  pose proof (hits_length POSITIVE_INDICATORS (toLowerCase responseText)) as Lp.
  pose proof (hits_length NEGATIVE_INDICATORS (toLowerCase responseText)) as Ln.
  pose proof (hits_length HEDGING_WORDS (toLowerCase responseText)) as Lh.
  change (List.length POSITIVE_INDICATORS) with 13%nat in Lp.
  change (List.length NEGATIVE_INDICATORS) with 10%nat in Ln.
  change (List.length HEDGING_WORDS) with 15%nat in Lh.
  split.
  - rewrite Hs. apply sentimentOf_range; assumption.
  - rewrite Hc. apply confidenceOf_range; assumption.
Qed.

Lemma analyzeAll_inRange (responses : list jsstring) (businessName : jsstring)
    (competitors : list jsstring) :
  Forall scoresInRange (analyzeAll responses businessName competitors).
Proof.
  unfold analyzeAll.
  induction responses as [|r rs IH]; cbn [flat_map]; [constructor|].
  apply Forall_app. split; [|exact IH].
  destruct (analyzeResponse r businessName competitors) as [a|] eqn:Ha;
    [|constructor].
  constructor; [|constructor].
  eapply analyzeResponse_inRange, Ha.
Qed.

Lemma analyzeAll_length (responses : list jsstring) (businessName : jsstring)
    (competitors : list jsstring) :
  (List.length (analyzeAll responses businessName competitors)
   <= List.length responses)%nat.
Proof.
  unfold analyzeAll.
  induction responses as [|r rs IH]; cbn [flat_map List.length]; [lia|].
  rewrite length_app.
  destruct (analyzeResponse r businessName competitors); cbn [List.length]; lia.
Qed.

Lemma inRange_between (a : Analysis) :
  scoresInRange a ->
  between (-1) 1 (sentimentScore a) /\ between 0 1 (confidenceScore a).
Proof.
  intros [[Fs Bs] [Fc Bc]].
  split; (apply between_of_bounds; [reflexivity|reflexivity|assumption|lia]).
Qed.

(** C9.  For every business name and competitor list: every response text
    has an analysis, whose [sentimentScore] is between -1 and 1 and whose
    [confidenceScore] is between 0 and 1; and for every batch of
    responses, the empty one included, every score the aggregator returns
    for their analyses (visibility, sentiment, confidence, recommendation,
    citation, trust and overall) is between 0 and 100.  The batch is an
    array, of fewer than [2 ^ 32] elements. *)
Theorem score_bounds (responses : list jsstring) (businessName : jsstring)
    (competitors : list jsstring) :
  Z.of_nat (List.length responses) < 2 ^ 32 ->
  let batch := analyzeAll responses businessName competitors in
  let s := calculateScores batch in
  (forall responseText : jsstring,
      exists a,
        analyzeResponse responseText businessName competitors = Some a
        /\ between (-1) 1 (sentimentScore a)
        /\ between 0 1 (confidenceScore a))
  /\ Forall (fun a => between (-1) 1 (sentimentScore a)
                      /\ between 0 1 (confidenceScore a)) batch
  /\ between 0 100 (ai_visibility_score s)
  /\ between 0 100 (sentiment_score s)
  /\ between 0 100 (confidence_score s)
  /\ between 0 100 (ai_recommendation_score s)
  /\ between 0 100 (ai_citation_score s)
  /\ between 0 100 (ai_trust_score s)
  /\ between 0 100 (overall_score s).
Proof.
  intros Hlen batch s.
  pose proof (analyzeAll_inRange responses businessName competitors) as Hall.
  pose proof (analyzeAll_length responses businessName competitors) as Hle.
  fold batch in Hall, Hle.
  assert (Hb : Z.of_nat (List.length batch) < 2 ^ 53).
  { apply Z.le_lt_trans with (Z.of_nat (List.length responses)); [lia|].
    eapply Z.lt_trans; [exact Hlen|reflexivity]. }
  destruct (calculateScores_allPct batch Hb Hall)
    as (Po & Pt & Pv & Pr & Pc & Ps & Pf).
  fold s in Po, Pt, Pv, Pr, Pc, Ps, Pf.
  split.
  { intros responseText.
    destruct (analyzeResponse_fields responseText businessName competitors)
      as (a & Ha & _).
    exists a. split; [exact Ha|].
    apply inRange_between. eapply analyzeResponse_inRange, Ha. }
  split.
  { eapply Forall_impl; [|exact Hall]. intros a. apply inRange_between. }
  repeat split; apply Pct_between; assumption.
Qed.

Lemma score_bounds_witness :
  let responses := [plainResponse; praiseResponse; hedgedResponse] in
  let s := calculateScores (analyzeAll responses acme []) in
  Z.of_nat (List.length responses) < 2 ^ 32
  /\ between 0 100 (ai_trust_score s)
  /\ between 0 100 (overall_score s).
Proof.
  assert (H : Z.of_nat (List.length [plainResponse; praiseResponse; hedgedResponse])
              < 2 ^ 32) by reflexivity.
  split; [exact H|].
  pose proof (score_bounds _ acme [] H) as K.
  cbv zeta in K.
  split; [exact (proj1 (proj2 (proj2 (proj2 (proj2 (proj2 (proj2 (proj2 K))))))))
         |exact (proj2 (proj2 (proj2 (proj2 (proj2 (proj2 (proj2 (proj2 K))))))))].
Defined.

Local Close Scope Z_scope.

(** * Properties of the rest of the scan *)

(** ** The sentiment category and the mention type *)

Lemma analyzeResponse_lists (responseText businessName : jsstring)
    (competitors : list jsstring) :
  exists a,
    analyzeResponse responseText businessName competitors = Some a
    /\ hedgingPhrases a = hits HEDGING_WORDS (toLowerCase responseText)
    /\ competitorsMentioned a =
         filter (fun c => includes (toLowerCase responseText) (toLowerCase c)) competitors
    /\ citedSources a = matchUrls responseText
    /\ citedUrl a =
         find (fun url => includes (toLowerCase url)
                            (stripSpaces (toLowerCase businessName)))
           (matchUrls responseText).
Proof.
  unfold analyzeResponse.
  rewrite newRegExp_escapeRegExp.
  eexists. split; [reflexivity|].
  repeat split; reflexivity.
Qed.

Lemma sentimentCategory_counts (p n : nat) :
  (p <= 13)%nat -> (n <= 10)%nat ->
  sentimentCategory n (sentimentOf p n) = sentimentByCounts p n.
Proof.
  intros Hp Hn.
  assert (H : SentimentType_eqb (sentimentCategory n (sentimentOf p n))
                (sentimentByCounts p n) = true).
  { apply (forall_below
             (fun n => SentimentType_eqb (sentimentCategory n (sentimentOf p n))
                         (sentimentByCounts p n)) 11); [|lia].
    apply (forall_below
             (fun p => forallb
                         (fun n => SentimentType_eqb
                                     (sentimentCategory n (sentimentOf p n))
                                     (sentimentByCounts p n)) (seq 0 11)) 14);
      [|lia].
    vm_compute. reflexivity. }
  destruct (sentimentCategory n (sentimentOf p n)), (sentimentByCounts p n);
    try reflexivity; discriminate H.
Qed.

Lemma lexicon_counts (lowerText : jsstring) :
  (List.length (hits POSITIVE_INDICATORS lowerText) <= 13)%nat
  /\ (List.length (hits NEGATIVE_INDICATORS lowerText) <= 10)%nat
  /\ (List.length (hits HEDGING_WORDS lowerText) <= 15)%nat
  /\ (List.length (hits RECOMMENDATION_PHRASES lowerText) <= 8)%nat.
Proof.
  repeat split.
  - apply (hits_length POSITIVE_INDICATORS).
  - apply (hits_length NEGATIVE_INDICATORS).
  - apply (hits_length HEDGING_WORDS).
  - apply (hits_length RECOMMENDATION_PHRASES).
Qed.

(** X1.  The sentiment category of every response is decided by the two
    hit counts alone: NEGATIVE with two negative hits or more; otherwise
    POSITIVE when there are more positive hits than negative ones;
    otherwise CAUTIOUS with one negative hit and NEUTRAL with no hit at
    all.  The threshold 0.3 of the source changes nothing, and the
    categories VERY_POSITIVE and VERY_NEGATIVE are never returned. *)
Theorem sentiment_by_counts (responseText businessName : jsstring)
    (competitors : list jsstring) :
  exists a,
    analyzeResponse responseText businessName competitors = Some a
    /\ let positiveCount :=
         List.length (hits POSITIVE_INDICATORS (toLowerCase responseText)) in
       let negativeCount :=
         List.length (hits NEGATIVE_INDICATORS (toLowerCase responseText)) in
       sentiment a = sentimentByCounts positiveCount negativeCount
       /\ (sentiment a = SENT_NEGATIVE <-> (2 <= negativeCount)%nat)
       /\ (sentiment a = POSITIVE
           <-> (negativeCount < 2)%nat /\ (negativeCount < positiveCount)%nat)
       /\ (sentiment a = CAUTIOUS <-> negativeCount = 1%nat /\ (positiveCount <= 1)%nat)
       /\ (sentiment a = NEUTRAL <-> negativeCount = 0%nat /\ positiveCount = 0%nat)
       /\ sentiment a <> VERY_POSITIVE
       /\ sentiment a <> VERY_NEGATIVE.
Proof.
  destruct (analyzeResponse_fields responseText businessName competitors)
    as (a & Ha & _ & _ & _ & Hs & Hc & _).
  destruct (lexicon_counts (toLowerCase responseText)) as (Lp & Ln & _).
  exists a. split; [exact Ha|]. cbv zeta.
  rewrite Hc, Hs, (sentimentCategory_counts _ _ Lp Ln).
  split; [reflexivity|].
  unfold sentimentByCounts.
  set (p := List.length (hits POSITIVE_INDICATORS (toLowerCase responseText))).
  set (n := List.length (hits NEGATIVE_INDICATORS (toLowerCase responseText))).
  destruct (Nat.leb_spec 2 n); [|destruct (Nat.ltb_spec n p);
                                  [|destruct (Nat.ltb_spec 0 n)]];
    repeat split; intros; try discriminate; try reflexivity; try lia.
Qed.

(** X2.  In every analysis: the mention type is NEGATIVE exactly when the
    business is mentioned and the sentiment is NEGATIVE; [isRecommended]
    is true exactly when the recommendation strength is not NONE and the
    sentiment is not NEGATIVE; PRIMARY comes with three counted mentions
    or more and FEATURED with exactly two; the mention types LISTED and
    CITATION are never returned. *)
Theorem mention_sentiment_recommendation (responseText businessName : jsstring)
    (competitors : list jsstring) :
  exists a,
    analyzeResponse responseText businessName competitors = Some a
    /\ (mentionType a = NEGATIVE <-> mentioned a = true /\ sentiment a = SENT_NEGATIVE)
    /\ (isRecommended a = true
        <-> recommendationStrength a <> NONE /\ sentiment a <> SENT_NEGATIVE)
    /\ (mentionType a = PRIMARY -> (3 <= mentionCount a)%nat)
    /\ (mentionType a = FEATURED -> mentionCount a = 2%nat)
    /\ mentionType a <> LISTED
    /\ mentionType a <> CITATION.
Proof.
  destruct (analyzeResponse_fields responseText businessName competitors)
    as (a & Ha & _ & _ & _ & Hs & Hc & _ & _ & Hr & Hrs & Ht).
  destruct (lexicon_counts (toLowerCase responseText)) as (Lp & Ln & _).
  exists a. split; [exact Ha|].
  rewrite Hs, (sentimentCategory_counts _ _ Lp Ln) in Hc.
  rewrite Hr, Hrs, Ht, Hc. unfold sentimentByCounts.
  set (p := List.length (hits POSITIVE_INDICATORS (toLowerCase responseText))).
  set (n := List.length (hits NEGATIVE_INDICATORS (toLowerCase responseText))).
  set (r := List.length (hits RECOMMENDATION_PHRASES (toLowerCase responseText))).
  set (comp := existsb _ competitors).
  destruct (mentioned a); cbn [negb];
    destruct (Nat.leb_spec 2 n); cbn [SentimentType_eqb negb andb];
    try (destruct (Nat.ltb_spec n p); [|destruct (Nat.ltb_spec 0 n)]);
    cbn [SentimentType_eqb negb andb];
    destruct (Nat.leb_spec 3 (mentionCount a));
    destruct (Nat.leb_spec 2 (mentionCount a));
    destruct comp;
    destruct (Nat.ltb_spec 0 r); destruct (Nat.leb_spec 2 r);
    destruct (Nat.eqb_spec r 1); cbn [andb];
    repeat split; intros; try discriminate; try reflexivity; try lia;
    try congruence; try tauto;
    repeat match goal with
      | H : _ /\ _ |- _ => destruct H
      | H : ?x <> ?x |- _ => exfalso; apply H; reflexivity
      end; try discriminate; try congruence.
Qed.

(** ** The mention context *)

Lemma len_nonneg (s : jsstring) : (0 <= len s)%Z.
Proof. unfold len. lia. Qed.

Lemma len_app (s t : jsstring) : len (s ++ t) = (len s + len t)%Z.
Proof. unfold len. rewrite length_app. lia. Qed.

Lemma len_substring (a b : Z) (s : jsstring) :
  (len (substring a b s) <= Z.max 0 (Z.max (Z.min (Z.max 0 a) (len s)) (Z.min (Z.max 0 b) (len s))
                          - Z.min (Z.min (Z.max 0 a) (len s)) (Z.min (Z.max 0 b) (len s))))%Z.
Proof.
  unfold substring. cbv zeta.
  set (a' := Z.min (Z.max 0 a) (len s)). set (b' := Z.min (Z.max 0 b) (len s)).
  unfold len at 1.
  pose proof (firstn_le_length (Z.to_nat (Z.max a' b' - Z.min a' b'))
                (skipn (Z.to_nat (Z.min a' b')) s)).
  lia.
Qed.

Lemma len_mentionContextOf (responseText lowerText lowerBusiness businessName : jsstring) :
  (len (mentionContextOf responseText lowerText lowerBusiness businessName)
   <= len businessName + 306)%Z.
Proof.
  unfold mentionContextOf. cbv zeta.
  set (index := indexOf lowerText lowerBusiness).
  set (start := Z.max 0 (index - 150)).
  set (end_ := Z.min (len responseText) (index + len businessName + 150)).
  pose proof (len_substring start end_ responseText) as H.
  pose proof (len_nonneg responseText). pose proof (len_nonneg businessName).
  assert (K : (len (substring start end_ responseText) <= len businessName + 300)%Z).
  { subst start end_. lia. }
  change (len (js "...")) with 3%Z in *.
  destruct (0 <? start)%Z, (end_ <? len responseText)%Z;
    rewrite ?len_app; change (len (js "...")) with 3%Z; lia.
Qed.

(** X3.  The mention context is empty when the business is not mentioned,
    and is never longer than the business name plus 306 code units: 150
    on each side and the two ellipses. *)
Theorem mentionContext_window (responseText businessName : jsstring)
    (competitors : list jsstring) :
  exists a,
    analyzeResponse responseText businessName competitors = Some a
    /\ (mentioned a = false -> mentionContext a = [])
    /\ (len (mentionContext a) <= len businessName + 306)%Z.
Proof.
  destruct (analyzeResponse_fields responseText businessName competitors)
    as (a & Ha & _ & _ & Hx & _).
  exists a. split; [exact Ha|]. rewrite Hx.
  destruct (mentioned a).
  - split; [discriminate|]. apply len_mentionContextOf.
  - split; [reflexivity|]. pose proof (len_nonneg businessName). cbn. lia.
Qed.

Lemma startsWith_app (p t : jsstring) : startsWith p (p ++ t) = true.
Proof.
  induction p as [|c p IH]; [reflexivity|].
  simpl. rewrite N.eqb_refl. exact IH.
Qed.

Lemma startsWith_inv (p s : jsstring) :
  startsWith p s = true -> exists t, s = p ++ t.
Proof.
  revert s. induction p as [|c p IH]; intros s H.
  - exists s. reflexivity.
  - destruct s as [|d s]; [discriminate H|].
    simpl in H. apply andb_true_iff in H. destruct H as [H1 H2].
    apply N.eqb_eq in H1. subst d.
    destruct (IH s H2) as [t ->]. exists t. reflexivity.
Qed.

Lemma includes_app (pre p post : jsstring) : includes (pre ++ p ++ post) p = true.
Proof.
  induction pre as [|c pre IH].
  - cbn [app]. destruct (p ++ post) eqn:E; cbn [includes];
      rewrite <- E, startsWith_app; reflexivity.
  - cbn [app includes]. rewrite IH. destruct (startsWith p (c :: pre ++ p ++ post)); reflexivity.
Qed.

(** [indexOf] finds an occurrence when there is one. *)
Lemma indexOfFrom_inv (s p : jsstring) (i : Z) :
  includes s p = true ->
  exists pre post, s = pre ++ p ++ post /\ indexOfFrom i s p = (i + len pre)%Z.
Proof.
  revert i. induction s as [|c s IH]; intros i H.
  - cbn [includes] in H. cbn [indexOfFrom].
    destruct (startsWith p []) eqn:E; [|discriminate H].
    destruct (startsWith_inv _ _ E) as [t Ht].
    exists [], t. split; [exact Ht|]. cbn. lia.
  - cbn [includes] in H. cbn [indexOfFrom].
    destruct (startsWith p (c :: s)) eqn:E.
    + destruct (startsWith_inv _ _ E) as [t Ht].
      exists [], t. split; [exact Ht|]. cbn. lia.
    + destruct (IH (i + 1)%Z H) as (pre & post & -> & Hi).
      exists (c :: pre), post. split; [reflexivity|].
      rewrite Hi. unfold len. cbn [List.length]. lia.
Qed.

Lemma toLowerCase_app (s t : jsstring) :
  toLowerCase (s ++ t) = toLowerCase s ++ toLowerCase t.
Proof. apply flat_map_app. Qed.

Lemma isLatin1_app (s t : jsstring) :
  isLatin1 (s ++ t) = (isLatin1 s && isLatin1 t)%bool.
Proof. apply forallb_app. Qed.

Lemma length_toLowerCase_latin1 (s : jsstring) :
  isLatin1 s = true -> List.length (toLowerCase s) = List.length s.
Proof.
  intros H. rewrite (toLowerCase_latin1 s H). apply length_map.
Qed.

(** A window of [s] that starts before a piece of it and ends after it. *)
Lemma substring_around (t1 t2 t3 : jsstring) (a b : Z) :
  (0 <= a <= len t1)%Z -> (len t1 + len t2 <= b <= len (t1 ++ t2 ++ t3))%Z ->
  exists u v, substring a b (t1 ++ t2 ++ t3) = u ++ t2 ++ v.
Proof.
  intros Ha Hb. unfold substring. cbv zeta.
  rewrite !len_app in *.
  pose proof (len_nonneg t1). pose proof (len_nonneg t2). pose proof (len_nonneg t3).
  replace (Z.min (Z.max 0 a) (len t1 + (len t2 + len t3))) with a by lia.
  replace (Z.min (Z.max 0 b) (len t1 + (len t2 + len t3))) with b by lia.
  replace (Z.min a b) with a by lia. replace (Z.max a b) with b by lia.
  exists (skipn (Z.to_nat a) t1), (firstn (Z.to_nat (b - len t1 - len t2)) t3).
  unfold len in *.
  rewrite skipn_app.
  replace (Z.to_nat a - List.length t1)%nat with 0%nat by lia.
  cbn [skipn].
  rewrite firstn_app, firstn_all2 by (rewrite length_skipn; lia).
  f_equal.
  rewrite length_skipn.
  rewrite firstn_app, firstn_all2 by lia.
  f_equal. f_equal. lia.
Qed.

Lemma mentionContextOf_contains (responseText businessName : jsstring) :
  isLatin1 responseText = true -> isLatin1 businessName = true ->
  includes (toLowerCase responseText) (toLowerCase businessName) = true ->
  includes
    (toLowerCase
       (mentionContextOf responseText (toLowerCase responseText)
          (toLowerCase businessName) businessName))
    (toLowerCase businessName) = true.
Proof.
  intros Ht Hn Hi.
  destruct (indexOfFrom_inv _ _ 0%Z Hi) as (pre & post & Hd & Hx).
  pose proof (length_toLowerCase_latin1 _ Hn) as Ln.
  rewrite (toLowerCase_latin1 _ Ht) in Hd.
  apply map_eq_app in Hd. destruct Hd as (t1 & r & Hr & H1 & Hd).
  apply map_eq_app in Hd. destruct Hd as (t2 & t3 & Hr' & H2 & H3).
  subst r.
  assert (L1 : len t1 = len pre) by (unfold len; rewrite <- H1, length_map; reflexivity).
  assert (L2 : len t2 = len businessName).
  { unfold len. rewrite <- Ln, <- H2, length_map. reflexivity. }
  assert (Ht2 : toLowerCase t2 = toLowerCase businessName).
  { rewrite Hr, !isLatin1_app, !andb_true_iff in Ht.
    rewrite (toLowerCase_latin1 t2) by tauto. exact H2. }
  unfold mentionContextOf. cbv zeta. fold (indexOf (toLowerCase responseText) (toLowerCase businessName)).
  unfold indexOf. rewrite Hx, Z.add_0_l, <- L1.
  pose proof (len_nonneg t1). pose proof (len_nonneg t2). pose proof (len_nonneg t3).
  set (start := Z.max 0 (len t1 - 150)).
  set (end_ := Z.min (len responseText) (len t1 + len businessName + 150)).
  assert (HL : len responseText = (len t1 + (len t2 + len t3))%Z)
    by (rewrite Hr, !len_app; reflexivity).
  destruct (substring_around t1 t2 t3 start end_) as (u & v & Hs).
  { subst start. lia. }
  { subst end_. rewrite <- Hr. lia. }
  assert (Hs' : substring start end_ responseText = u ++ t2 ++ v)
    by (rewrite Hr; exact Hs).
  rewrite Hs'.
  destruct (0 <? start)%Z, (end_ <? len responseText)%Z.
  - rewrite <- !app_assoc, (app_assoc (js "...") u), (toLowerCase_app _ (t2 ++ _)),
      (toLowerCase_app t2), Ht2. apply includes_app.
  - rewrite (app_assoc (js "...") u), (toLowerCase_app _ (t2 ++ _)),
      (toLowerCase_app t2), Ht2. apply includes_app.
  - rewrite <- !app_assoc, (toLowerCase_app u), (toLowerCase_app t2), Ht2.
    apply includes_app.
  - rewrite (toLowerCase_app u), (toLowerCase_app t2), Ht2. apply includes_app.
Qed.

(** X4.  For a response and a business name within U+0000..U+00FF, the
    context extracted for a mention contains the name, letter case
    apart. *)
Theorem mentionContext_contains_name (responseText businessName : jsstring)
    (competitors : list jsstring) :
  isLatin1 responseText = true -> isLatin1 businessName = true ->
  exists a,
    analyzeResponse responseText businessName competitors = Some a
    /\ (mentioned a = true ->
        includes (toLowerCase (mentionContext a)) (toLowerCase businessName) = true).
Proof.
  intros Ht Hn.
  destruct (analyzeResponse_fields responseText businessName competitors)
    as (a & Ha & Hm & _ & Hx & _).
  exists a. split; [exact Ha|]. intros M. rewrite Hx, M.
  apply mentionContextOf_contains; try assumption.
  rewrite <- Hm. exact M.
Qed.

Lemma mentionContext_contains_name_witness :
  isLatin1 praiseResponse = true /\ isLatin1 (js "SHOP") = true
  /\ exists a,
       analyzeResponse praiseResponse (js "SHOP") [] = Some a
       /\ (mentioned a = true ->
           includes (toLowerCase (mentionContext a)) (toLowerCase (js "SHOP")) = true).
Proof.
  split; [reflexivity|]. split; [reflexivity|].
  exact (mentionContext_contains_name praiseResponse (js "SHOP") []
           eq_refl eq_refl).
Defined.

(** ** Citations *)

Lemma inRange_spec (lo hi n : N) :
  inRange lo hi n = true <-> (lo <= n <= hi)%N.
Proof.
  unfold inRange. rewrite andb_true_iff, !N.leb_le. reflexivity.
Qed.

(** The code units a capital ASCII letter is the canonical form of. *)
Lemma canonicalize_capital (c u : codeUnit) :
  (65 <= u <= 90)%N -> canonicalize c = u -> c = u \/ c = (u + 32)%N.
Proof.
  intros Hu. unfold canonicalize.
  destruct (inRange 97 122 c || inRange 224 254 c && negb (c =? 247)%N)%bool eqn:E.
  - apply orb_true_iff in E. destruct E as [E|E].
    + apply inRange_spec in E. intros H. right. lia.
    + apply andb_true_iff in E. destruct E as [E _].
      apply inRange_spec in E. intros H. lia.
  - destruct (c =? 255)%N; [intros H; cbv iota in H; lia|].
    destruct (c =? 181)%N; [intros H; cbn [orb] in H; cbv iota in H; lia|].
    destruct (c =? 956)%N; cbn [orb]; [intros H; cbv iota in H; lia|].
    intros H. left. exact H.
Qed.

Lemma charEqCI_letter (l c : codeUnit) :
  (97 <= l <= 122)%N -> charEqCI l c = true ->
  lowerUnit c = [l] /\ isSpace c = false.
Proof.
  intros Hl H. unfold charEqCI in H. apply N.eqb_eq in H.
  assert (Hc : canonicalize l = (l - 32)%N).
  { unfold canonicalize.
    replace (inRange 97 122 l) with true by (symmetry; apply inRange_spec; lia).
    reflexivity. }
  rewrite Hc in H. symmetry in H.
  apply canonicalize_capital in H; [|lia].
  assert (K : forall d, (d < 256)%N ->
     ((negb (inRange 65 90 d) || (match lowerUnit d with [x] => (x =? d + 32)%N | _ => false end
                                  && negb (isSpace d)))
      && (negb (inRange 97 122 d) || (match lowerUnit d with [x] => (x =? d)%N | _ => false end
                                      && negb (isSpace d))))%bool = true).
  { apply forall_latin1. vm_compute. reflexivity. }
  specialize (K c ltac:(lia)).
  apply andb_true_iff in K. destruct K as [K1 K2].
  destruct H as [H|H].
  - replace (inRange 65 90 c) with true in K1 by (symmetry; apply inRange_spec; lia).
    cbn [negb orb] in K1. apply andb_true_iff in K1. destruct K1 as [K1 K1'].
    destruct (lowerUnit c) as [|x [|y r]]; try discriminate K1.
    apply N.eqb_eq in K1. apply negb_true_iff in K1'.
    split; [f_equal; lia|exact K1'].
  - replace (inRange 97 122 c) with true in K2 by (symmetry; apply inRange_spec; lia).
    cbn [negb orb] in K2. apply andb_true_iff in K2. destruct K2 as [K2 K2'].
    destruct (lowerUnit c) as [|x [|y r]]; try discriminate K2.
    apply N.eqb_eq in K2. apply negb_true_iff in K2'.
    split; [f_equal; lia|exact K2'].
Qed.

Lemma urlRun_spec (s : jsstring) :
  (urlRun s <= List.length s)%nat /\ noSpace (firstn (urlRun s) s) = true.
Proof.
  induction s as [|c s [IH1 IH2]]; [split; reflexivity|].
  cbn [urlRun]. destruct (isUrlChar c) eqn:E; [|split; [cbn; lia|reflexivity]].
  split; [cbn; lia|].
  cbn [firstn noSpace forallb]. fold (noSpace (firstn (urlRun s) s)). rewrite IH2.
  unfold isUrlChar in E. apply negb_true_iff, orb_false_iff in E.
  destruct E as [E _]. rewrite E. reflexivity.
Qed.

Lemma noSpace_app (s t : jsstring) : noSpace (s ++ t) = (noSpace s && noSpace t)%bool.
Proof. apply forallb_app. Qed.

(** What a match of the URL pattern looks like. *)
Lemma urlLength_shape (s : jsstring) (n : nat) :
  urlLength s = Some n ->
  (8 <= n <= List.length s)%nat
  /\ hasHttpScheme (firstn n s) = true
  /\ noSpace (firstn n s) = true.
Proof.
  unfold urlLength.
  destruct s as [|h [|t1 [|t2 [|p r]]]]; try discriminate.
  destruct (charEqCI (letter "h") h) eqn:Eh; [|discriminate].
  destruct (charEqCI (letter "t") t1) eqn:Et1; [|discriminate].
  destruct (charEqCI (letter "t") t2) eqn:Et2; [|discriminate].
  destruct (charEqCI (letter "p") p) eqn:Ep; [|discriminate].
  cbn [andb].
  apply charEqCI_letter in Eh; [|cbv; split; discriminate].
  apply charEqCI_letter in Et1; [|cbv; split; discriminate].
  apply charEqCI_letter in Et2; [|cbv; split; discriminate].
  apply charEqCI_letter in Ep; [|cbv; split; discriminate].
  destruct Eh as [Lh Sh], Et1 as [Lt1 St1], Et2 as [Lt2 St2], Ep as [Lp Sp].
  destruct (urlTail r) as [m|] eqn:Em; [|discriminate].
  cbn [option_map]. intros [= <-].
  unfold urlTail in Em.
  assert (Tail : forall (k : nat) (r' : jsstring),
             (if startsWith (js "://") r'
              then match urlRun (skipn 3 r') with
                   | O => None
                   | S n => Some (k + 3 + S n)%nat
                   end
              else None) = Some m ->
             (k + 4 <= m <= k + List.length r')%nat
             /\ startsWith (js "://") (toLowerCase (firstn (m - k) r')) = true
             /\ noSpace (firstn (m - k) r') = true).
  { intros k r' H.
    destruct (startsWith (js "://") r') eqn:E; [|discriminate H].
    apply startsWith_inv in E. destruct E as [body ->].
    change (skipn 3 (js "://" ++ body)) with body in H.
    pose proof (urlRun_spec body) as [U1 U2].
    destruct (urlRun body) as [|j] eqn:Ej; [discriminate H|].
    injection H as <-.
    replace (k + 3 + S j - k)%nat with (3 + S j)%nat by lia.
    change (firstn (3 + S j) (js "://" ++ body))
      with (js "://" ++ firstn (S j) body).
    split; [cbn [List.length app js] in *; cbn; lia|].
    split; [reflexivity|].
    rewrite noSpace_app, U2. reflexivity. }
  destruct r as [|c r1].
  - apply (Tail 0%nat) in Em. cbn in Em. lia.
  - destruct (charEqCI (letter "s") c) eqn:Es.
    + apply charEqCI_letter in Es; [|cbv; split; discriminate].
      destruct Es as [Ls Ss].
      apply (Tail 1%nat) in Em. destruct Em as (M1 & M2 & M3).
      split; [cbn [List.length]; lia|].
      destruct m as [|m]; [lia|].
      replace (S m - 1)%nat with m in * by lia.
      cbn [Nat.add firstn].
      split.
      * unfold hasHttpScheme, toLowerCase. cbn [flat_map].
        rewrite Lh, Lt1, Lt2, Lp, Ls.
        fold (toLowerCase (firstn m r1)).
        apply startsWith_inv in M2. destruct M2 as [t ->].
        apply orb_true_iff. right. reflexivity.
      * cbn [noSpace forallb]. rewrite Sh, St1, St2, Sp, Ss. exact M3.
    + apply (Tail 0%nat) in Em. destruct Em as (M1 & M2 & M3).
      rewrite Nat.sub_0_r in *.
      split; [cbn [List.length] in *; lia|].
      cbn [Nat.add firstn].
      split.
      * unfold hasHttpScheme, toLowerCase. cbn [flat_map].
        rewrite Lh, Lt1, Lt2, Lp.
        fold (toLowerCase (firstn m (c :: r1))).
        apply startsWith_inv in M2. destruct M2 as [t ->].
        reflexivity.
      * cbn [noSpace forallb]. rewrite Sh, St1, St2, Sp. exact M3.
Qed.

Lemma urlsFrom_shape (s : jsstring) :
  forall skip,
    Forall (fun u => (8 <= List.length u)%nat
                     /\ hasHttpScheme u = true /\ noSpace u = true)
      (urlsFrom skip s).
Proof.
  induction s as [|c s IH]; intros skip; [constructor|].
  cbn [urlsFrom]. destruct skip as [|k]; [|apply IH].
  destruct (urlLength (c :: s)) as [n|] eqn:E; [|apply IH].
  constructor; [|apply IH].
  destruct (urlLength_shape _ _ E) as (H1 & H2 & H3).
  rewrite length_firstn. split; [lia|]. split; assumption.
Qed.

(** X5.  Every cited source starts with [http://] or [https://], in any
    letter case, has at least one more code unit (eight at least in
    all) and contains no white space.  The cited URL, when there is one,
    is one of the cited sources and contains the lower-cased business
    name without its white space; when there is none, no cited source
    contains it. *)
Theorem cited_sources_are_urls (responseText businessName : jsstring)
    (competitors : list jsstring) :
  exists a,
    analyzeResponse responseText businessName competitors = Some a
    /\ Forall (fun u => (8 <= List.length u)%nat
                        /\ hasHttpScheme u = true /\ noSpace u = true)
         (citedSources a)
    /\ (forall u, citedUrl a = Some u ->
          In u (citedSources a)
          /\ includes (toLowerCase u) (stripSpaces (toLowerCase businessName)) = true)
    /\ (citedUrl a = None ->
        forall u, In u (citedSources a) ->
          includes (toLowerCase u) (stripSpaces (toLowerCase businessName)) = false).
Proof.
  destruct (analyzeResponse_lists responseText businessName competitors)
    as (a & Ha & _ & _ & Hs & Hu).
  exists a. split; [exact Ha|].
  rewrite Hs, Hu. split; [apply urlsFrom_shape|]. split.
  - intros u H. apply find_some in H. exact H.
  - intros H u Hin. exact (find_none _ _ H u Hin).
Qed.

(** White space has no letter case. *)
Lemma lowerUnit_space (c : codeUnit) : isSpace c = true -> lowerUnit c = [c].
Proof.
  intros H.
  unfold isSpace in H. rewrite !orb_true_iff, !inRange_spec, !N.eqb_eq in H.
  assert (K : (c = 9 \/ c = 10 \/ c = 11 \/ c = 12 \/ c = 13 \/ c = 32 \/ c = 160
               \/ c = 5760 \/ c = 8192 \/ c = 8193 \/ c = 8194 \/ c = 8195
               \/ c = 8196 \/ c = 8197 \/ c = 8198 \/ c = 8199 \/ c = 8200
               \/ c = 8201 \/ c = 8202 \/ c = 8232 \/ c = 8233 \/ c = 8239
               \/ c = 8287 \/ c = 12288 \/ c = 65279)%N) by lia.
  clear H.
  repeat (destruct K as [->|K]; [reflexivity|]).
  subst c. reflexivity.
Qed.

Lemma stripSpaces_blank (s : jsstring) :
  forallb isSpace s = true -> stripSpaces (toLowerCase s) = [].
Proof.
  induction s as [|c s IH]; [reflexivity|].
  cbn [forallb]. intros H. apply andb_true_iff in H. destruct H as [Hc Hs].
  unfold toLowerCase. cbn [flat_map]. rewrite (lowerUnit_space c Hc).
  cbn [app]. unfold stripSpaces. cbn [filter]. rewrite Hc. cbn [negb].
  apply IH, Hs.
Qed.

(** X6.  For a business name that is empty or made of white space only,
    the cited URL is the first URL of the response: every response with
    a URL counts as a citation. *)
Theorem blank_name_cites_first_url (responseText businessName : jsstring)
    (competitors : list jsstring) :
  forallb isSpace businessName = true ->
  exists a,
    analyzeResponse responseText businessName competitors = Some a
    /\ citedUrl a = hd_error (citedSources a)
    /\ (isSome (citedUrl a) = true <-> citedSources a <> []).
Proof.
  intros Hb.
  destruct (analyzeResponse_lists responseText businessName competitors)
    as (a & Ha & _ & _ & Hs & Hu).
  exists a. split; [exact Ha|].
  rewrite Hu, Hs, (stripSpaces_blank _ Hb).
  destruct (matchUrls responseText) as [|u l].
  - split; [reflexivity|]. split; [discriminate|intros H; contradiction].
  - cbn [find hd_error]. rewrite includes_empty.
    split; [reflexivity|]. split; [discriminate|reflexivity].
Qed.

Lemma blank_name_cites_first_url_witness :
  forallb isSpace (js " ") = true
  /\ exists a,
       analyzeResponse (js "See https://example.com for more.") (js " ") [] = Some a
       /\ citedUrl a = hd_error (citedSources a)
       /\ (isSome (citedUrl a) = true <-> citedSources a <> []).
Proof.
  split; [reflexivity|].
  exact (blank_name_cites_first_url (js "See https://example.com for more.")
           (js " ") [] eq_refl).
Defined.

(** ** Competitors in a response *)

Lemma existsb_filter {A : Type} (f : A -> bool) (l : list A) :
  existsb f l = true <-> filter f l <> [].
Proof.
  induction l as [|x l IH]; cbn [existsb filter].
  - split; [discriminate|intros H; contradiction].
  - destruct (f x); cbn [orb]; [split; [discriminate|reflexivity]|exact IH].
Qed.

(** X7.  The competitors mentioned are among the competitors given.  A
    mention that is neither NEGATIVE in sentiment nor counted twice is a
    COMPARISON exactly when a competitor is mentioned, and BRIEF exactly
    when none is. *)
Theorem comparison_iff_competitor_mentioned (responseText businessName : jsstring)
    (competitors : list jsstring) :
  exists a,
    analyzeResponse responseText businessName competitors = Some a
    /\ incl (competitorsMentioned a) competitors
    /\ (mentionType a = COMPARISON
        <-> mentioned a = true /\ sentiment a <> SENT_NEGATIVE
            /\ (mentionCount a < 2)%nat /\ competitorsMentioned a <> [])
    /\ (mentionType a = BRIEF
        <-> mentioned a = true /\ sentiment a <> SENT_NEGATIVE
            /\ (mentionCount a < 2)%nat /\ competitorsMentioned a = []).
Proof.
  destruct (analyzeResponse_fields responseText businessName competitors)
    as (a & Ha & _ & _ & _ & Hs & Hc & _ & _ & _ & _ & Ht).
  destruct (analyzeResponse_lists responseText businessName competitors)
    as (a' & Ha' & _ & Hm & _).
  rewrite Ha in Ha'. injection Ha' as <-.
  destruct (lexicon_counts (toLowerCase responseText)) as (Lp & Ln & _).
  exists a. split; [exact Ha|].
  split; [rewrite Hm; apply incl_filter|].
  rewrite Hs, (sentimentCategory_counts _ _ Lp Ln) in Hc.
  rewrite Ht, Hc, Hm. unfold sentimentByCounts.
  set (f := fun c => includes (toLowerCase responseText) (toLowerCase c)).
  pose proof (existsb_filter f competitors) as E.
  set (p := List.length (hits POSITIVE_INDICATORS (toLowerCase responseText))).
  set (n := List.length (hits NEGATIVE_INDICATORS (toLowerCase responseText))).
  destruct (mentioned a); cbn [negb];
    destruct (Nat.leb_spec 2 n);
    try (destruct (Nat.ltb_spec n p); [|destruct (Nat.ltb_spec 0 n)]);
    destruct (Nat.leb_spec 3 (mentionCount a));
    destruct (Nat.leb_spec 2 (mentionCount a));
    destruct (existsb f competitors);
    (split;
     (split;
      [ try discriminate; intros _; repeat split; try discriminate; try lia;
        try (apply E; reflexivity);
        try (destruct (filter f competitors); [reflexivity|];
             exfalso; assert (false = true) by (apply E; discriminate); discriminate)
      | intros (M & S & C & F); try reflexivity; try discriminate M;
        try (exfalso; apply S; reflexivity); try lia;
        try (apply E in F; discriminate F);
        try (exfalso; assert (X : true = true) by reflexivity;
             apply E in X; contradiction) ])).
Qed.

(** ** The competitor analyzer *)

Lemma newRegExp_plain (s : jsstring) :
  isPlain s = true -> newRegExp s = Some (map Lit s).
Proof.
  induction s as [|c r IH]; [reflexivity|].
  unfold isPlain. cbn [forallb]. intros H.
  apply andb_true_iff in H. destruct H as [Hc Hr].
  apply negb_true_iff in Hc.
  destruct (not_syntax_not_special c Hc) as [E1 E2].
  cbn [newRegExp]. rewrite E1, E2, Hc, (IH Hr). reflexivity.
Qed.

Lemma escapeRegExp_plain (s : jsstring) : isPlain s = true -> escapeRegExp s = s.
Proof.
  induction s as [|c r IH]; [reflexivity|].
  unfold isPlain. cbn [forallb]. intros H.
  apply andb_true_iff in H. destruct H as [Hc Hr].
  apply negb_true_iff in Hc.
  cbn [escapeRegExp]. rewrite Hc, (IH Hr). reflexivity.
Qed.

(** Lower-casing brings in no syntax character. *)
Lemma lowerUnit_plain (c : codeUnit) :
  isSyntaxChar c = false -> isPlain (lowerUnit c) = true.
Proof.
  intros H.
  destruct (N.ltb_spec c 256) as [Hc|Hc].
  - assert (K : forall d, (d < 256)%N ->
              (isSyntaxChar d || isPlain (lowerUnit d))%bool = true).
    { apply forall_latin1. vm_compute. reflexivity. }
    specialize (K c Hc). rewrite H in K. exact K.
  - unfold lowerUnit.
    replace (inRange 65 90 c) with false
      by (symmetry; apply not_true_iff_false; rewrite inRange_spec; lia).
    replace (inRange 192 222 c) with false
      by (symmetry; apply not_true_iff_false; rewrite inRange_spec; lia).
    cbn [orb andb].
    destruct (c =? 304)%N; [reflexivity|].
    destruct (c =? 376)%N; [reflexivity|].
    destruct (c =? 7838)%N; [reflexivity|].
    destruct (c =? 8490)%N; [reflexivity|].
    destruct (c =? 8491)%N; [reflexivity|].
    unfold isPlain. cbn [forallb]. rewrite H. reflexivity.
Qed.

Lemma isPlain_app (s t : jsstring) : isPlain (s ++ t) = (isPlain s && isPlain t)%bool.
Proof. apply forallb_app. Qed.

Lemma toLowerCase_plain (s : jsstring) : isPlain s = true -> isPlain (toLowerCase s) = true.
Proof.
  induction s as [|c r IH]; [reflexivity|].
  unfold isPlain at 1. cbn [forallb]. intros H.
  apply andb_true_iff in H. destruct H as [Hc Hr].
  apply negb_true_iff in Hc.
  unfold toLowerCase. cbn [flat_map]. rewrite isPlain_app.
  rewrite (lowerUnit_plain c Hc). apply IH, Hr.
Qed.

(** The analyzer of the competitor scan is the analyzer over the engine
    of the fragment. *)
Lemma analyzeCompetitorResponse_fragment (response competitorName : jsstring) :
  analyzeCompetitorResponse response competitorName
  = analyzeCompetitorResponseWith fragmentMatches response competitorName.
Proof.
  unfold analyzeCompetitorResponse, analyzeCompetitorResponseWith, fragmentMatches.
  destruct (newRegExp (toLowerCase competitorName)); reflexivity.
Qed.

(** What the competitor analyzer returns, whatever the engine. *)
Lemma analyzeCompetitorResponseWith_fields
    (matches : jsstring -> jsstring -> option nat)
    (response competitorName : jsstring) (ca : CompetitorAnalysis) :
  analyzeCompetitorResponseWith matches response competitorName = Some ca ->
  let lowerText := toLowerCase response in
  matches (toLowerCase competitorName) response = Some (c_mentionCount ca)
  /\ c_mentioned ca = includes lowerText (toLowerCase competitorName)
  /\ c_positiveCount ca = List.length (hits competitorPositiveWords lowerText)
  /\ c_negativeCount ca = List.length (hits competitorNegativeWords lowerText)
  /\ c_sentimentScore ca = sentimentOf (c_positiveCount ca) (c_negativeCount ca)
  /\ c_isRecommended ca =
       (includes lowerText (js "recommend") && (c_negativeCount ca =? 0)%nat)%bool.
Proof.
  unfold analyzeCompetitorResponseWith.
  destruct (matches (toLowerCase competitorName) response) as [n|]; [|discriminate].
  intros [= <-]. cbn. repeat split; reflexivity.
Qed.

(** What the competitor analyzer returns, when the pattern compiles. *)
Lemma analyzeCompetitorResponse_fields (response competitorName : jsstring)
    (ca : CompetitorAnalysis) :
  analyzeCompetitorResponse response competitorName = Some ca ->
  let lowerText := toLowerCase response in
  exists re,
    newRegExp (toLowerCase competitorName) = Some re
    /\ c_mentioned ca = includes lowerText (toLowerCase competitorName)
    /\ c_mentionCount ca = matchCount re response
    /\ c_positiveCount ca = List.length (hits competitorPositiveWords lowerText)
    /\ c_negativeCount ca = List.length (hits competitorNegativeWords lowerText)
    /\ c_sentimentScore ca = sentimentOf (c_positiveCount ca) (c_negativeCount ca)
    /\ c_isRecommended ca =
         (includes lowerText (js "recommend") && (c_negativeCount ca =? 0)%nat)%bool.
Proof.
  unfold analyzeCompetitorResponse.
  destruct (newRegExp (toLowerCase competitorName)) as [re|]; [|discriminate].
  intros [= <-]. exists re. cbn. repeat split; reflexivity.
Qed.

(** X8.  For a name without a syntax character of regular expressions the
    competitor analyzer does not fail, and its [mentioned] flag and
    mention count are those of the primary analyzer. *)
Theorem competitor_matches_primary (response competitorName : jsstring)
    (competitors : list jsstring) :
  isPlain competitorName = true ->
  exists ca a,
    analyzeCompetitorResponse response competitorName = Some ca
    /\ analyzeResponse response competitorName competitors = Some a
    /\ c_mentioned ca = mentioned a
    /\ c_mentionCount ca = mentionCount a.
Proof.
  intros Hp.
  pose proof (newRegExp_plain _ (toLowerCase_plain _ Hp)) as Hre.
  destruct (analyzeResponse_fields response competitorName competitors)
    as (a & Ha & Hm & Hc & _).
  destruct (analyzeCompetitorResponse response competitorName) as [ca|] eqn:E.
  - destruct (analyzeCompetitorResponse_fields _ _ _ E) as (re & R & M & C & _).
    rewrite Hre in R. injection R as <-.
    exists ca, a. repeat split; try assumption; congruence.
  - unfold analyzeCompetitorResponse in E. rewrite Hre in E. discriminate E.
Qed.

Lemma competitor_matches_primary_witness :
  isPlain (js "Acme Corp") = true
  /\ exists ca a,
       analyzeCompetitorResponse praiseResponse (js "Acme Corp") = Some ca
       /\ analyzeResponse praiseResponse (js "Acme Corp") [] = Some a
       /\ c_mentioned ca = mentioned a
       /\ c_mentionCount ca = mentionCount a.
Proof.
  split; [reflexivity|].
  exact (competitor_matches_primary praiseResponse (js "Acme Corp") [] eq_refl).
Defined.

Lemma hits_In (lexicon : list jsstring) (lowerText w : jsstring) :
  In w lexicon -> includes lowerText w = true -> In w (hits lexicon lowerText).
Proof.
  intros Hin Hi. unfold hits. apply filter_In. split; assumption.
Qed.

Lemma sentimentOf_all_positive (p : nat) :
  (1 <= p <= 6)%nat -> sentimentOf p 0 = ofZ 1.
Proof.
  intros H.
  assert (p = 1 \/ p = 2 \/ p = 3 \/ p = 4 \/ p = 5 \/ p = 6)%nat as K by lia.
  repeat (destruct K as [->|K]; [vm_compute; reflexivity|]).
  subst p. vm_compute. reflexivity.
Qed.

(** X9.  Whatever the engine of regular expressions makes of the name,
    an analysis the competitor analyzer returns has a sentiment score
    between -1 and 1; and a response it reports as a recommendation has
    no negative hit, one positive hit at least, and the sentiment score 1
    exactly. *)
Theorem competitor_recommended_sentiment
    (matches : jsstring -> jsstring -> option nat)
    (response competitorName : jsstring) (ca : CompetitorAnalysis) :
  analyzeCompetitorResponseWith matches response competitorName = Some ca ->
  between (-1) 1 (c_sentimentScore ca)
  /\ (c_isRecommended ca = true ->
      c_negativeCount ca = 0%nat
      /\ (1 <= c_positiveCount ca)%nat
      /\ c_sentimentScore ca = ofZ 1).
Proof.
  intros E.
  destruct (analyzeCompetitorResponseWith_fields _ _ _ _ E)
    as (_ & _ & P & N & S & R).
  cbv zeta in *.
  pose proof (hits_length competitorPositiveWords (toLowerCase response)) as Lp.
  pose proof (hits_length competitorNegativeWords (toLowerCase response)) as Ln.
  change (List.length competitorPositiveWords) with 6%nat in Lp.
  change (List.length competitorNegativeWords) with 5%nat in Ln.
  rewrite <- P in Lp. rewrite <- N in Ln.
  split.
  - rewrite S.
    destruct (sentimentOf_range (c_positiveCount ca) (c_negativeCount ca)) as [F B];
      [lia|lia|].
    apply between_of_bounds; [reflexivity|reflexivity|exact F|lia].
  - intros H. rewrite R in H. apply andb_true_iff in H. destruct H as [H1 H2].
    apply Nat.eqb_eq in H2.
    assert (Hp : (1 <= c_positiveCount ca)%nat).
    { rewrite P.
      pose proof (hits_In competitorPositiveWords (toLowerCase response)
                    (js "recommend")) as K.
      destruct (hits competitorPositiveWords (toLowerCase response)) as [|x l].
      - exfalso. apply K; [|exact H1]. cbn. tauto.
      - cbn. lia. }
    split; [exact H2|]. split; [exact Hp|].
    rewrite S, H2. apply sentimentOf_all_positive. lia.
Qed.

Lemma competitor_recommended_sentiment_witness :
  exists ca,
    analyzeCompetitorResponse (js "I recommend Acme, a great shop.") (js "Acme") = Some ca
    /\ between (-1) 1 (c_sentimentScore ca)
    /\ (c_isRecommended ca = true ->
        c_negativeCount ca = 0%nat
        /\ (1 <= c_positiveCount ca)%nat
        /\ c_sentimentScore ca = ofZ 1).
Proof.
  eexists. split; [vm_compute; reflexivity|].
  apply (competitor_recommended_sentiment fragmentMatches
           (js "I recommend Acme, a great shop.") (js "Acme")).
  rewrite <- analyzeCompetitorResponse_fragment. vm_compute. reflexivity.
Defined.

(** ** Letter case of the business name *)

(** Lower-casing twice is lower-casing once. *)
Lemma lowerUnit_idempotent (c : codeUnit) : toLowerCase (lowerUnit c) = lowerUnit c.
Proof.
  destruct (N.ltb_spec c 256) as [Hc|Hc].
  - destruct (lowerUnit_latin1 c Hc) as [E L].
    destruct (lowerUnit_latin1 _ L) as [E' _].
    assert (K : forall d, (d < 256)%N -> (lowerChar (lowerChar d) =? lowerChar d)%N = true).
    { apply forall_latin1. vm_compute. reflexivity. }
    specialize (K c Hc). apply N.eqb_eq in K.
    rewrite E. unfold toLowerCase. cbn [flat_map]. rewrite E', K. reflexivity.
  - unfold lowerUnit at 2. unfold lowerUnit at 1.
    replace (inRange 65 90 c) with false
      by (symmetry; apply not_true_iff_false; rewrite inRange_spec; lia).
    replace (inRange 192 222 c) with false
      by (symmetry; apply not_true_iff_false; rewrite inRange_spec; lia).
    cbn [orb andb].
    destruct (c =? 304)%N eqn:E1; [reflexivity|].
    destruct (c =? 376)%N eqn:E2; [reflexivity|].
    destruct (c =? 7838)%N eqn:E3; [reflexivity|].
    destruct (c =? 8490)%N eqn:E4; [reflexivity|].
    destruct (c =? 8491)%N eqn:E5; [reflexivity|].
    unfold toLowerCase, lowerUnit. cbn [flat_map].
    replace (inRange 65 90 c) with false
      by (symmetry; apply not_true_iff_false; rewrite inRange_spec; lia).
    replace (inRange 192 222 c) with false
      by (symmetry; apply not_true_iff_false; rewrite inRange_spec; lia).
    cbn [orb andb]. rewrite E1, E2, E3, E4, E5. reflexivity.
Qed.

Lemma toLowerCase_idempotent (s : jsstring) : toLowerCase (toLowerCase s) = toLowerCase s.
Proof.
  induction s as [|c r IH]; [reflexivity|].
  unfold toLowerCase in *. cbn [flat_map].
  rewrite flat_map_app, IH.
  f_equal. apply lowerUnit_idempotent.
Qed.

(** X10.  The analysis depends on the business name through its lower
    case and its length only.  Lower-casing a name within U+0000..U+00FF
    changes nothing; lower-casing a name made of those code units and of
    U+0130, U+0178, U+1E9E, U+212A and U+212B, which can make it longer,
    leaves [mentioned], the mention count, the mention type and the cited
    URL as they are. *)
Theorem name_case_insensitive (responseText name1 name2 : jsstring)
    (competitors : list jsstring) :
  (toLowerCase name1 = toLowerCase name2 -> len name1 = len name2 ->
   analyzeResponse responseText name1 competitors
   = analyzeResponse responseText name2 competitors)
  /\ (isLatin1 name1 = true ->
      analyzeResponse responseText (toLowerCase name1) competitors
      = analyzeResponse responseText name1 competitors)
  /\ (caseModelled name1 = true ->
      exists a a',
        analyzeResponse responseText name1 competitors = Some a
        /\ analyzeResponse responseText (toLowerCase name1) competitors = Some a'
        /\ mentioned a' = mentioned a
        /\ mentionCount a' = mentionCount a
        /\ mentionType a' = mentionType a
        /\ citedUrl a' = citedUrl a).
Proof.
  assert (G : forall n1 n2, toLowerCase n1 = toLowerCase n2 -> len n1 = len n2 ->
                analyzeResponse responseText n1 competitors
                = analyzeResponse responseText n2 competitors).
  { intros n1 n2 H L. unfold analyzeResponse, mentionContextOf.
    rewrite H, L. reflexivity. }
  split; [apply G|]. split.
  - intros H. apply G; [apply toLowerCase_idempotent|].
    unfold len. rewrite (length_toLowerCase_latin1 _ H). reflexivity.
  - intros _.
    destruct (analyzeResponse_fields responseText name1 competitors)
      as (a & Ha & Hm & Hc & _ & _ & _ & _ & _ & _ & _ & Ht).
    destruct (analyzeResponse_fields responseText (toLowerCase name1) competitors)
      as (a' & Ha' & Hm' & Hc' & _ & _ & _ & _ & _ & _ & _ & Ht').
    destruct (analyzeResponse_lists responseText name1 competitors)
      as (b & Hb & _ & _ & _ & Hu).
    destruct (analyzeResponse_lists responseText (toLowerCase name1) competitors)
      as (b' & Hb' & _ & _ & _ & Hu').
    rewrite Ha in Hb. injection Hb as <-.
    rewrite Ha' in Hb'. injection Hb' as <-.
    rewrite toLowerCase_idempotent in Hm', Hc', Hu'.
    exists a, a'. split; [exact Ha|]. split; [exact Ha'|].
    assert (M : mentioned a' = mentioned a) by congruence.
    assert (C : mentionCount a' = mentionCount a) by congruence.
    split; [exact M|]. split; [exact C|].
    split; [rewrite Ht, Ht', M, C; reflexivity|congruence].
Qed.

Lemma name_case_insensitive_witness :
  analyzeResponse praiseResponse (js "sHoP") [] = analyzeResponse praiseResponse (js "Shop") [].
Proof.
  exact (proj1 (name_case_insensitive praiseResponse (js "sHoP") (js "Shop") [])
           eq_refl eq_refl).
Defined.

(** ** Integer scores *)

Local Open Scope Z_scope.

(** A finite number whose value is an integer is an integer. *)
Lemma integer_value (x : number) (n : Z) :
  finiteb x = true -> scf x = n * unitOne -> isInteger x = true.
Proof.
  intros F V. destruct x as [s|s| |s m e]; try discriminate F; [reflexivity|].
  cbn [isInteger]. destruct (Z.leb_spec 0 e) as [H|H]; [reflexivity|].
  cbn [orb]. apply Z.eqb_eq.
  destruct (canonical_facts _ _ _ F) as (He & _).
  cbn [scf] in V. rewrite sc_opp in V. unfold sc in V.
  assert (Hpow : unitOne = 2 ^ (e - unitExp) * 2 ^ (- e)).
  { unfold unitOne. rewrite <- Z.pow_add_r by (unfold unitExp; lia). f_equal; lia. }
  pose proof (unit_pos e ltac:(unfold unitExp; lia)) as Pu.
  assert (Pd : 0 < 2 ^ (- e)) by (apply Z.pow_pos_nonneg; lia).
  rewrite Hpow in V.
  assert (K : Zpos m = Z.abs n * 2 ^ (- e)).
  { destruct s; cbn [cond_Zopp] in V; nia. }
  rewrite K. apply Z.mod_mul. lia.
Qed.

Lemma pack_isInteger (sx : bool) (m e : Z) :
  0 <= e -> finiteb (pack sx m e) = true -> isInteger (pack sx m e) = true.
Proof.
  intros He. unfold pack. destruct m as [|p|p]; [reflexivity| |discriminate].
  destruct (e <=? 971); [|discriminate].
  intros _. cbn [isInteger]. apply orb_true_iff. left. apply Z.leb_le, He.
Qed.

(** The number of an integer is an integer, when it is finite. *)
Lemma ofZ_isInteger (n : Z) : finiteb (ofZ n) = true -> isInteger (ofZ n) = true.
Proof.
  destruct (Z.lt_ge_cases (Z.abs n) (2 ^ 53)) as [B|B].
  - intros _. destruct (ofZ_exact n B) as [Fn Vn]. eapply integer_value; eassumption.
  - assert (K : forall (s : bool) (p : positive), 2 ^ 53 <= Zpos p ->
              finiteb (binary_round 53 1024 s p 0) = true ->
              isInteger (binary_round 53 1024 s p 0) = true).
    { intros s p Hp. unfold binary_round.
      pose proof (digits2_pos_bounds p) as [B1 B2].
      assert (Hd : 54 <= Zpos (digits2_pos p)).
      { assert (2 ^ 53 < 2 ^ Zpos (digits2_pos p)) by lia.
        apply Z.pow_lt_mono_r_iff in H; lia. }
      unfold shl_align. rewrite fexp64_eq.
      replace (Z.max (Zpos (digits2_pos p) + 0 - 53) (-1074) - 0)
        with (Zpos (digits2_pos p) - 53) by lia.
      destruct (Zpos (digits2_pos p) - 53) as [|d|d] eqn:Ed; try lia.
      destruct (binary_round_aux_shape s (Zpos p) 0 loc_Exact ltac:(lia))
        as (_ & _ & _ & m1 & Hm1 & ->).
      { cbn [Zdigits2]. rewrite fexp64_eq. lia. }
      cbn [Zdigits2]. rewrite fexp64_eq.
      replace (Z.max (Zpos (digits2_pos p) + 0 - 53) (-1074)) with (Zpos d) by lia.
      unfold renorm. destruct (m1 =? 2 ^ 53); apply pack_isInteger; lia. }
    unfold ofZ. change prec with 53. change emax with 1024.
    destruct n as [|p|p]; cbn [binary_normalize]; [reflexivity| |]; apply K; lia.
Qed.

(** [Math.round] returns an integer whenever it returns a finite number. *)
Lemma Math_round_isInteger (x : number) :
  finiteb (Math_round x) = true -> isInteger (Math_round x) = true.
Proof.
  destruct x as [s|s| |s m e]; try discriminate; [reflexivity|].
  cbn [Math_round].
  destruct (Z.leb_spec 0 e) as [H|H].
  - intros _. cbn [isInteger]. apply orb_true_iff. left. apply Z.leb_le, H.
  - cbv zeta.
    destruct ((2 * cond_Zopp s (Zpos m) + 2 ^ (- e)) / (2 * 2 ^ (- e)) =? 0);
      [reflexivity|].
    apply ofZ_isInteger.
Qed.

Lemma calculateScores_allInteger (b : list Analysis) :
  Z.of_nat (List.length b) < 2 ^ 53 -> Forall scoresInRange b ->
  allInteger (calculateScores b).
Proof.
  intros Hb Hall.
  pose proof (calculateScores_allPct b Hb Hall) as P.
  unfold allPct, allInteger, calculateScores in *.
  destruct b as [|a l].
  - repeat split; vm_compute; reflexivity.
  - cbn [List.length Nat.eqb overall_score ai_trust_score ai_visibility_score
         ai_recommendation_score ai_citation_score sentiment_score
         confidence_score] in *.
    destruct P as ([F1 _] & [F2 _] & [F3 _] & [F4 _] & [F5 _] & [F6 _] & [F7 _]).
    repeat split; apply Math_round_isInteger; assumption.
Qed.

(** X11.  Every score the aggregator returns for the analyses of a batch
    of responses is an integer (the batch being an array, of fewer than
    [2 ^ 32] elements). *)
Theorem scores_are_integers (responses : list jsstring) (businessName : jsstring)
    (competitors : list jsstring) :
  Z.of_nat (List.length responses) < 2 ^ 32 ->
  let s := calculateScores (analyzeAll responses businessName competitors) in
  isInteger (overall_score s) = true
  /\ isInteger (ai_trust_score s) = true
  /\ isInteger (ai_visibility_score s) = true
  /\ isInteger (ai_recommendation_score s) = true
  /\ isInteger (ai_citation_score s) = true
  /\ isInteger (sentiment_score s) = true
  /\ isInteger (confidence_score s) = true.
Proof.
  intros Hn s.
  apply calculateScores_allInteger; [|apply analyzeAll_inRange].
  pose proof (analyzeAll_length responses businessName competitors). lia.
Qed.

Lemma scores_are_integers_witness :
  let responses := [plainResponse; praiseResponse; hedgedResponse] in
  let s := calculateScores (analyzeAll responses acme []) in
  Z.of_nat (List.length responses) < 2 ^ 32
  /\ isInteger (overall_score s) = true.
Proof.
  assert (H : Z.of_nat (List.length [plainResponse; praiseResponse; hedgedResponse])
              < 2 ^ 32) by reflexivity.
  split; [exact H|].
  exact (proj1 (scores_are_integers _ acme [] H)).
Defined.

Local Close Scope Z_scope.

(** ** Rates at the ends *)

Local Open Scope Z_scope.

(** Two finite numbers of the same non-zero value are the same number. *)
Lemma finite_eq (x y : number) :
  finiteb x = true -> finiteb y = true -> scf x = scf y -> scf x <> 0 -> x = y.
Proof.
  intros Fx Fy V Nz.
  pose proof (SFcompare_scf x y Fx Fy) as C.
  rewrite V, Z.compare_refl in C.
  destruct x as [sx|sx| |sx mx ex]; try discriminate Fx;
    [cbn [scf] in Nz; contradiction|].
  destruct y as [sy|sy| |sy my ey]; try discriminate Fy;
    [rewrite V in Nz; cbn [scf] in Nz; contradiction|].
  cbn [SFcompare] in C.
  destruct sx, sy; try discriminate C.
  - destruct (Z.compare_spec ex ey) as [E|E|E]; try discriminate C.
    destruct (Pos.compare_cont Eq mx my) eqn:P; try discriminate C.
    apply Pos.compare_eq in P. subst. reflexivity.
  - destruct (Z.compare_spec ex ey) as [E|E|E]; try discriminate C.
    destruct (Pos.compare_cont Eq mx my) eqn:P; try discriminate C.
    apply Pos.compare_eq in P. subst. reflexivity.
Qed.

Lemma div_self (n : nat) :
  (0 < n)%nat -> Z.of_nat n < 2 ^ 53 -> div (ofNat n) (ofNat n) = ofZ 1.
Proof.
  intros Hn Hb. pose proof unitOne_pos as HG.
  destruct (ofNat_exact n Hb) as [Fn Vn].
  destruct (ofZ_exact 1 ltac:(reflexivity)) as [F1 V1].
  assert (S1 : SOn unitOne).
  { replace unitOne with (1 * unitOne) by ring. apply SOn_int. reflexivity. }
  destruct (div_bounds (ofNat n) (ofNat n) unitOne unitOne) as [F V];
    [exact Fn|exact Fn|rewrite Vn; nia|exact S1|exact S1|rewrite Vn; nia|].
  change (SFdiv 53 1024) with div in F, V.
  apply finite_eq; [exact F|exact F1|rewrite V1; lia|lia].
Qed.

Lemma div_zero (n : nat) :
  (0 < n)%nat -> Z.of_nat n < 2 ^ 53 -> div (ofNat 0) (ofNat n) = ofZ 0.
Proof.
  intros Hn Hb. pose proof unitOne_pos as HG.
  destruct (ofNat_exact n Hb) as [Fn Vn].
  destruct (ofNat n) as [s|s| |s m e]; try discriminate Fn.
  - cbn [scf] in Vn. nia.
  - destruct s; [|reflexivity].
    exfalso. cbn [scf] in Vn. rewrite sc_opp in Vn. cbn [cond_Zopp] in Vn.
    destruct (canonical_facts _ _ _ Fn) as (He & _).
    pose proof (sc_pos (Zpos m) e ltac:(unfold unitExp; lia) ltac:(lia)). nia.
Qed.

Lemma count_all {A : Type} (p : A -> bool) (l : list A) :
  Forall (fun a => p a = true) l -> count p l = List.length l.
Proof.
  unfold count. induction 1 as [|a l Ha _ IH]; [reflexivity|].
  cbn [filter]. rewrite Ha. cbn [List.length]. congruence.
Qed.

Lemma count_none {A : Type} (p : A -> bool) (l : list A) :
  Forall (fun a => p a = false) l -> count p l = 0%nat.
Proof.
  unfold count. induction 1 as [|a l Ha _ IH]; [reflexivity|].
  cbn [filter]. rewrite Ha. exact IH.
Qed.

Lemma rate_score_full (n : nat) :
  (0 < n)%nat -> Z.of_nat n < 2 ^ 53 ->
  Math_round (mul (div (ofNat n) (ofNat n)) (ofZ 100)) = ofZ 100.
Proof.
  intros Hn Hb. rewrite (div_self n Hn Hb). vm_compute. reflexivity.
Qed.

Lemma rate_score_zero (n : nat) :
  (0 < n)%nat -> Z.of_nat n < 2 ^ 53 ->
  Math_round (mul (div (ofNat 0) (ofNat n)) (ofZ 100)) = ofZ 0.
Proof.
  intros Hn Hb. rewrite (div_zero n Hn Hb). vm_compute. reflexivity.
Qed.

(** X12.  On a non-empty batch the visibility score is exactly 100 when
    every analysis is a mention and exactly 0 when none is; likewise the
    recommendation score for [isRecommended] and the citation score for
    the truth of [citedUrl] (a string that is not empty). *)
Theorem rate_scores_at_the_ends (analyses : list Analysis) :
  analyses <> [] -> Z.of_nat (List.length analyses) < 2 ^ 32 ->
  let s := calculateScores analyses in
  (Forall (fun a => mentioned a = true) analyses -> ai_visibility_score s = ofZ 100)
  /\ (Forall (fun a => mentioned a = false) analyses -> ai_visibility_score s = ofZ 0)
  /\ (Forall (fun a => isRecommended a = true) analyses ->
      ai_recommendation_score s = ofZ 100)
  /\ (Forall (fun a => isRecommended a = false) analyses ->
      ai_recommendation_score s = ofZ 0)
  /\ (Forall (fun a => truthy (citedUrl a) = true) analyses ->
      ai_citation_score s = ofZ 100)
  /\ (Forall (fun a => truthy (citedUrl a) = false) analyses ->
      ai_citation_score s = ofZ 0).
Proof.
  intros Hne Hb s. subst s.
  assert (Hn : (0 < List.length analyses)%nat)
    by (destruct analyses; [contradiction|cbn; lia]).
  assert (Hb' : Z.of_nat (List.length analyses) < 2 ^ 53) by lia.
  unfold calculateScores.
  replace (List.length analyses =? 0)%nat with false
    by (symmetry; apply Nat.eqb_neq; lia).
  cbn [ai_visibility_score ai_recommendation_score ai_citation_score].
  repeat split; intros H.
  - rewrite (count_all _ _ H). apply rate_score_full; assumption.
  - rewrite (count_none _ _ H). apply rate_score_zero; assumption.
  - rewrite (count_all _ _ H). apply rate_score_full; assumption.
  - rewrite (count_none _ _ H). apply rate_score_zero; assumption.
  - rewrite (count_all _ _ H). apply rate_score_full; assumption.
  - rewrite (count_none _ _ H). apply rate_score_zero; assumption.
Qed.

Lemma rate_scores_at_the_ends_witness :
  let analyses := analyzeAll [plainResponse; praiseResponse] acme [] in
  analyses <> [] /\ Z.of_nat (List.length analyses) < 2 ^ 32
  /\ (Forall (fun a => mentioned a = false) analyses ->
      ai_visibility_score (calculateScores analyses) = ofZ 0).
Proof.
  assert (H1 : analyzeAll [plainResponse; praiseResponse] acme [] <> [])
    by (vm_compute; discriminate).
  assert (H2 : Z.of_nat (List.length (analyzeAll [plainResponse; praiseResponse] acme []))
               < 2 ^ 32) by (vm_compute; reflexivity).
  split; [exact H1|]. split; [exact H2|].
  exact (proj1 (proj2 (rate_scores_at_the_ends _ H1 H2))).
Defined.

Local Close Scope Z_scope.

(** ** Prompts and queries *)

Lemma length_flat_map_const {A B : Type} (f : A -> list B) (k : nat) (l : list A) :
  (forall a, List.length (f a) = k) -> List.length (flat_map f l) = (k * List.length l)%nat.
Proof.
  intros H. induction l as [|a l IH]; cbn [flat_map List.length]; [lia|].
  rewrite length_app, H, IH. lia.
Qed.

Lemma truthy_orString (o : option jsstring) (d : jsstring) :
  d <> [] -> truthy (Some (orString o d)) = true.
Proof.
  intros Hd. unfold orString.
  destruct o as [[|c s]|]; cbn; try reflexivity; destruct d; try reflexivity; contradiction.
Qed.

Lemma generatePrompts_count (business : Business) :
  let products := orEmpty (products business) in
  let services := orEmpty (services business) in
  let competitors := orEmpty (competitors business) in
  List.length (generatePrompts business)
  = (16
     + (if truthy (city business) then 4 else 0)
     + (if (0 <? List.length products)%nat
        then 3 * Nat.min 3 (List.length products) + 1 else 0)
     + 2 * Nat.min 2 (List.length services)
     + 2 * Nat.min 3 (List.length competitors))%nat
  /\ (16 <= List.length (generatePrompts business) <= 40)%nat.
Proof.
  cbv zeta.
  assert (E : List.length (generatePrompts business)
              = (16
                 + (if truthy (city business) then 4 else 0)
                 + (if (0 <? List.length (orEmpty (products business)))%nat
                    then 3 * Nat.min 3 (List.length (orEmpty (products business))) + 1
                    else 0)
                 + 2 * Nat.min 2 (List.length (orEmpty (services business)))
                 + 2 * Nat.min 3 (List.length (orEmpty (competitors business))))%nat).
  { unfold generatePrompts. cbv zeta.
    rewrite (truthy_orString (category business) (js "services")) by discriminate.
    rewrite !length_app.
    destruct (city business) as [[|c s]|]; cbn [truthy template app];
      destruct (0 <? List.length (orEmpty (products business)))%nat eqn:Ep;
      destruct (0 <? List.length (orEmpty (services business)))%nat eqn:Es;
      destruct (competitors business) as [comps|]; cbn [orEmpty];
      try destruct (0 <? List.length comps)%nat eqn:Ec;
      rewrite ?length_app, ?(length_flat_map_const _ 3), ?(length_flat_map_const _ 2),
        ?length_firstn by reflexivity;
      try apply Nat.ltb_ge in Es; try apply Nat.ltb_ge in Ec;
      cbn [List.length]; lia. }
  split; [exact E|]. rewrite E.
  destruct (truthy (city business)),
    (0 <? List.length (orEmpty (products business)))%nat; lia.
Qed.

(** X13.  The number of prompts generated for a business is 16, plus 4
    when it has a city, plus [3 * min(3, products) + 1] when it has a
    product, plus [2 * min(2, services)], plus [2 * min(3, competitors)]:
    between 16 and 40 in all.  The category prompts are always there,
    with the category [services] when the business has none. *)
Theorem generatePrompts_length (business : Business) :
  let products := orEmpty (products business) in
  let services := orEmpty (services business) in
  let competitors := orEmpty (competitors business) in
  List.length (generatePrompts business)
  = (16
     + (if truthy (city business) then 4 else 0)
     + (if (0 <? List.length products)%nat
        then 3 * Nat.min 3 (List.length products) + 1 else 0)
     + 2 * Nat.min 2 (List.length services)
     + 2 * Nat.min 3 (List.length competitors))%nat
  /\ (16 <= List.length (generatePrompts business) <= 40)%nat.
Proof. exact (generatePrompts_count business). Qed.

Lemma firstn_nonempty {A : Type} (k : nat) (l : list A) :
  (0 <? List.length (firstn (S k) l))%nat = (0 <? List.length l)%nat.
Proof. destruct l; reflexivity. Qed.

Lemma orString_idempotent (o : option jsstring) (d : jsstring) :
  d <> [] -> orString (Some (orString o d)) d = orString o d.
Proof.
  intros Hd. unfold orString at 1. rewrite (truthy_orString o d Hd). reflexivity.
Qed.

(** X14.  The prompts depend only on the name, the category or its
    default, the city, the country when there is a city, and the first
    three products, two services and three competitors. *)
Theorem generatePrompts_reads (business : Business) :
  generatePrompts (promptView business) = generatePrompts business.
Proof.
  unfold generatePrompts, promptView.
  cbn [name category city country products services competitors orEmpty].
  rewrite orString_idempotent by discriminate.
  rewrite !firstn_nonempty, !firstn_firstn. cbn [Nat.min].
  destruct (competitors business) as [comps|]; cbn [orEmpty List.length firstn Nat.ltb Nat.leb];
    destruct (truthy (city business)); reflexivity.
Qed.

(** X15.  A scan sends one query for each prompt and platform.  A QUICK
    scan asks the first five prompts, which are HIGH-priority questions
    about the name alone; any other scan asks all the prompts, between
    16 and 40 for each platform. *)
Theorem scan_size (business : Business) (scanType : jsstring)
    (platforms : list jsstring) :
  let prompts := limitedPrompts scanType (generatePrompts business) in
  let queries := scanQueries prompts platforms in
  List.length queries = (List.length prompts * List.length platforms)%nat
  /\ (scanType = js "QUICK" ->
      map prompt prompts
      = [ js "Tell me about " ++ name business;
          js "What is " ++ name business ++ js "?";
          js "Is " ++ name business ++ js " good?";
          js "Should I use " ++ name business ++ js "?";
          js "Would you recommend " ++ name business ++ js "?" ]
      /\ Forall (fun p => priority p = HIGH) prompts)
  /\ (scanType <> js "QUICK" ->
      prompts = generatePrompts business
      /\ (16 * List.length platforms <= List.length queries
          <= 40 * List.length platforms)%nat).
Proof.
  cbv zeta. split; [|split].
  - unfold scanQueries.
    rewrite (length_flat_map_const _ (List.length platforms)); [lia|].
    intros a. apply length_map.
  - intros ->. unfold limitedPrompts.
    destruct (list_eq_dec N.eq_dec (js "QUICK") (js "QUICK")) as [_|N];
      [|contradiction].
    split; [reflexivity|]. repeat constructor.
  - intros Hq. unfold limitedPrompts.
    destruct (list_eq_dec N.eq_dec scanType (js "QUICK")) as [E|_];
      [contradiction|].
    split; [reflexivity|].
    unfold scanQueries.
    rewrite (length_flat_map_const _ (List.length platforms))
      by (intros a; apply length_map).
    destruct (generatePrompts_count business) as [_ B]. nia.
Qed.

(** ** The stored row, the alert and the report *)

Local Open Scope Z_scope.

Lemma ltb_scf (x y : number) :
  finiteb x = true -> finiteb y = true ->
  (ltb x y = true <-> scf x < scf y).
Proof.
  intros Hx Hy. unfold ltb, SFltb. rewrite (SFcompare_scf x y Hx Hy).
  destruct (Z.compare_spec (scf x) (scf y)); split; intros K;
    try reflexivity; try lia; discriminate K.
Qed.

(** The value of an integer-valued number. *)
Lemma toInt_value (x : number) :
  finiteb x = true -> isInteger x = true -> scf x = toInt x * unitOne.
Proof.
  intros F I. destruct x as [s|s| |s m e]; try discriminate F; [reflexivity|].
  destruct (canonical_facts _ _ _ F) as (He & _).
  cbn [scf toInt isInteger] in *. rewrite sc_opp. unfold sc.
  destruct (Z.leb_spec 0 e) as [H|H].
  - assert (Hpow : 2 ^ (e - unitExp) = 2 ^ e * unitOne).
    { unfold unitOne. rewrite <- Z.pow_add_r by (unfold unitExp; lia). f_equal; lia. }
    rewrite Hpow. destruct s; cbn [cond_Zopp]; ring.
  - cbn [orb] in I. apply Z.eqb_eq in I.
    assert (Pd : 0 < 2 ^ (- e)) by (apply Z.pow_pos_nonneg; lia).
    assert (Hpow : unitOne = 2 ^ (e - unitExp) * 2 ^ (- e)).
    { unfold unitOne. rewrite <- Z.pow_add_r by (unfold unitExp; lia). f_equal; lia. }
    pose proof (Z.div_mod (Zpos m) (2 ^ (- e)) ltac:(lia)) as D.
    rewrite I, Z.add_0_r in D.
    rewrite Hpow. destruct s; cbn [cond_Zopp]; nia.
Qed.

Lemma Pct_isScore (x : number) : Pct x -> isInteger x = true -> isScore x.
Proof. intros P I. split; [exact I|apply Pct_between, P]. Qed.

Lemma calculateScores_isScore (b : list Analysis) :
  Z.of_nat (List.length b) < 2 ^ 53 -> Forall scoresInRange b ->
  let s := calculateScores b in
  isScore (overall_score s) /\ isScore (ai_trust_score s)
  /\ isScore (ai_visibility_score s) /\ isScore (ai_recommendation_score s)
  /\ isScore (ai_citation_score s) /\ isScore (sentiment_score s)
  /\ isScore (confidence_score s).
Proof.
  intros Hb Hall s.
  destruct (calculateScores_allPct b Hb Hall) as (P1 & P2 & P3 & P4 & P5 & P6 & P7).
  destruct (calculateScores_allInteger b Hb Hall) as (I1 & I2 & I3 & I4 & I5 & I6 & I7).
  repeat split; first [assumption | apply Pct_between; assumption].
Qed.

(** The mean of two scores, rounded, is a score. *)
Lemma mean_isScore (t v : number) :
  Pct t -> Pct v -> isScore (Math_round (div (add t v) (ofZ 2))).
Proof.
  intros [Ft Bt] [Fv Bv]. pose proof unitOne_pos as HG.
  destruct (add_nonneg t v (100 * unitOne) (100 * unitOne) (200 * unitOne))
    as [Fa Ba]; try assumption; [apply SOn_int; reflexivity|lia|].
  destruct (ofZ_exact 2 ltac:(reflexivity)) as [F2 V2].
  destruct (div_bounds (add t v) (ofZ 2) 0 (100 * unitOne)) as [Fd Bd];
    [exact Fa|exact F2|rewrite V2; lia|apply OnGrid_0|apply SOn_100
    |rewrite V2; nia|].
  change (SFdiv 53 1024) with div in Fd, Bd.
  assert (P : Pct (Math_round (div (add t v) (ofZ 2)))).
  { apply round_pct; [exact Fd|lia|lia]. }
  apply Pct_isScore; [exact P|].
  apply Math_round_isInteger, P.
Qed.

(** X16.  Every score column of the row the scan handler stores is an
    integer between 0 and 100: the seven scores of the aggregator, the
    five columns computed from the business row, and the category
    authority, which is the rounded mean of trust and visibility. *)
Theorem stored_scores_in_range (responses : list jsstring) (business : Business)
    (prevScore : option column) :
  Z.of_nat (List.length responses) < 2 ^ 32 ->
  let analyses :=
    analyzeAll responses (name business) (orEmpty (competitors business)) in
  rowInRange (scoreRow business (calculateScores analyses) prevScore).
Proof.
  intros Hn analyses.
  assert (Hb : Z.of_nat (List.length analyses) < 2 ^ 53).
  { pose proof (analyzeAll_length responses (name business)
                  (orEmpty (competitors business))).
    fold analyses in H. lia. }
  pose proof (analyzeAll_inRange responses (name business)
                (orEmpty (competitors business))) as Hall.
  fold analyses in Hall.
  destruct (calculateScores_isScore analyses Hb Hall)
    as (S1 & S2 & S3 & S4 & S5 & S6 & S7).
  destruct (calculateScores_allPct analyses Hb Hall) as (_ & P2 & P3 & _).
  unfold rowInRange, scoreRow.
  cbn [row_scores local_visibility_score social_discovery_score
       review_strength_score website_optimization_score
       technical_readiness_score category_authority_score].
  repeat (split; [assumption|]).
  split; [destruct (truthy (city business)); split; vm_compute; tauto|].
  split.
  { unfold count. cbn [filter].
    destruct (truthy (instagram_handle business)),
      (truthy (tiktok_handle business)), (truthy (facebook_url business));
      split; vm_compute; tauto. }
  split; [split; vm_compute; tauto|].
  split; [destruct (truthy (website business)); split; vm_compute; tauto|].
  split; [split; vm_compute; tauto|].
  apply mean_isScore; assumption.
Qed.

Lemma stored_scores_in_range_witness :
  let business :=
    {| name := acme; category := None; city := None; country := None;
       website := None; instagram_handle := None; tiktok_handle := None;
       facebook_url := None; products := None; services := None;
       competitors := None |} in
  let responses := [plainResponse; praiseResponse] in
  Z.of_nat (List.length responses) < 2 ^ 32
  /\ rowInRange
       (scoreRow business
          (calculateScores
             (analyzeAll responses (name business) (orEmpty (competitors business))))
          None).
Proof.
  assert (H : Z.of_nat (List.length [plainResponse; praiseResponse]) < 2 ^ 32)
    by reflexivity.
  split; [exact H|].
  exact (stored_scores_in_range [plainResponse; praiseResponse]
           {| name := acme; category := None; city := None; country := None;
              website := None; instagram_handle := None; tiktok_handle := None;
              facebook_url := None; products := None; services := None;
              competitors := None |} None H).
Defined.

Lemma sub_int (x : number) (k p : Z) :
  finiteb x = true -> scf x = k * unitOne ->
  Z.abs k < 2 ^ 52 -> Z.abs p < 2 ^ 52 ->
  finiteb (sub x (ofZ p)) = true /\ scf (sub x (ofZ p)) = (k - p) * unitOne.
Proof.
  intros F V Hk Hp.
  destruct (ofZ_exact p ltac:(lia)) as [Fp Vp].
  assert (S : SOn ((k - p) * unitOne)).
  { apply SOn_int. change (2 ^ 53) with (2 ^ 52 + 2 ^ 52). lia. }
  destruct (sub_bounds x (ofZ p) ((k - p) * unitOne) ((k - p) * unitOne))
    as [Fs Bs]; [exact F|exact Fp|exact S|exact S|rewrite V, Vp; lia|].
  change (SFsub 53 1024) with sub in Fs, Bs.
  split; [exact Fs|lia].
Qed.

(** X17.  The overall score of a scan is an integer between 0 and 100, and
    the score-drop test the handler makes on numbers, against a previous
    score read from an [INT] column, has the outcome of the same test on
    integers, a NULL previous score counting as 0.  A previous row with a
    NULL overall score therefore never raises the alert. *)
Theorem scoreDrop_on_numbers (responses : list jsstring) (businessName : jsstring)
    (competitors : list jsstring) (prevScore : option column) :
  Z.of_nat (List.length responses) < 2 ^ 32 ->
  (forall prev, prevScore = Some (Some prev) -> - 2 ^ 31 <= prev < 2 ^ 31) ->
  let overall :=
    overall_score (calculateScores (analyzeAll responses businessName competitors)) in
  0 <= toInt overall <= 100
  /\ scoreDropSeverity overall prevScore
     = option_map severity
         (scoreDropAlert (toInt overall) (option_map columnValue prevScore))
  /\ (prevScore = Some None -> scoreDropSeverity overall prevScore = None).
Proof.
  intros Hn Hp overall.
  set (analyses := analyzeAll responses businessName competitors) in *.
  assert (Hb : Z.of_nat (List.length analyses) < 2 ^ 53).
  { pose proof (analyzeAll_length responses businessName competitors).
    fold analyses in H. lia. }
  pose proof (analyzeAll_inRange responses businessName competitors) as Hall.
  fold analyses in Hall.
  destruct (calculateScores_allPct analyses Hb Hall) as ([F B] & _).
  destruct (calculateScores_allInteger analyses Hb Hall) as (I & _).
  fold overall in F, B, I.
  pose proof (toInt_value overall F I) as V.
  pose proof unitOne_pos as HG.
  assert (K : 0 <= toInt overall <= 100) by nia.
  split; [exact K|].
  assert (E : scoreDropSeverity overall prevScore
              = option_map severity
                  (scoreDropAlert (toInt overall) (option_map columnValue prevScore))).
  2: { split; [exact E|]. intros ->. rewrite E.
       cbn [option_map columnValue]. unfold scoreDropAlert.
       destruct (Z.ltb_spec (toInt overall) (0 - 10)) as [A|A]; [lia|reflexivity]. }
  destruct prevScore as [c|]; [|reflexivity].
  assert (Hc : - 2 ^ 31 <= columnValue c < 2 ^ 31).
  { destruct c as [z|]; [apply Hp; reflexivity|cbn [columnValue]; lia]. }
  clear Hp. cbn [option_map]. unfold scoreDropSeverity, columnNumber.
  set (prev := columnValue c) in *. clearbody prev.
  unfold scoreDropAlert.
  destruct (ofZ_exact prev ltac:(lia)) as [Fp Vp].
  destruct (sub_int (ofZ prev) prev 10 Fp Vp ltac:(lia) ltac:(reflexivity)) as [F10 V10].
  destruct (sub_int (ofZ prev) prev 20 Fp Vp ltac:(lia) ltac:(reflexivity)) as [F20 V20].
  pose proof (ltb_scf overall _ F F10) as L10.
  pose proof (ltb_scf overall _ F F20) as L20.
  rewrite V, V10 in L10. rewrite V, V20 in L20.
  destruct (Z.ltb_spec (toInt overall) (prev - 10)) as [A|A].
  - replace (ltb overall (sub (ofZ prev) (ofZ 10))) with true
      by (symmetry; apply L10; nia).
    cbn [option_map severity].
    destruct (Z.ltb_spec (toInt overall) (prev - 20)) as [C|C].
    + replace (ltb overall (sub (ofZ prev) (ofZ 20))) with true
        by (symmetry; apply L20; nia).
      reflexivity.
    + replace (ltb overall (sub (ofZ prev) (ofZ 20))) with false; [reflexivity|].
      symmetry. apply not_true_iff_false. intros T. apply L20 in T. nia.
  - replace (ltb overall (sub (ofZ prev) (ofZ 10))) with false; [reflexivity|].
    symmetry. apply not_true_iff_false. intros T. apply L10 in T. nia.
Qed.

Lemma scoreDrop_on_numbers_witness :
  let responses := [plainResponse; praiseResponse] in
  let overall := overall_score (calculateScores (analyzeAll responses acme [])) in
  Z.of_nat (List.length responses) < 2 ^ 32
  /\ scoreDropSeverity overall (Some (Some 80))
     = option_map severity (scoreDropAlert (toInt overall) (Some 80)).
Proof.
  assert (H : Z.of_nat (List.length [plainResponse; praiseResponse]) < 2 ^ 32)
    by reflexivity.
  assert (P : forall prev, Some (Some 80) = Some (Some prev)
                           -> - 2 ^ 31 <= prev < 2 ^ 31).
  { intros prev [= <-]. split; [discriminate|reflexivity]. }
  split; [exact H|].
  exact (proj1 (proj2 (scoreDrop_on_numbers [plainResponse; praiseResponse] acme []
                         (Some (Some 80)) H P))).
Defined.

Ltac in_constants H :=
  cbn [app In]; split; intros H;
  [ try reflexivity;
    repeat (destruct H as [H|H]; [try (vm_compute in H; discriminate H)|]);
    try contradiction
  | try discriminate H; repeat first [left; reflexivity | right] ].

Lemma In_highlights (scores : Scores) :
  (In (js "Strong AI visibility") (highlightsOf scores)
   <-> leb (ofZ 70) (ai_visibility_score scores) = true)
  /\ (In (js "High AI trust signals") (highlightsOf scores)
      <-> leb (ofZ 70) (ai_trust_score scores) = true).
Proof.
  unfold highlightsOf.
  destruct (leb (ofZ 70) (ai_visibility_score scores)),
    (leb (ofZ 70) (ai_trust_score scores)),
    (leb (ofZ 60) (ai_recommendation_score scores));
    (split; in_constants H).
Qed.

Lemma In_criticalIssues (scores : Scores) (analyses : list Analysis) :
  (In (js "Very low AI visibility") (criticalIssuesOf scores analyses)
   <-> ltb (ai_visibility_score scores) (ofZ 30) = true)
  /\ (In (js "Trust issues detected") (criticalIssuesOf scores analyses)
      <-> ltb (ai_trust_score scores) (ofZ 30) = true)
  /\ (In (js "Negative mentions found") (criticalIssuesOf scores analyses)
      <-> existsb (fun a => MentionType_eqb (mentionType a) NEGATIVE) analyses = true).
Proof.
  unfold criticalIssuesOf.
  destruct (ltb (ai_visibility_score scores) (ofZ 30)),
    (ltb (ai_trust_score scores) (ofZ 30)),
    (existsb (fun a => MentionType_eqb (mentionType a) NEGATIVE) analyses);
    (split; [|split]; in_constants H).
Qed.

Lemma MentionType_eqb_eq (a b : MentionType) : MentionType_eqb a b = true <-> a = b.
Proof. destruct a, b; split; intros H; try reflexivity; discriminate H. Qed.

Lemma not_both (x : number) :
  Pct x -> ~ (leb (ofZ 70) x = true /\ ltb x (ofZ 30) = true).
Proof.
  intros [F B] [H1 H2]. pose proof unitOne_pos.
  destruct (ofZ_exact 70 ltac:(reflexivity)) as [F70 V70].
  destruct (ofZ_exact 30 ltac:(reflexivity)) as [F30 V30].
  apply (leb_scf _ _ F70 F) in H1. apply (ltb_scf _ _ F F30) in H2. lia.
Qed.

Lemma analyzeAll_Forall (P : Analysis -> Prop) (responses : list jsstring)
    (businessName : jsstring) (competitors : list jsstring) :
  (forall r a, analyzeResponse r businessName competitors = Some a -> P a) ->
  Forall P (analyzeAll responses businessName competitors).
Proof.
  intros H. unfold analyzeAll.
  induction responses as [|r rs IH]; cbn [flat_map]; [constructor|].
  apply Forall_app. split; [|exact IH].
  destruct (analyzeResponse r businessName competitors) as [a|] eqn:Ha;
    [|constructor].
  constructor; [|constructor]. eapply H, Ha.
Qed.

Lemma negative_is_mentioned (r businessName : jsstring) (competitors : list jsstring)
    (a : Analysis) :
  analyzeResponse r businessName competitors = Some a ->
  mentionType a = NEGATIVE -> mentioned a = true.
Proof.
  intros Ha.
  destruct (analyzeResponse_fields r businessName competitors)
    as (a' & Ha' & _ & _ & _ & _ & _ & _ & _ & _ & _ & Ht).
  rewrite Ha in Ha'. injection Ha' as <-.
  rewrite Ht. destruct (mentioned a); [reflexivity|discriminate].
Qed.

Lemma visibility_zero (analyses : list Analysis) :
  Z.of_nat (List.length analyses) < 2 ^ 53 ->
  Forall (fun a => mentioned a = false) analyses ->
  ai_visibility_score (calculateScores analyses) = ofZ 0.
Proof.
  intros Hb Hm. unfold calculateScores.
  destruct analyses as [|a l] eqn:E; [reflexivity|]. rewrite <- E in *.
  assert (Hn : (0 < List.length analyses)%nat) by (rewrite E; cbn; lia).
  replace (List.length analyses =? 0)%nat with false
    by (symmetry; apply Nat.eqb_neq; lia).
  cbn [ai_visibility_score].
  rewrite (count_none _ _ Hm). apply rate_score_zero; assumption.
Qed.

(** X18.  A scan never reports [Strong AI visibility] together with
    [Very low AI visibility], nor [High AI trust signals] together with
    [Trust issues detected].  When no response mentions the business (in
    particular when no response arrived), [Very low AI visibility] is
    reported and neither [Strong AI visibility] nor
    [Negative mentions found] is.  [Negative mentions found] is reported
    exactly when some analysis has the mention type NEGATIVE. *)
Theorem highlights_and_issues (responses : list jsstring) (businessName : jsstring)
    (competitors : list jsstring) :
  Z.of_nat (List.length responses) < 2 ^ 32 ->
  let analyses := analyzeAll responses businessName competitors in
  let scores := calculateScores analyses in
  let highlights := highlightsOf scores in
  let criticalIssues := criticalIssuesOf scores analyses in
  ~ (In (js "Strong AI visibility") highlights
     /\ In (js "Very low AI visibility") criticalIssues)
  /\ ~ (In (js "High AI trust signals") highlights
        /\ In (js "Trust issues detected") criticalIssues)
  /\ (Forall (fun a => mentioned a = false) analyses ->
      In (js "Very low AI visibility") criticalIssues
      /\ ~ In (js "Strong AI visibility") highlights
      /\ ~ In (js "Negative mentions found") criticalIssues)
  /\ (In (js "Negative mentions found") criticalIssues
      <-> Exists (fun a => mentionType a = NEGATIVE) analyses).
Proof.
  intros Hn analyses scores highlights criticalIssues.
  assert (Hb : Z.of_nat (List.length analyses) < 2 ^ 53).
  { pose proof (analyzeAll_length responses businessName competitors).
    fold analyses in H. lia. }
  pose proof (analyzeAll_inRange responses businessName competitors) as Hall.
  fold analyses in Hall.
  destruct (calculateScores_allPct analyses Hb Hall) as (_ & Pt & Pv & _).
  fold scores in Pt, Pv.
  destruct (In_highlights scores) as (Hv & Ht).
  destruct (In_criticalIssues scores analyses) as (Cv & Ct & Cn).
  fold highlights in Hv, Ht. fold criticalIssues in Cv, Ct, Cn.
  assert (Neg : In (js "Negative mentions found") criticalIssues
                <-> Exists (fun a => mentionType a = NEGATIVE) analyses).
  { rewrite Cn, existsb_exists, Exists_exists.
    split; intros (a & Ha & E); exists a; (split; [exact Ha|]);
      apply MentionType_eqb_eq; exact E. }
  split; [|split; [|split; [|exact Neg]]].
  - rewrite Hv, Cv. apply not_both, Pv.
  - rewrite Ht, Ct. apply not_both, Pt.
  - intros Hm.
    pose proof (visibility_zero analyses Hb Hm) as V0. fold scores in V0.
    split; [rewrite Cv, V0; reflexivity|].
    split; [rewrite Hv, V0; discriminate|].
    rewrite Neg, Exists_exists. intros (a & Ha & E).
    rewrite Forall_forall in Hm. specialize (Hm a Ha).
    pose proof (analyzeAll_Forall
                  (fun a => mentionType a = NEGATIVE -> mentioned a = true)
                  responses businessName competitors
                  (fun r a H => negative_is_mentioned r businessName competitors a H))
      as K.
    fold analyses in K. rewrite Forall_forall in K.
    specialize (K a Ha E). congruence.
Qed.

Lemma highlights_and_issues_witness :
  let responses := [plainResponse; praiseResponse] in
  let analyses := analyzeAll responses acme [] in
  let scores := calculateScores analyses in
  Z.of_nat (List.length responses) < 2 ^ 32
  /\ ~ (In (js "Strong AI visibility") (highlightsOf scores)
        /\ In (js "Very low AI visibility") (criticalIssuesOf scores analyses)).
Proof.
  assert (H : Z.of_nat (List.length [plainResponse; praiseResponse]) < 2 ^ 32)
    by reflexivity.
  split; [exact H|].
  exact (proj1 (highlights_and_issues [plainResponse; praiseResponse] acme [] H)).
Defined.

Local Close Scope Z_scope.

(** ** The competitor benchmark *)

Local Open Scope Z_scope.

Lemma numbers_sum_bounds (c : Z) (xs : list spec_float) :
  0 <= c <= 1 ->
  Forall (fun x => finiteb x = true /\ - c * unitOne <= scf x <= unitOne) xs ->
  forall (acc : spec_float) (i : Z),
    0 <= i -> finiteb acc = true -> - c * i * unitOne <= scf acc <= i * unitOne ->
    i + Z.of_nat (List.length xs) < 2 ^ 53 ->
    let r := fold_left add xs acc in
    let n := i + Z.of_nat (List.length xs) in
    finiteb r = true /\ - c * n * unitOne <= scf r <= n * unitOne.
Proof.
  intros Hc Hall. pose proof unitOne_pos as HG.
  induction Hall as [|x xs [Fx Bx] _ IH]; intros acc i Hi Facc Bacc Hn.
  - cbn [fold_left List.length]. rewrite Z.add_0_r. split; assumption.
  - cbn [fold_left]. cbn [List.length] in *.
    rewrite Nat2Z.inj_succ in *.
    replace (i + Z.succ (Z.of_nat (List.length xs)))
      with ((i + 1) + Z.of_nat (List.length xs)) by lia.
    assert (Hstep : finiteb (add acc x) = true
                    /\ - c * (i + 1) * unitOne <= scf (add acc x) <= (i + 1) * unitOne).
    { replace (- c * (i + 1) * unitOne) with ((- c * (i + 1)) * unitOne) by ring.
      apply add_bounds;
        [exact Facc|exact Fx|apply SOn_int; nia|apply SOn_int; lia|nia]. }
    destruct Hstep as [Fs Bs].
    apply IH; try assumption; lia.
Qed.

Lemma fold_left_map_add {A : Type} (f : A -> number) (l : list A) (acc : number) :
  fold_left (fun sum a => add sum (f a)) l acc = fold_left add (map f l) acc.
Proof.
  revert acc. induction l as [|a l IH]; intros acc; [reflexivity|].
  cbn [fold_left map]. apply IH.
Qed.

Lemma analyzeCompetitorAll_length (responses : list jsstring) (competitor : jsstring) :
  (List.length (analyzeCompetitorAll responses competitor) <= List.length responses)%nat.
Proof.
  unfold analyzeCompetitorAll.
  induction responses as [|r rs IH]; cbn [flat_map List.length]; [lia|].
  rewrite length_app.
  destruct (analyzeCompetitorResponse r competitor); cbn [List.length]; lia.
Qed.

Lemma analyzeCompetitorAll_sentiment (responses : list jsstring) (competitor : jsstring) :
  Forall (fun a => finiteb (c_sentimentScore a) = true
                   /\ - unitOne <= scf (c_sentimentScore a) <= unitOne)
    (analyzeCompetitorAll responses competitor).
Proof.
  unfold analyzeCompetitorAll.
  induction responses as [|r rs IH]; cbn [flat_map]; [constructor|].
  apply Forall_app. split; [|exact IH].
  destruct (analyzeCompetitorResponse r competitor) as [a|] eqn:Ha; [|constructor].
  constructor; [|constructor].
  destruct (analyzeCompetitorResponse_fields _ _ _ Ha)
    as (re & _ & _ & _ & P & N & S & _).
  cbv zeta in *.
  pose proof (hits_length competitorPositiveWords (toLowerCase r)) as Lp.
  pose proof (hits_length competitorNegativeWords (toLowerCase r)) as Ln.
  change (List.length competitorPositiveWords) with 6%nat in Lp.
  change (List.length competitorNegativeWords) with 5%nat in Ln.
  rewrite <- P in Lp. rewrite <- N in Ln.
  rewrite S. apply sentimentOf_range; lia.
Qed.

(** The estimated trust of a competitor. *)
Lemma estTrust_pct (l : list CompetitorAnalysis) :
  (0 < List.length l)%nat -> Z.of_nat (List.length l) < 2 ^ 53 ->
  Forall (fun a => finiteb (c_sentimentScore a) = true
                   /\ - unitOne <= scf (c_sentimentScore a) <= unitOne) l ->
  Pct (Math_round
         (add (mul (div (add (div (fold_left (fun sum a => add sum (c_sentimentScore a))
                                     l (ofZ 0))
                                  (ofNat (List.length l)))
                             (ofZ 1))
                        (ofZ 2))
                   (ofZ 70))
              (mul (div (ofNat (count c_isRecommended l)) (ofNat (List.length l)))
                   (ofZ 30)))).
Proof.
  intros Hn Hb Hall. pose proof unitOne_pos as HG.
  destruct (ofNat_exact _ Hb) as [FN VN].
  destruct (ofZ_exact 1 ltac:(reflexivity)) as [F1 V1].
  destruct (ofZ_exact 2 ltac:(reflexivity)) as [F2 V2].
  destruct (ofZ_exact 70 ltac:(reflexivity)) as [F70 V70].
  destruct (ofZ_exact 30 ltac:(reflexivity)) as [F30 V30].
  rewrite fold_left_map_add.
  pose proof (numbers_sum_bounds 1 (map c_sentimentScore l) ltac:(lia)) as K.
  specialize (K ltac:(apply Forall_map; eapply Forall_impl; [|exact Hall];
                      intros a [Fa Ba]; split; [exact Fa|lia])
                (ofZ 0) 0 ltac:(lia) ltac:(reflexivity)).
  cbv zeta in K. rewrite !Z.add_0_l, length_map in K.
  destruct K as [FS BS]; [cbn [scf ofZ binary_normalize]; lia|exact Hb|].
  set (sum := fold_left add (map c_sentimentScore l) (ofZ 0)) in *.
  assert (Havg : finiteb (div sum (ofNat (List.length l))) = true
                 /\ (-1) * unitOne <= scf (div sum (ofNat (List.length l)))
                    <= 1 * unitOne).
  { apply div_bounds;
      [exact FS|exact FN|rewrite VN; nia| | |rewrite VN; nia];
      apply SOn_int; reflexivity. }
  destruct Havg as [Fa Ba].
  set (avg := div sum (ofNat (List.length l))) in *.
  assert (Hp : finiteb (add avg (ofZ 1)) = true
               /\ 0 <= scf (add avg (ofZ 1)) <= 2 * unitOne).
  { apply add_bounds;
      [exact Fa|exact F1|apply OnGrid_0|apply SOn_int; reflexivity|rewrite V1; lia]. }
  destruct Hp as [Fp Bp].
  assert (Hh : Unit (div (add avg (ofZ 1)) (ofZ 2))).
  { apply div_bounds;
      [exact Fp|exact F2|rewrite V2; lia|apply OnGrid_0| |rewrite V2; nia].
    replace unitOne with (1 * unitOne) by ring. apply SOn_int. reflexivity. }
  destruct Hh as [Fh Bh].
  destruct (mul_nonneg _ (ofZ 70) unitOne (70 * unitOne) (70 * unitOne) Fh F70 Bh
              ltac:(lia) (SOn_int 70 ltac:(reflexivity)) ltac:(nia)) as [Fm Bm].
  destruct (rate_unit (count c_isRecommended l) _ (count_le _ l) Hn Hb) as [Fr Br].
  destruct (mul_nonneg _ (ofZ 30) unitOne (30 * unitOne) (30 * unitOne) Fr F30 Br
              ltac:(lia) (SOn_int 30 ltac:(reflexivity)) ltac:(nia)) as [Fq Bq].
  destruct (add_nonneg _ _ _ _ (100 * unitOne) Fm Fq Bm Bq SOn_100 ltac:(lia))
    as [F B].
  apply round_pct; [exact F|lia|lia].
Qed.

(** X19.  The competitor scan computes no benchmark for a competitor
    without an analysis; otherwise the estimated visibility, trust and
    recommendation scores are integers between 0 and 100.  (The analyses
    are those of the analyzer as modelled: a name whose pattern is
    outside the fragment has none.) *)
Theorem competitor_estimates_in_range (responses : list jsstring)
    (competitor : jsstring) (yourScore : StoredScore.t) :
  Z.of_nat (List.length responses) < 2 ^ 32 ->
  let competitorAnalyses := analyzeCompetitorAll responses competitor in
  (competitorAnalyses = [] -> benchmarkOf competitor yourScore competitorAnalyses = None)
  /\ (competitorAnalyses <> [] ->
      exists b,
        benchmarkOf competitor yourScore competitorAnalyses = Some b
        /\ isScore (estVisibility b)
        /\ isScore (estTrust b)
        /\ isScore (estRecommendation b)).
Proof.
  intros Hn l.
  split; [intros ->; reflexivity|]. intros Hne.
  assert (Hl : (0 < List.length l)%nat) by (destruct l; [contradiction|cbn; lia]).
  assert (Hb : Z.of_nat (List.length l) < 2 ^ 53).
  { pose proof (analyzeCompetitorAll_length responses competitor) as L.
    fold l in L. lia. }
  pose proof (analyzeCompetitorAll_sentiment responses competitor) as Hall.
  fold l in Hall.
  unfold benchmarkOf.
  replace (0 <? List.length l)%nat with true by (symmetry; apply Nat.ltb_lt; exact Hl).
  eexists. split; [reflexivity|].
  cbn [estVisibility estTrust estRecommendation].
  pose proof (rate_score (count c_mentioned l) _ (count_le _ l) Hl Hb) as Pv.
  pose proof (rate_score (count c_isRecommended l) _ (count_le _ l) Hl Hb) as Pr.
  pose proof (estTrust_pct l Hl Hb Hall) as Pt.
  repeat split; try (apply Math_round_isInteger; first [apply Pv|apply Pt|apply Pr]);
    apply Pct_between; assumption.
Qed.

Lemma competitor_estimates_in_range_witness :
  let responses := [js "I recommend Acme, a great shop."; plainResponse] in
  Z.of_nat (List.length responses) < 2 ^ 32
  /\ (analyzeCompetitorAll responses acme <> [] ->
      exists b,
        benchmarkOf acme
          {| StoredScore.ai_visibility_score := Some 40;
             StoredScore.ai_trust_score := Some 55;
             StoredScore.ai_recommendation_score := None |}
          (analyzeCompetitorAll responses acme)
        = Some b
        /\ isScore (estVisibility b)
        /\ isScore (estTrust b)
        /\ isScore (estRecommendation b)).
Proof.
  assert (H : Z.of_nat (List.length [js "I recommend Acme, a great shop."; plainResponse])
              < 2 ^ 32) by reflexivity.
  split; [exact H|].
  exact (proj2 (competitor_estimates_in_range
                  [js "I recommend Acme, a great shop."; plainResponse] acme
                  {| StoredScore.ai_visibility_score := Some 40;
                     StoredScore.ai_trust_score := Some 55;
                     StoredScore.ai_recommendation_score := None |} H)).
Defined.

Lemma diff_finite (c : column) (est : number) :
  StoredScore.isInt32 c -> Pct est -> finiteb (sub (columnNumber c) est) = true.
Proof.
  intros Hz [Fe Be]. unfold StoredScore.isInt32 in Hz. pose proof unitOne_pos.
  unfold columnNumber. set (z := columnValue c) in *. clearbody z.
  destruct (ofZ_exact z ltac:(lia)) as [Fz Vz].
  destruct (sub_bounds (ofZ z) est ((z - 100) * unitOne) (z * unitOne)) as [F _];
    [exact Fz|exact Fe|apply SOn_int; lia|apply SOn_int; lia|rewrite Vz; lia|].
  exact F.
Qed.

(** A difference below -20 is below -10 and not above 10. *)
Lemma far_behind (d : number) :
  finiteb d = true -> ltb d (ofZ (-20)) = true ->
  ltb (ofZ 10) d = false /\ ltb d (ofZ (-10)) = true.
Proof.
  intros F H. pose proof unitOne_pos.
  destruct (ofZ_exact (-20) ltac:(reflexivity)) as [F20 V20].
  destruct (ofZ_exact (-10) ltac:(reflexivity)) as [F10 V10].
  destruct (ofZ_exact 10 ltac:(reflexivity)) as [Fp Vp].
  apply (ltb_scf _ _ F F20) in H.
  split.
  - apply not_true_iff_false. intros K. apply (ltb_scf _ _ Fp F) in K. lia.
  - apply (ltb_scf _ _ F F10). lia.
Qed.

(** X20.  In a benchmark no area is both a strength and a weakness, there
    is one insight for each weakness, and the areas are three at most.
    A [COMPETITOR_OVERTAKE] alert is raised only when visibility or trust
    is among the weaknesses; a recommendation score that is behind by
    more than 20 does not raise it.  The stored scores of the business
    are 32-bit integers or NULL. *)
Theorem benchmark_areas (responses : list jsstring) (competitor : jsstring)
    (yourScore : StoredScore.t) (b : Benchmark) :
  Z.of_nat (List.length responses) < 2 ^ 32 ->
  StoredScore.valid yourScore ->
  benchmarkOf competitor yourScore (analyzeCompetitorAll responses competitor) = Some b ->
  (forall area, ~ (In area (strengthAreas b) /\ In area (weaknessAreas b)))
  /\ List.length (insights b) = List.length (weaknessAreas b)
  /\ (List.length (strengthAreas b) + List.length (weaknessAreas b) <= 3)%nat
  /\ (overtakeAlert b = true ->
      In (js "AI Visibility") (weaknessAreas b) \/ In (js "AI Trust") (weaknessAreas b))
  /\ (ltb (recommendationDiff b) (ofZ (-20)) = true ->
      ltb (visibilityDiff b) (ofZ (-20)) = false ->
      ltb (trustDiff b) (ofZ (-20)) = false ->
      overtakeAlert b = false).
Proof.
  intros Hn (Vv & Vt & Vr) Hb.
  set (l := analyzeCompetitorAll responses competitor) in *.
  assert (Hl : (0 < List.length l)%nat).
  { unfold benchmarkOf in Hb. destruct (0 <? List.length l)%nat eqn:E;
      [apply Nat.ltb_lt, E|discriminate Hb]. }
  assert (Hb53 : Z.of_nat (List.length l) < 2 ^ 53).
  { pose proof (analyzeCompetitorAll_length responses competitor) as L.
    fold l in L. lia. }
  pose proof (analyzeCompetitorAll_sentiment responses competitor) as Hall.
  fold l in Hall.
  pose proof (rate_score (count c_mentioned l) _ (count_le _ l) Hl Hb53) as Pv.
  pose proof (estTrust_pct l Hl Hb53 Hall) as Pt.
  pose proof (diff_finite _ _ Vv Pv) as Fv.
  pose proof (diff_finite _ _ Vt Pt) as Ft.
  unfold benchmarkOf in Hb.
  replace (0 <? List.length l)%nat with true in Hb
    by (symmetry; apply Nat.ltb_lt; exact Hl).
  cbv zeta in Hb.
  assert (Eb : Some b = Some b) by reflexivity.
  rewrite <- Hb in Eb at 1. clear Hb.
  apply (f_equal (fun o => match o with Some x => x | None => b end)) in Eb.
  cbv beta iota in Eb. subst b.
  cbv beta iota delta [strengthAreas weaknessAreas insights overtakeAlert
                       visibilityDiff trustDiff recommendationDiff].
  set (vd := sub (columnNumber (StoredScore.ai_visibility_score yourScore)) _) in *.
  set (td := sub (columnNumber (StoredScore.ai_trust_score yourScore)) _) in *.
  set (rd := sub (columnNumber (StoredScore.ai_recommendation_score yourScore)) _) in *.
  pose proof (fun H => far_behind vd Fv H) as Bv.
  pose proof (fun H => far_behind td Ft H) as Bt.
  clearbody vd td rd.
  set (sv := ltb (ofZ 10) vd) in *.
  set (st := ltb (ofZ 10) td) in *.
  set (sr := ltb (ofZ 10) rd) in *.
  set (wv := ltb vd (ofZ (-10))) in *.
  set (wt := ltb td (ofZ (-10))) in *.
  set (wr := ltb rd (ofZ (-10))) in *.
  split; [|split; [|split; [|split]]].
  - intros area [Hs Hw].
    destruct sv, st, sr, wv, wt, wr;
      cbn [app In] in Hs, Hw;
      repeat match goal with
        | H : _ \/ _ |- _ => destruct H as [H|H]
        | H : False |- _ => contradiction
        end;
      rewrite <- Hs in Hw; vm_compute in Hw; discriminate Hw.
  - destruct sv, st, sr, wv, wt, wr; reflexivity.
  - destruct sv, st, sr, wv, wt, wr; cbn; lia.
  - intros H. apply orb_true_iff in H. destruct H as [H|H].
    + destruct (Bv H) as [A B]. rewrite A, B. left. left. reflexivity.
    + destruct (Bt H) as [A B]. rewrite A, B. right.
      apply in_or_app. right. left. reflexivity.
  - intros _ -> ->. reflexivity.
Qed.

Lemma benchmark_areas_witness :
  let responses := [js "I recommend Acme, a great shop."; plainResponse] in
  let yourScore :=
    {| StoredScore.ai_visibility_score := Some 20;
       StoredScore.ai_trust_score := Some 55;
       StoredScore.ai_recommendation_score := None |} in
  exists b,
    benchmarkOf acme yourScore (analyzeCompetitorAll responses acme) = Some b
    /\ overtakeAlert b = true
    /\ (In (js "AI Visibility") (weaknessAreas b) \/ In (js "AI Trust") (weaknessAreas b)).
Proof.
  eexists. split; [vm_compute; reflexivity|].
  split; [vm_compute; reflexivity|].
  refine (proj1 (proj2 (proj2 (proj2
            (benchmark_areas [js "I recommend Acme, a great shop."; plainResponse] acme
               {| StoredScore.ai_visibility_score := Some 20;
                  StoredScore.ai_trust_score := Some 55;
                  StoredScore.ai_recommendation_score := None |} _ _ _ _)))) _).
  - reflexivity.
  - repeat split; vm_compute; congruence.
  - vm_compute. reflexivity.
  - vm_compute. reflexivity.
Defined.

Local Close Scope Z_scope.

(** ** The scheduled monitor *)

Lemma getPlatformsForPlan_cases (plan : jsstring) :
  getPlatformsForPlan plan = firstn 1 (getPlatformsForPlan (js "SCALE"))
  \/ getPlatformsForPlan plan = firstn 3 (getPlatformsForPlan (js "SCALE"))
  \/ getPlatformsForPlan plan = getPlatformsForPlan (js "SCALE").
Proof.
  unfold getPlatformsForPlan at 1 3 5.
  destruct (strictEq plan (js "FREE")); [left; reflexivity|].
  destruct (strictEq plan (js "STARTER")); [left; reflexivity|].
  destruct (strictEq plan (js "PROFESSIONAL")); [right; left; reflexivity|].
  destruct (strictEq plan (js "SCALE") || strictEq plan (js "CUSTOM"))%bool;
    [right; right; reflexivity|left; reflexivity].
Qed.

Lemma list_sum_bound (k : nat) (l : list nat) :
  Forall (fun n => (n <= k)%nat) l -> (list_sum l <= k * List.length l)%nat.
Proof.
  induction 1 as [|n l Hn _ IH]; [cbn; lia|].
  change (list_sum (n :: l)) with (n + list_sum l)%nat. cbn [List.length]. lia.
Qed.

(** X21.  The platforms of a plan are the first one, three or four of
    chatgpt, claude, perplexity and gemini, never none.  One run of the
    scheduled monitor requests 50 scans at most; each of them, when it
    runs, sends between 16 and 160 queries, hence at most 8000 queries
    for a run. *)
Theorem monitor_run_size (businessesToScan : list (Business * option jsstring)) :
  (forall plan : jsstring,
      getPlatformsForPlan plan <> []
      /\ (exists k, getPlatformsForPlan plan
                    = firstn k [js "chatgpt"; js "claude"; js "perplexity"; js "gemini"])
      /\ (1 <= List.length (getPlatformsForPlan plan) <= 4)%nat)
  /\ (List.length (monitorQueries businessesToScan) <= 50)%nat
  /\ Forall (fun queries => (16 <= List.length queries <= 160)%nat)
       (monitorQueries businessesToScan)
  /\ (list_sum (map (@List.length _) (monitorQueries businessesToScan)) <= 50 * 160)%nat.
Proof.
  assert (P : forall plan : jsstring,
             (1 <= List.length (getPlatformsForPlan plan) <= 4)%nat).
  { intros plan.
    destruct (getPlatformsForPlan_cases plan) as [E|[E|E]]; rewrite E; cbn; lia. }
  assert (Q : Forall (fun queries => (16 <= List.length queries <= 160)%nat)
                (monitorQueries businessesToScan)).
  { unfold monitorQueries. apply Forall_map, Forall_forall.
    intros [business plan] _.
    assert (Hs : js "SCHEDULED" <> js "QUICK") by (vm_compute; discriminate).
    unfold scanQueries, limitedPrompts.
    destruct (list_eq_dec N.eq_dec (js "SCHEDULED") (js "QUICK")) as [E|_];
      [contradiction|].
    rewrite (length_flat_map_const _
               (List.length (getPlatformsForPlan (orString plan (js "FREE")))))
      by (intros a; apply length_map).
    destruct (generatePrompts_count business) as [_ B].
    specialize (P (orString plan (js "FREE"))). nia. }
  assert (L : (List.length (monitorQueries businessesToScan) <= 50)%nat).
  { unfold monitorQueries. rewrite length_map, length_firstn. lia. }
  split; [|split; [exact L|split; [exact Q|]]].
  - intros plan. split; [|split; [|apply P]].
    + specialize (P plan). destruct (getPlatformsForPlan plan); [cbn in P; lia|discriminate].
    + destruct (getPlatformsForPlan_cases plan) as [E|[E|E]].
      * exists 1%nat. exact E.
      * exists 3%nat. exact E.
      * exists 4%nat. exact E.
  - pose proof (list_sum_bound 160 (map (@List.length _) (monitorQueries businessesToScan))) as S.
    rewrite length_map in S.
    assert (F : Forall (fun n => (n <= 160)%nat)
                  (map (@List.length _) (monitorQueries businessesToScan))).
    { apply Forall_map. eapply Forall_impl; [|exact Q]. cbv beta. intros a H. lia. }
    specialize (S F). lia.
Qed.

(** ** Category queries *)

(** An occurrence does not go over a code unit the word does not have. *)
Lemma startsWith_separator (w a b : jsstring) (x : codeUnit) :
  ~ In x w -> w <> [] -> startsWith w (a ++ x :: b) = startsWith w a.
Proof.
  revert a. induction w as [|y w IH]; intros a Hx Hw; [contradiction|].
  destruct a as [|c a]; cbn [app startsWith].
  - destruct (N.eqb_spec y x) as [->|_]; [|reflexivity].
    exfalso. apply Hx. left. reflexivity.
  - destruct (N.eqb y c); [|reflexivity]. cbn [andb].
    destruct w as [|z w]; [destruct (a ++ x :: b), a; reflexivity|].
    apply IH; [|discriminate]. intros H. apply Hx. right. exact H.
Qed.

Lemma includes_separator (w a b : jsstring) (x : codeUnit) :
  ~ In x w -> w <> [] ->
  includes (a ++ x :: b) w = (includes a w || includes b w)%bool.
Proof.
  intros Hx Hw. induction a as [|c a IH].
  - pose proof (startsWith_separator w [] b x Hx Hw) as E. cbn [app] in E.
    cbn [app includes]. rewrite E.
    destruct w as [|y w]; [contradiction|]. reflexivity.
  - cbn [app]. cbn [includes].
    change (c :: a ++ x :: b) with ((c :: a) ++ x :: b).
    rewrite (startsWith_separator w (c :: a) b x Hx Hw), IH.
    destruct (startsWith w (c :: a)); reflexivity.
Qed.

Lemma includes_inside (s w pre post : jsstring) :
  includes s w = true -> includes (pre ++ s ++ post) w = true.
Proof.
  intros H. destruct (indexOfFrom_inv s w 0%Z H) as (p & q & -> & _).
  rewrite <- !app_assoc, (app_assoc pre p). apply includes_app.
Qed.

Lemma best_has_no_separator :
  ~ In 32%N (js "Best") /\ ~ In 63%N (js "Best") /\ js "Best" <> [].
Proof.
  repeat split; try discriminate;
    intros H; cbn in H; repeat (destruct H as [H|H]; try discriminate H); exact H.
Qed.

(** X22.  Among the queries of a competitor the share of voice counts
    those that contain [Best].  When the name of the competitor does not
    contain [Best], that is the category query alone (none when the
    business has no category); when it does, it is every query of that
    competitor. *)
Theorem category_queries_by_name (business : Business) (competitor : jsstring) :
  (includes competitor (js "Best") = false ->
   categoryQueries (competitorQueries business competitor)
   = if truthy (category business)
     then [js "Best " ++ template (category business) ++ js " companies"]
     else [])
  /\ (includes competitor (js "Best") = true ->
      categoryQueries (competitorQueries business competitor)
      = competitorQueries business competitor).
Proof.
  destruct best_has_no_separator as (Hs & Hq & Hne).
  assert (Cat : includes (js "Best " ++ template (category business) ++ js " companies")
                  (js "Best") = true).
  { apply (includes_app [] (js "Best")). }
  unfold categoryQueries, competitorQueries. split; intros H.
  - rewrite filter_app. cbn [filter].
    change (js "Tell me about " ++ competitor)
      with (js "Tell me about" ++ 32%N :: competitor).
    change (js "Is " ++ competitor ++ js " good?")
      with (js "Is" ++ 32%N :: (competitor ++ 32%N :: js "good?")).
    change (js "Would you recommend " ++ competitor ++ js "?")
      with (js "Would you recommend" ++ 32%N :: (competitor ++ 63%N :: [])).
    change (competitor ++ js " reviews") with (competitor ++ 32%N :: js "reviews").
    rewrite !(includes_separator _ _ _ 32%N Hs Hne),
      (includes_separator _ _ _ 63%N Hq Hne), H.
    cbn [orb].
    change (includes (js "Tell me about") (js "Best")) with false.
    change (includes (js "Is") (js "Best")) with false.
    change (includes (js "good?") (js "Best")) with false.
    change (includes (js "Would you recommend") (js "Best")) with false.
    change (includes (js "reviews") (js "Best")) with false.
    change (includes [] (js "Best")) with false.
    cbn [orb app].
    destruct (truthy (category business)); [|reflexivity].
    cbn [filter]. rewrite Cat. reflexivity.
  - rewrite filter_app. cbn [filter].
    pose proof (includes_inside competitor _ (js "Tell me about ") [] H) as E1.
    rewrite app_nil_r in E1.
    pose proof (includes_inside competitor _ [] (js " reviews") H) as E4.
    cbn [app] in E4.
    rewrite E1, E4.
    rewrite (includes_inside competitor _ (js "Is ") (js " good?") H).
    rewrite (includes_inside competitor _ (js "Would you recommend ") (js "?") H).
    destruct (truthy (category business)); [|reflexivity].
    cbn [filter]. rewrite Cat. reflexivity.
Qed.

(** ** Monotonicity of the scores of a response *)

Lemma forall_below2 (P : nat -> nat -> bool) (n m : nat) :
  forallb (fun i => forallb (P i) (seq 0 m)) (seq 0 n) = true ->
  forall i j, (i < n)%nat -> (j < m)%nat -> P i j = true.
Proof.
  intros H i j Hi Hj.
  apply (forall_below (P i) m); [|exact Hj].
  apply (forall_below (fun i => forallb (P i) (seq 0 m)) n H i Hi).
Qed.

Lemma monotone_chain (f : nat -> Z) (hi : nat) :
  (forall k, (k < hi)%nat -> (f k <= f (S k))%Z) ->
  forall a b, (a <= b <= hi)%nat -> (f a <= f b)%Z.
Proof.
  intros H a b [Hab Hb]. induction Hab as [|b Hab IH]; [lia|].
  specialize (IH ltac:(lia)). specialize (H b ltac:(lia)). lia.
Qed.

Lemma confidenceOf_monotone (p p' h h' : nat) :
  (p <= p' <= 13)%nat -> (h' <= h <= 15)%nat ->
  leb (confidenceOf p h) (confidenceOf p' h') = true.
Proof.
  intros Hp Hh.
  destruct (confidenceOf_range p h ltac:(lia) ltac:(lia)) as [F1 _].
  destruct (confidenceOf_range p' h' ltac:(lia) ltac:(lia)) as [F2 _].
  apply (leb_scf _ _ F1 F2).
  assert (Sp : forall i j, (i < 13)%nat -> (j < 16)%nat ->
                 leb (confidenceOf i j) (confidenceOf (S i) j) = true).
  { apply forall_below2. vm_compute. reflexivity. }
  assert (Sh : forall i j, (i < 14)%nat -> (j < 15)%nat ->
                 leb (confidenceOf i (S j)) (confidenceOf i j) = true).
  { apply forall_below2. vm_compute. reflexivity. }
  apply Z.le_trans with (scf (confidenceOf p h')).
  - apply Z.opp_le_mono.
    apply (monotone_chain (fun k => (- scf (confidenceOf p k))%Z) 15); [|lia].
    intros k Hk. apply (proj1 (Z.opp_le_mono _ _)).
    destruct (confidenceOf_range p k ltac:(lia) ltac:(lia)) as [G1 _].
    destruct (confidenceOf_range p (S k) ltac:(lia) ltac:(lia)) as [G2 _].
    apply (leb_scf _ _ G2 G1), Sh; lia.
  - apply (monotone_chain (fun k => scf (confidenceOf k h')) 13); [|lia].
    intros k Hk.
    destruct (confidenceOf_range k h' ltac:(lia) ltac:(lia)) as [G1 _].
    destruct (confidenceOf_range (S k) h' ltac:(lia) ltac:(lia)) as [G2 _].
    apply (leb_scf _ _ G1 G2), Sp; lia.
Qed.

Lemma confidenceOf_zero (p h : nat) :
  (p <= 13)%nat -> (h <= 15)%nat ->
  numEq (confidenceOf p h) (ofZ 0) = (p + 5 <=? h)%nat.
Proof.
  intros Hp Hh.
  pose proof (forall_below2
                (fun i j => Bool.eqb (numEq (confidenceOf i j) (ofZ 0)) (i + 5 <=? j)%nat)
                14 16 ltac:(vm_compute; reflexivity) p h ltac:(lia) ltac:(lia)) as M.
  apply Bool.eqb_prop in M. exact M.
Qed.

(** X23.  The confidence score is monotone: a response with no fewer
    positive hits and no more hedging hits than another has a confidence
    score that is not smaller.  It is 0 exactly when the hedging hits
    exceed the positive hits by five or more. *)
Theorem confidence_monotone (r1 r2 name1 name2 : jsstring)
    (competitors1 competitors2 : list jsstring) :
  exists a1 a2,
    analyzeResponse r1 name1 competitors1 = Some a1
    /\ analyzeResponse r2 name2 competitors2 = Some a2
    /\ ((hitCount POSITIVE_INDICATORS r1 <= hitCount POSITIVE_INDICATORS r2)%nat ->
        (hitCount HEDGING_WORDS r2 <= hitCount HEDGING_WORDS r1)%nat ->
        leb (confidenceScore a1) (confidenceScore a2) = true)
    /\ (numEq (confidenceScore a1) (ofZ 0) = true
        <-> (hitCount POSITIVE_INDICATORS r1 + 5 <= hitCount HEDGING_WORDS r1)%nat).
Proof.
  destruct (analyzeResponse_fields r1 name1 competitors1)
    as (a1 & Ha1 & _ & _ & _ & _ & _ & Hc1 & _).
  destruct (analyzeResponse_fields r2 name2 competitors2)
    as (a2 & Ha2 & _ & _ & _ & _ & _ & Hc2 & _).
  destruct (lexicon_counts (toLowerCase r1)) as (P1 & _ & H1 & _).
  destruct (lexicon_counts (toLowerCase r2)) as (P2 & _ & H2 & _).
  exists a1, a2. split; [exact Ha1|]. split; [exact Ha2|].
  rewrite Hc1, Hc2. unfold hitCount. split.
  - intros Hp Hh. apply confidenceOf_monotone; lia.
  - rewrite (confidenceOf_zero _ _ P1 H1). apply Nat.leb_le.
Qed.

Lemma sentimentOf_monotone (p p' n n' : nat) :
  (p <= p' <= 13)%nat -> (n' <= n <= 10)%nat ->
  leb (sentimentOf p n) (sentimentOf p' n') = true.
Proof.
  intros Hp Hn.
  destruct (sentimentOf_range p n ltac:(lia) ltac:(lia)) as [F1 _].
  destruct (sentimentOf_range p' n' ltac:(lia) ltac:(lia)) as [F2 _].
  apply (leb_scf _ _ F1 F2).
  assert (Sp : forall i j, (i < 13)%nat -> (j < 11)%nat ->
                 leb (sentimentOf i j) (sentimentOf (S i) j) = true).
  { apply forall_below2. vm_compute. reflexivity. }
  assert (Sn : forall i j, (i < 14)%nat -> (j < 10)%nat ->
                 leb (sentimentOf i (S j)) (sentimentOf i j) = true).
  { apply forall_below2. vm_compute. reflexivity. }
  apply Z.le_trans with (scf (sentimentOf p n')).
  - apply Z.opp_le_mono.
    apply (monotone_chain (fun k => (- scf (sentimentOf p k))%Z) 10); [|lia].
    intros k Hk. apply (proj1 (Z.opp_le_mono _ _)).
    destruct (sentimentOf_range p k ltac:(lia) ltac:(lia)) as [G1 _].
    destruct (sentimentOf_range p (S k) ltac:(lia) ltac:(lia)) as [G2 _].
    apply (leb_scf _ _ G2 G1), Sn; lia.
  - apply (monotone_chain (fun k => scf (sentimentOf k n')) 13); [|lia].
    intros k Hk.
    destruct (sentimentOf_range k n' ltac:(lia) ltac:(lia)) as [G1 _].
    destruct (sentimentOf_range (S k) n' ltac:(lia) ltac:(lia)) as [G2 _].
    apply (leb_scf _ _ G1 G2), Sp; lia.
Qed.

Lemma sentimentOf_sign (p n : nat) :
  (p <= 13)%nat -> (n <= 10)%nat ->
  ltb (ofZ 0) (sentimentOf p n) = (n <? p)%nat
  /\ ltb (sentimentOf p n) (ofZ 0) = (p <? n)%nat
  /\ numEq (sentimentOf p n) (ofZ 1) = ((0 <? p) && (n =? 0))%nat
  /\ numEq (sentimentOf p n) (ofZ (-1)) = ((0 <? n) && (p =? 0))%nat.
Proof.
  intros Hp Hn.
  pose proof (forall_below2
                (fun i j =>
                   Bool.eqb (ltb (ofZ 0) (sentimentOf i j)) (j <? i)%nat
                   && Bool.eqb (ltb (sentimentOf i j) (ofZ 0)) (i <? j)%nat
                   && Bool.eqb (numEq (sentimentOf i j) (ofZ 1)) ((0 <? i) && (j =? 0))%nat
                   && Bool.eqb (numEq (sentimentOf i j) (ofZ (-1)))
                        ((0 <? j) && (i =? 0))%nat)%bool
                14 11 ltac:(vm_compute; reflexivity) p n ltac:(lia) ltac:(lia)) as M.
  cbv beta in M. rewrite !andb_true_iff in M.
  destruct M as (((M1 & M2) & M3) & M4).
  repeat split; apply Bool.eqb_prop; assumption.
Qed.

(** X24.  The sentiment score is monotone in the hit counts, positive
    exactly when the positive hits outnumber the negative ones and
    negative exactly in the opposite case; it is 1 exactly when there are
    positive hits and no negative one, and -1 exactly when there are
    negative hits and no positive one. *)
Theorem sentimentScore_order (r1 r2 name1 name2 : jsstring)
    (competitors1 competitors2 : list jsstring) :
  exists a1 a2,
    analyzeResponse r1 name1 competitors1 = Some a1
    /\ analyzeResponse r2 name2 competitors2 = Some a2
    /\ ((hitCount POSITIVE_INDICATORS r1 <= hitCount POSITIVE_INDICATORS r2)%nat ->
        (hitCount NEGATIVE_INDICATORS r2 <= hitCount NEGATIVE_INDICATORS r1)%nat ->
        leb (sentimentScore a1) (sentimentScore a2) = true)
    /\ (ltb (ofZ 0) (sentimentScore a1) = true
        <-> (hitCount NEGATIVE_INDICATORS r1 < hitCount POSITIVE_INDICATORS r1)%nat)
    /\ (ltb (sentimentScore a1) (ofZ 0) = true
        <-> (hitCount POSITIVE_INDICATORS r1 < hitCount NEGATIVE_INDICATORS r1)%nat)
    /\ (numEq (sentimentScore a1) (ofZ 1) = true
        <-> (0 < hitCount POSITIVE_INDICATORS r1)%nat
            /\ hitCount NEGATIVE_INDICATORS r1 = 0%nat)
    /\ (numEq (sentimentScore a1) (ofZ (-1)) = true
        <-> (0 < hitCount NEGATIVE_INDICATORS r1)%nat
            /\ hitCount POSITIVE_INDICATORS r1 = 0%nat).
Proof.
  destruct (analyzeResponse_fields r1 name1 competitors1)
    as (a1 & Ha1 & _ & _ & _ & Hs1 & _).
  destruct (analyzeResponse_fields r2 name2 competitors2)
    as (a2 & Ha2 & _ & _ & _ & Hs2 & _).
  destruct (lexicon_counts (toLowerCase r1)) as (P1 & N1 & _).
  destruct (lexicon_counts (toLowerCase r2)) as (P2 & N2 & _).
  exists a1, a2. split; [exact Ha1|]. split; [exact Ha2|].
  rewrite Hs1, Hs2. unfold hitCount.
  destruct (sentimentOf_sign _ _ P1 N1) as (S1 & S2 & S3 & S4).
  rewrite S1, S2, S3, S4.
  split; [intros Hp Hn; apply sentimentOf_monotone; lia|].
  rewrite !andb_true_iff, !Nat.ltb_lt, !Nat.eqb_eq. tauto.
Qed.

(** ** Batches without signal *)

Local Open Scope Z_scope.

Lemma sum_of_zeros (f : Analysis -> number) (b : list Analysis) :
  Forall (fun a => f a = ofZ 0) b -> sumOf f b = ofZ 0.
Proof.
  unfold sumOf. induction 1 as [|a b Ha _ IH]; [reflexivity|].
  cbn [fold_left]. rewrite Ha. exact IH.
Qed.

Lemma half_value : finiteb (dec 5 10) = true /\ 2 * scf (dec 5 10) = unitOne.
Proof. split; vm_compute; reflexivity. Qed.

Lemma SOn_halves (k : Z) : 0 <= k < 2 ^ 53 -> SOn (k * scf (dec 5 10)).
Proof.
  intros Hk. replace (k * scf (dec 5 10)) with (sc k (-1)).
  - apply SOn_sc; lia.
  - unfold sc. change (scf (dec 5 10)) with (2 ^ (-1 - unitExp)). ring.
Qed.

Lemma sum_of_halves (f : Analysis -> number) (b : list Analysis) :
  Forall (fun a => f a = dec 5 10) b ->
  forall (acc : number) (i : Z),
    0 <= i -> finiteb acc = true -> scf acc = i * scf (dec 5 10) ->
    i + Z.of_nat (List.length b) < 2 ^ 53 ->
    finiteb (fold_left (fun sum a => add sum (f a)) b acc) = true
    /\ scf (fold_left (fun sum a => add sum (f a)) b acc)
       = (i + Z.of_nat (List.length b)) * scf (dec 5 10).
Proof.
  destruct half_value as [Fh Vh].
  induction 1 as [|a b Ha _ IH]; intros acc i Hi Facc Vacc Hn.
  - cbn [fold_left List.length]. rewrite Z.add_0_r. split; assumption.
  - cbn [fold_left]. cbn [List.length] in *. rewrite Nat2Z.inj_succ in *.
    rewrite Ha.
    destruct (add_bounds acc (dec 5 10) ((i + 1) * scf (dec 5 10))
                ((i + 1) * scf (dec 5 10))) as [Fs Bs];
      [exact Facc|exact Fh|apply SOn_halves; lia|apply SOn_halves; lia
      |rewrite Vacc; lia|].
    change (SFadd 53 1024) with add in Fs, Bs.
    destruct (IH (add acc (dec 5 10)) (i + 1)) as [F V]; try assumption; try lia.
    split; [exact F|]. rewrite V. f_equal. lia.
Qed.

Lemma mean_of_halves (b : list Analysis) :
  (0 < List.length b)%nat -> Z.of_nat (List.length b) < 2 ^ 53 ->
  Forall (fun a => confidenceScore a = dec 5 10) b ->
  div (sumOf confidenceScore b) (ofNat (List.length b)) = dec 5 10.
Proof.
  intros Hn Hb Hall. destruct half_value as [Fh Vh]. pose proof unitOne_pos as HG.
  destruct (sum_of_halves confidenceScore b Hall (ofZ 0) 0 ltac:(lia)
              ltac:(reflexivity) ltac:(reflexivity) ltac:(lia)) as [Fs Vs].
  fold (sumOf confidenceScore b) in Fs, Vs. rewrite Z.add_0_l in Vs.
  destruct (ofNat_exact _ Hb) as [FN VN].
  destruct (div_bounds (sumOf confidenceScore b) (ofNat (List.length b))
              (scf (dec 5 10)) (scf (dec 5 10))) as [F V];
    [exact Fs|exact FN|rewrite VN; nia| | |rewrite Vs, VN; nia|].
  - replace (scf (dec 5 10)) with (1 * scf (dec 5 10)) by ring.
    apply SOn_halves. lia.
  - replace (scf (dec 5 10)) with (1 * scf (dec 5 10)) by ring.
    apply SOn_halves. lia.
  - change (SFdiv 53 1024) with div in F, V.
    apply finite_eq; [exact F|exact Fh|lia|lia].
Qed.

(** X25.  For a non-empty batch of analyses without any signal (no
    mention, no lexicon hit, no cited URL) the scores are fixed whatever
    the size of the batch: visibility, recommendation and citation 0,
    sentiment and confidence 50, trust 58 and overall 27, where the
    empty batch has trust 0 and overall 0. *)
Theorem scores_without_signal (analyses : list Analysis) :
  analyses <> [] -> Z.of_nat (List.length analyses) < 2 ^ 32 ->
  Forall noSignal analyses ->
  calculateScores analyses
  = {| overall_score := ofZ 27;
       ai_trust_score := ofZ 58;
       ai_visibility_score := ofZ 0;
       ai_recommendation_score := ofZ 0;
       ai_citation_score := ofZ 0;
       sentiment_score := ofZ 50;
       confidence_score := ofZ 50 |}.
Proof.
  intros Hne Hb Hall.
  assert (Hn : (0 < List.length analyses)%nat)
    by (destruct analyses; [contradiction|cbn; lia]).
  assert (Hb' : Z.of_nat (List.length analyses) < 2 ^ 53) by lia.
  assert (Hm : count mentioned analyses = 0%nat).
  { apply count_none. eapply Forall_impl; [|exact Hall]. intros a H. apply H. }
  assert (Hr : count isRecommended analyses = 0%nat).
  { apply count_none. eapply Forall_impl; [|exact Hall]. intros a H. apply H. }
  assert (Hc : count (fun a => truthy (citedUrl a)) analyses = 0%nat).
  { apply count_none. eapply Forall_impl; [|exact Hall].
    intros a (_ & _ & _ & _ & _ & _ & H). cbv beta. rewrite H. reflexivity. }
  assert (Hh : count hasHedging analyses = 0%nat).
  { apply count_none. eapply Forall_impl; [|exact Hall]. intros a H. apply H. }
  assert (Hg : count (fun a => negb (MentionType_eqb (mentionType a) NEGATIVE)) analyses
               = List.length analyses).
  { apply count_all. eapply Forall_impl; [|exact Hall].
    intros a (_ & H & _). cbv beta. rewrite H. reflexivity. }
  assert (Hs : sumOf sentimentScore analyses = ofZ 0).
  { apply sum_of_zeros. eapply Forall_impl; [|exact Hall].
    intros a (_ & _ & H & _). rewrite H. vm_compute. reflexivity. }
  assert (Hf : div (sumOf confidenceScore analyses) (ofNat (List.length analyses))
               = dec 5 10).
  { apply mean_of_halves; try assumption.
    eapply Forall_impl; [|exact Hall].
    intros a (_ & _ & _ & H & _). rewrite H. vm_compute. reflexivity. }
  unfold calculateScores.
  replace (List.length analyses =? 0)%nat with false
    by (symmetry; apply Nat.eqb_neq; lia).
  rewrite Hm, Hr, Hc, Hh, Hg, Hs, Hf.
  change (ofZ 0) with (ofNat 0).
  rewrite (div_zero _ Hn Hb'), (div_self _ Hn Hb').
  vm_compute. reflexivity.
Qed.

Lemma scores_without_signal_witness :
  let analyses := analyzeAll [plainResponse; plainResponse; plainResponse] acme [] in
  analyses <> [] /\ Forall noSignal analyses
  /\ ai_trust_score (calculateScores analyses) = ofZ 58.
Proof.
  assert (H1 : analyzeAll [plainResponse; plainResponse; plainResponse] acme [] <> [])
    by (vm_compute; discriminate).
  assert (H2 : Z.of_nat (List.length
                 (analyzeAll [plainResponse; plainResponse; plainResponse] acme []))
               < 2 ^ 32) by (vm_compute; reflexivity).
  assert (H3 : Forall noSignal
                 (analyzeAll [plainResponse; plainResponse; plainResponse] acme [])).
  { vm_compute. repeat constructor. }
  split; [exact H1|]. split; [exact H3|].
  rewrite (scores_without_signal _ H1 H2 H3). reflexivity.
Defined.

Local Close Scope Z_scope.

(** ** The composite formulas, against the exact ones *)

Local Open Scope Z_scope.

Lemma coarse_facts : 0 < fine /\ coarse = 2 ^ 6 * fine /\ unitOne = 2 ^ 46 * coarse.
Proof.
  unfold fine, coarse, sc, unitOne.
  rewrite !Z.mul_1_l.
  replace (-46 - unitExp) with (6 + (-52 - unitExp)) by (unfold unitExp; lia).
  replace (- unitExp) with (46 + (6 + (-52 - unitExp))) by (unfold unitExp; lia).
  rewrite !Z.pow_add_r by (unfold unitExp; lia).
  split; [apply Z.pow_pos_nonneg; unfold unitExp; lia|]. split; ring.
Qed.

(** The grid points around a value. *)
Lemma grid_floor (v e : Z) :
  -1074 <= e <= 970 -> 0 <= v -> v / sc 1 e + 1 < 2 ^ 53 ->
  let lo := v / sc 1 e * sc 1 e in
  SOn lo /\ SOn (lo + sc 1 e) /\ lo <= v < lo + sc 1 e.
Proof.
  intros He Hv Hi lo.
  assert (Hp : 0 < sc 1 e).
  { unfold sc. rewrite Z.mul_1_l. apply Z.pow_pos_nonneg; unfold unitExp; lia. }
  assert (Hq : 0 <= v / sc 1 e) by (apply Z.div_pos; lia).
  assert (E1 : lo = sc (v / sc 1 e) e) by (unfold lo, sc; ring).
  assert (E2 : lo + sc 1 e = sc (v / sc 1 e + 1) e) by (unfold lo, sc; ring).
  split; [rewrite E1; apply SOn_sc; lia|].
  split; [rewrite E2; apply SOn_sc; lia|].
  unfold lo. pose proof (Z.div_mod v (sc 1 e) ltac:(lia)) as D.
  pose proof (Z.mod_pos_bound v (sc 1 e) Hp). lia.
Qed.

Lemma coarse_floor (v : Z) :
  0 <= v <= 127 * unitOne ->
  let lo := v / coarse * coarse in
  SOn lo /\ SOn (lo + coarse) /\ lo <= v < lo + coarse.
Proof.
  intros Hv. apply grid_floor; [lia|lia|].
  destruct coarse_facts as (Hf & Hc & Hu). fold coarse.
  assert (0 < coarse) by lia.
  assert (v / coarse <= 127 * 2 ^ 46); [|lia].
  apply Z.div_le_upper_bound; lia.
Qed.

Lemma add_near (x y : number) :
  finiteb x = true -> finiteb y = true ->
  0 <= scf x + scf y <= 127 * unitOne ->
  finiteb (add x y) = true /\ 0 <= scf (add x y)
  /\ scf x + scf y - coarse <= scf (add x y) <= scf x + scf y + coarse.
Proof.
  intros Fx Fy B.
  destruct (coarse_floor _ B) as (S1 & S2 & L).
  destruct (add_bounds x y _ _ Fx Fy S1 S2 ltac:(lia)) as [F V].
  change (SFadd 53 1024) with add in F, V.
  destruct coarse_facts as (Hf & Hc & Hu).
  assert (0 <= (scf x + scf y) / coarse * coarse).
  { apply Z.mul_nonneg_nonneg; [apply Z.div_pos|]; lia. }
  split; [exact F|]. lia.
Qed.

Lemma sub_near (x y : number) :
  finiteb x = true -> finiteb y = true ->
  0 <= scf x - scf y <= 127 * unitOne ->
  finiteb (sub x y) = true /\ 0 <= scf (sub x y)
  /\ scf x - scf y - coarse <= scf (sub x y) <= scf x - scf y + coarse.
Proof.
  intros Fx Fy B.
  destruct (coarse_floor _ B) as (S1 & S2 & L).
  destruct (sub_bounds x y _ _ Fx Fy S1 S2 ltac:(lia)) as [F V].
  change (SFsub 53 1024) with sub in F, V.
  destruct coarse_facts as (Hf & Hc & Hu).
  assert (0 <= (scf x - scf y) / coarse * coarse).
  { apply Z.mul_nonneg_nonneg; [apply Z.div_pos|]; lia. }
  split; [exact F|]. lia.
Qed.

Lemma mul_near (x y : number) :
  finiteb x = true -> finiteb y = true ->
  0 <= scf x -> 0 <= scf y -> scf x * scf y <= 127 * unitOne * unitOne ->
  finiteb (mul x y) = true /\ 0 <= scf (mul x y)
  /\ (scf (mul x y) - coarse) * unitOne <= scf x * scf y
     <= (scf (mul x y) + coarse) * unitOne.
Proof.
  intros Fx Fy Bx By B. pose proof unitOne_pos as HG.
  set (P := scf x * scf y) in *.
  assert (HP : 0 <= P) by (apply Z.mul_nonneg_nonneg; assumption).
  set (v := P / unitOne).
  pose proof (Z.div_mod P unitOne ltac:(lia)) as D.
  pose proof (Z.mod_pos_bound P unitOne HG) as M. fold v in D.
  assert (Bv : 0 <= v <= 127 * unitOne).
  { split; [apply Z.div_pos; lia|]. apply Z.div_le_upper_bound; lia. }
  destruct (coarse_floor _ Bv) as (S1 & S2 & L).
  set (lo := v / coarse * coarse) in *.
  destruct (mul_bounds x y _ _ Fx Fy S1 S2) as [F V].
  { fold P. nia. }
  change (SFmul 53 1024) with mul in F, V.
  destruct coarse_facts as (Hf & Hc & Hu).
  assert (0 <= lo).
  { apply Z.mul_nonneg_nonneg; [apply Z.div_pos|]; lia. }
  split; [exact F|]. split; [lia|]. nia.
Qed.

(** A rate of counts is within [2 ^ -52] of the exact quotient. *)
Lemma div_near (k n : nat) :
  (k <= n)%nat -> (0 < n)%nat -> Z.of_nat n < 2 ^ 53 ->
  let r := div (ofNat k) (ofNat n) in
  Unit r
  /\ Z.of_nat k * unitOne - Z.of_nat n * fine <= Z.of_nat n * scf r
     <= Z.of_nat k * unitOne + Z.of_nat n * fine.
Proof.
  intros Hk Hn Hb r. pose proof unitOne_pos as HG.
  destruct coarse_facts as (Hf & Hc & Hu).
  split; [apply rate_unit; assumption|].
  destruct (ofNat_exact n Hb) as [Fn Vn].
  destruct (ofNat_exact k ltac:(lia)) as [Fk Vk].
  set (K := Z.of_nat k) in *. set (N := Z.of_nat n) in *.
  assert (HN : 0 < N) by (unfold N; lia).
  assert (HK : 0 <= K <= N) by (unfold K, N; lia).
  set (v := K * unitOne / N).
  pose proof (Z.div_mod (K * unitOne) N ltac:(lia)) as D.
  pose proof (Z.mod_pos_bound (K * unitOne) N HN) as M. fold v in D.
  assert (Bv : 0 <= v <= unitOne).
  { split; [apply Z.div_pos; nia|]. apply Z.div_le_upper_bound; nia. }
  assert (Hi : v / sc 1 (-52) + 1 < 2 ^ 53).
  { fold fine. assert (v / fine <= 2 ^ 52); [|lia].
    apply Z.div_le_upper_bound; [lia|].
    rewrite Hu, Hc in Bv. change (2 ^ 52) with (2 ^ 46 * 2 ^ 6). lia. }
  destruct (grid_floor v (-52) ltac:(lia) ltac:(lia) Hi) as (S1 & S2 & L).
  fold fine in S1, S2, L. set (lo := v / fine * fine) in *.
  assert (A1 : N * lo <= N * v) by (apply Z.mul_le_mono_nonneg_l; lia).
  assert (A2 : N * (v + 1) <= N * (lo + fine)) by (apply Z.mul_le_mono_nonneg_l; lia).
  assert (A3 : N * (v - fine + 1) <= N * lo) by (apply Z.mul_le_mono_nonneg_l; lia).
  assert (P1 : 0 < N * unitOne) by (apply Z.mul_pos_pos; lia).
  destruct (div_bounds (ofNat k) (ofNat n) lo (lo + fine)) as [F V];
    [exact Fk|exact Fn|rewrite Vn; exact P1|exact S1|exact S2| |].
  { rewrite Vk, Vn.
    replace (lo * (N * unitOne)) with (N * lo * unitOne) by ring.
    replace ((lo + fine) * (N * unitOne)) with (N * (lo + fine) * unitOne) by ring.
    split; apply Z.mul_le_mono_nonneg_r; lia. }
  change (SFdiv 53 1024) with div in F, V. fold r in F, V.
  assert (A4 : N * lo <= N * scf r) by (apply Z.mul_le_mono_nonneg_l; lia).
  assert (A5 : N * scf r <= N * (lo + fine)) by (apply Z.mul_le_mono_nonneg_l; lia).
  lia.
Qed.

(** A rate times 100. *)
Lemma times100_near (r : number) :
  Unit r ->
  Pct (mul r (ofZ 100))
  /\ 100 * scf r - coarse <= scf (mul r (ofZ 100)) <= 100 * scf r + coarse.
Proof.
  intros [F B]. pose proof unitOne_pos as HG.
  split; [apply pct_of_unit; split; assumption|].
  destruct (ofZ_exact 100 ltac:(reflexivity)) as [F100 V100].
  destruct (mul_near r (ofZ 100) F F100 ltac:(lia) ltac:(rewrite V100; lia))
    as (_ & _ & E); [rewrite V100; nia|].
  rewrite V100 in E. nia.
Qed.

(** A number between 0 and 100 times a weight. *)
Lemma weighted_near (x c : number) (wt : Z) :
  Pct x -> weight_near c wt = true -> 0 <= wt <= 100 ->
  finiteb (mul x c) = true /\ 0 <= scf (mul x c)
  /\ wt * scf x - 121 * coarse <= 100 * scf (mul x c) <= wt * scf x + 121 * coarse.
Proof.
  intros [Fx Bx] Hw Hwt. pose proof unitOne_pos as HG.
  destruct coarse_facts as (Hf & Hc & Hu).
  unfold weight_near in Hw. rewrite !andb_true_iff, !Z.leb_le in Hw.
  destruct Hw as [[[Fc B0] B1] Bd].
  destruct (mul_near x c Fx Fc ltac:(lia) B0 ltac:(nia)) as (F & P & E).
  split; [exact F|]. split; [exact P|].
  set (d := 100 * scf c - wt * unitOne) in *.
  assert (Hd : - coarse <= 5 * d <= coarse) by lia.
  assert (Hxd : - (100 * unitOne * coarse) <= 5 * (scf x * d) <= 100 * unitOne * coarse)
    by nia.
  assert (Heq : 100 * (scf x * scf c) = wt * scf x * unitOne + scf x * d)
    by (unfold d; ring).
  set (r := scf (mul x c)) in *. set (X := scf x) in *.
  set (XC := X * scf c) in *. set (XD := X * d) in *.
  assert (G1 : 500 * (r - coarse) * unitOne <= (5 * wt * X + 100 * coarse) * unitOne)
    by lia.
  assert (G2 : (5 * wt * X - 100 * coarse) * unitOne <= 500 * (r + coarse) * unitOne)
    by lia.
  apply Z.mul_le_mono_pos_r in G1; [|lia].
  apply Z.mul_le_mono_pos_r in G2; [|lia].
  lia.
Qed.

Lemma weights_near :
  weight_near (dec 35 100) 35 = true
  /\ weight_near (dec 30 100) 30 = true
  /\ weight_near (dec 25 100) 25 = true
  /\ weight_near (dec 20 100) 20 = true
  /\ weight_near (dec 15 100) 15 = true
  /\ weight_near (dec 10 100) 10 = true.
Proof. repeat split; vm_compute; reflexivity. Qed.

(** [Math.round] of a number between [k - 1/2] and [k + 1/2]. *)
Lemma Math_round_value (x : number) (k : Z) :
  finiteb x = true -> 0 <= k < 2 ^ 53 -> 0 <= scf x ->
  (2 * k - 1) * unitOne <= 2 * scf x < (2 * k + 1) * unitOne ->
  finiteb (Math_round x) = true /\ scf (Math_round x) = k * unitOne.
Proof.
  intros Hx Hk H0 H1. pose proof unitOne_pos as HG.
  destruct x as [s|s| |s m e]; try discriminate Hx.
  - cbn [Math_round scf] in *. split; [reflexivity|].
    destruct (Z.eq_dec k 0) as [->|K]; [reflexivity|exfalso].
    assert (1 * unitOne <= (2 * k - 1) * unitOne)
      by (apply Z.mul_le_mono_nonneg_r; lia).
    lia.
  - destruct (canonical_facts _ _ _ Hx) as (He & _).
    assert (Hp : 0 < sc (Zpos m) e) by (apply sc_pos; [unfold unitExp|]; lia).
    assert (Hs : s = false).
    { destruct s; [|reflexivity]. cbn [scf] in H0. rewrite sc_opp in H0.
      cbn [cond_Zopp] in H0. lia. }
    subst s. cbn [Math_round cond_Zopp].
    destruct (Z.leb_spec 0 e) as [Hpos|Hneg].
    + split; [exact Hx|].
      cbn [scf cond_Zopp] in *. unfold sc in *.
      assert (Hpow : 2 ^ (e - unitExp) = 2 ^ e * unitOne).
      { unfold unitOne. rewrite <- Z.pow_add_r by (unfold unitExp; lia). f_equal; lia. }
      rewrite Hpow in *.
      assert (0 < 2 ^ e) by (apply Z.pow_pos_nonneg; lia).
      set (z := Zpos m * 2 ^ e) in *.
      replace (Zpos m * (2 ^ e * unitOne)) with (z * unitOne) in * by (unfold z; ring).
      assert (2 * k - 1 <= 2 * z < 2 * k + 1) by nia.
      assert (z = k) by lia. subst k. reflexivity.
    + set (d := 2 ^ (- e)).
      assert (Pd : 0 < d) by (apply Z.pow_pos_nonneg; lia).
      assert (Hpow : unitOne = 2 ^ (e - unitExp) * d).
      { unfold unitOne, d. rewrite <- Z.pow_add_r by (unfold unitExp; lia). f_equal; lia. }
      cbn [scf cond_Zopp] in H0, H1. unfold sc in H0, H1.
      pose proof (unit_pos e ltac:(unfold unitExp; lia)) as Pu.
      set (u := 2 ^ (e - unitExp)) in *.
      assert (Hm : (2 * k - 1) * d <= 2 * Zpos m < (2 * k + 1) * d).
      { rewrite Hpow in H1.
        replace ((2 * k - 1) * (u * d)) with ((2 * k - 1) * d * u) in H1 by ring.
        replace ((2 * k + 1) * (u * d)) with ((2 * k + 1) * d * u) in H1 by ring.
        replace (2 * (Zpos m * u)) with (2 * Zpos m * u) in H1 by ring.
        destruct H1 as [A B].
        apply Z.mul_le_mono_pos_r in A; [|exact Pu].
        apply Z.mul_lt_mono_pos_r in B; [|exact Pu]. lia. }
      set (n := (2 * Zpos m + d) / (2 * d)).
      assert (Hn : n = k).
      { unfold n. symmetry. apply Z.div_unique with (r := 2 * Zpos m + d - 2 * d * k); lia. }
      fold d. fold n. rewrite Hn.
      destruct (Z.eqb_spec k 0) as [Hz|Hnz].
      * split; [reflexivity|]. cbn [scf]. rewrite Hz. reflexivity.
      * destruct (ofZ_exact k ltac:(lia)) as [Hf Hv].
        split; [exact Hf|exact Hv].
Qed.

(** [Math.round] of a number near the fraction [num / den]: the nearest
    integer to the fraction, away from a tie; at a tie, that integer or
    the one below. *)
Lemma round_near (x : number) (num den : Z) :
  finiteb x = true -> 0 <= scf x -> 0 <= num -> 0 < den ->
  (2 * num + den) / (2 * den) < 2 ^ 53 ->
  2 * Z.abs (den * scf x - num * unitOne) < unitOne ->
  let k := (2 * num + den) / (2 * den) in
  finiteb (Math_round x) = true
  /\ (scf (Math_round x) = k * unitOne
      \/ ((2 * num + den) mod (2 * den) = 0
          /\ scf (Math_round x) = (k - 1) * unitOne)).
Proof.
  intros Fx B0 Hn Hd Hk Herr k. pose proof unitOne_pos as HG.
  pose proof (Z.div_mod (2 * num + den) (2 * den) ltac:(lia)) as D.
  pose proof (Z.mod_pos_bound (2 * num + den) (2 * den) ltac:(lia)) as M.
  fold k in D, Hk.
  set (m := (2 * num + den) mod (2 * den)) in *.
  assert (K0 : 0 <= k) by (apply Z.div_pos; lia).
  set (X := scf x) in *. set (U := unitOne) in *.
  set (delta := den * X - num * U) in *.
  (* 2 den (2 X + U) = 4 delta + 2 (2 den k + m) U *)
  assert (E : den * (2 * X) = 2 * delta + (2 * den * k + m - den) * U).
  { assert (E0 : 2 * num = 2 * den * k + m - den) by lia.
    unfold delta. rewrite <- E0. ring. }
  assert (T : forall j, (2 * j - 1) * U <= 2 * X < (2 * j + 1) * U
                        <-> den * ((2 * j - 1) * U) <= den * (2 * X)
                            /\ den * (2 * X) < den * ((2 * j + 1) * U)).
  { intros j. split.
    - intros [A B]. split; [apply Z.mul_le_mono_nonneg_l; lia
                           |apply Z.mul_lt_mono_pos_l; lia].
    - intros [A B]. split; [apply Z.mul_le_mono_pos_l in A; lia
                           |apply Z.mul_lt_mono_pos_l in B; lia]. }
  assert (R : forall j, den * ((2 * j - 1) * U) = (2 * den * j - den) * U
                        /\ den * ((2 * j + 1) * U) = (2 * den * j + den) * U)
    by (intros j; split; ring).
  assert (Hm1 : 1 <= m -> m * U >= U) by (intros; nia).
  assert (Hm2 : m <= 2 * den - 1 -> m * U <= (2 * den - 1) * U)
    by (intros; apply Z.mul_le_mono_nonneg_r; lia).
  assert (Hden : den * U >= U) by nia.
  destruct (Z.eq_dec m 0) as [Hz|Hz].
  - destruct (Z_lt_le_dec delta 0) as [Hneg|Hpos].
    + assert (K1 : 1 <= k).
      { destruct (Z.eq_dec k 0) as [K|K]; [|lia]. exfalso.
        assert (0 <= den * (2 * X)) by (apply Z.mul_nonneg_nonneg; lia).
        rewrite E, Hz, K in H.
        replace ((2 * den * 0 + 0 - den) * U) with (- (den * U)) in H by ring. lia. }
      destruct (Math_round_value x (k - 1) Fx ltac:(lia) B0) as [F V].
      { apply T. destruct (R (k - 1)) as [R1 R2]. rewrite R1, R2, E, Hz.
        replace ((2 * den * k + 0 - den) * U) with (2 * den * k * U - den * U) by ring.
        replace ((2 * den * (k - 1) - den) * U)
          with (2 * den * k * U - den * U - 2 * (den * U)) by ring.
        replace ((2 * den * (k - 1) + den) * U) with (2 * den * k * U - den * U) by ring.
        lia. }
      split; [exact F|]. right. split; [exact Hz|exact V].
    + destruct (Math_round_value x k Fx ltac:(lia) B0) as [F V].
      { apply T. destruct (R k) as [R1 R2]. rewrite R1, R2, E, Hz.
        replace ((2 * den * k + 0 - den) * U) with (2 * den * k * U - den * U) by ring.
        replace ((2 * den * k - den) * U) with (2 * den * k * U - den * U) by ring.
        replace ((2 * den * k + den) * U)
          with (2 * den * k * U - den * U + 2 * (den * U)) by ring.
        lia. }
      split; [exact F|]. left. exact V.
  - destruct (Math_round_value x k Fx ltac:(lia) B0) as [F V].
    { apply T. destruct (R k) as [R1 R2]. rewrite R1, R2, E.
      replace ((2 * den * k + m - den) * U)
        with (2 * den * k * U - den * U + m * U) by ring.
      replace ((2 * den * k - den) * U) with (2 * den * k * U - den * U) by ring.
      replace ((2 * den * k + den) * U)
        with (2 * den * k * U - den * U + 2 * den * U) by ring.
      specialize (Hm1 ltac:(lia)). specialize (Hm2 ltac:(lia)).
      replace ((2 * den - 1) * U) with (2 * den * U - U) in Hm2 by ring.
      lia. }
    split; [exact F|]. left. exact V.
Qed.

Lemma Qfloor_div (a b : Z) : 0 < b -> Qfloor (inject_Z a / inject_Z b) = a / b.
Proof.
  intros Hb. destruct b as [|p|p]; try lia.
  unfold Qdiv, Qinv, inject_Z. cbn [Qnum Qden Qmult Qfloor].
  rewrite Z.mul_1_r. reflexivity.
Qed.

Lemma inject_Z_nonzero (b : Z) : 0 < b -> ~ (inject_Z b == 0)%Q.
Proof.
  intros Hb H. unfold Qeq in H. cbn in H. lia.
Qed.

Lemma Qdiv_eq_int (r d k : Z) :
  0 < d -> ((inject_Z r / inject_Z d == inject_Z k)%Q <-> r = k * d).
Proof.
  intros Hd. pose proof (inject_Z_nonzero d Hd) as Nz. split.
  - intros H.
    assert (E : (inject_Z r == inject_Z (k * d))%Q).
    { rewrite inject_Z_mult, <- H. field. exact Nz. }
    unfold Qeq in E. cbn in E. lia.
  - intros ->. rewrite inject_Z_mult. field. exact Nz.
Qed.

(** The rounding of the specification at a fraction, and its ties. *)
Lemma roundHalfAway_frac (q : Q) (num den : Z) :
  0 <= num -> 0 < den -> (q == inject_Z num / inject_Z den)%Q ->
  Spec.roundHalfAway q = (2 * num + den) / (2 * den)
  /\ (Spec.isTie q = true <-> (2 * num + den) mod (2 * den) = 0).
Proof.
  intros Hn Hd Hq. pose proof (inject_Z_nonzero den Hd) as Nz.
  assert (Hh : (q + (1 # 2) == inject_Z (2 * num + den) / inject_Z (2 * den))%Q).
  { rewrite Hq, inject_Z_plus, !inject_Z_mult. field. exact Nz. }
  assert (H0 : (0 <= q)%Q).
  { rewrite Hq. apply Qle_shift_div_l.
    - change 0%Q with (inject_Z 0). rewrite <- Zlt_Qlt. exact Hd.
    - rewrite Qmult_0_l. change 0%Q with (inject_Z 0). rewrite <- Zle_Qle. exact Hn. }
  assert (F : Qfloor (q + (1 # 2)) = (2 * num + den) / (2 * den)).
  { rewrite (Qfloor_comp _ _ Hh). apply Qfloor_div. lia. }
  split.
  - unfold Spec.roundHalfAway.
    replace (Qle_bool 0 q) with true by (symmetry; apply Qle_bool_iff; exact H0).
    exact F.
  - unfold Spec.isTie. rewrite Qeq_bool_iff, F, Hh, Qdiv_eq_int by lia.
    pose proof (Z.div_mod (2 * num + den) (2 * den) ltac:(lia)) as D.
    split; intros H; lia.
Qed.

Lemma scale_bounds (n a b c : Z) : 0 <= n -> a <= b <= c -> n * a <= n * b <= n * c.
Proof. intros Hn [H1 H2]. split; apply Z.mul_le_mono_nonneg_l; assumption. Qed.

(** From the value of a number to the score rounded from it. *)
Lemma agrees_of_near (x : number) (q : Q) (num den : Z) :
  finiteb x = true -> 0 <= scf x -> 0 <= num -> 0 < den ->
  (q == inject_Z num / inject_Z den)%Q ->
  num <= 2 ^ 50 * den ->
  2 * Z.abs (den * scf x - num * unitOne) < unitOne ->
  agrees (Math_round x) q (Spec.roundHalfAway q).
Proof.
  intros Fx B0 Hn Hd Hq Hb Herr. pose proof unitOne_pos as HG.
  destruct (roundHalfAway_frac q num den Hn Hd Hq) as [R T].
  assert (Hk : (2 * num + den) / (2 * den) < 2 ^ 53).
  { apply Z.div_lt_upper_bound; lia. }
  destruct (round_near x num den Fx B0 Hn Hd Hk Herr) as [F V].
  pose proof (Math_round_isInteger _ F) as I.
  pose proof (toInt_value _ F I) as W.
  split; [exact I|]. rewrite R.
  destruct V as [V|[M V]]; rewrite W in V; apply Z.mul_cancel_r in V; try lia.
  right. split; [apply T; exact M|exact V].
Qed.

(** The citation score. *)
Lemma citation_agrees (c n : nat) :
  (c <= n)%nat -> (0 < n)%nat -> Z.of_nat n < 2 ^ 32 ->
  agrees (Math_round (mul (div (ofNat c) (ofNat n)) (ofZ 100)))
    (Spec.citationValue c n) (Spec.citation c n).
Proof.
  intros Hc Hn Hb. pose proof unitOne_pos as HG.
  destruct coarse_facts as (Hf & Hco & Hu).
  destruct (div_near c n Hc Hn ltac:(lia)) as [Ur Er]. cbv zeta in Er.
  destruct (times100_near _ Ur) as [[Fm Bm] Em].
  set (r := div (ofNat c) (ofNat n)) in *.
  set (m := mul r (ofZ 100)) in *.
  set (N := Z.of_nat n) in *. set (C := Z.of_nat c) in *.
  assert (HN : 0 < N) by (unfold N; lia).
  assert (HC : 0 <= C <= N) by (unfold C, N; lia).
  change (Spec.citation c n) with (Spec.roundHalfAway (Spec.citationValue c n)).
  apply (agrees_of_near m _ (100 * C) N); [exact Fm|lia|lia|exact HN| |lia|].
  - unfold Spec.citationValue, Spec.rate. fold N C.
    rewrite inject_Z_mult. change (inject_Z 100) with 100%Q.
    field. apply inject_Z_nonzero. exact HN.
  - pose proof (scale_bounds N _ _ _ ltac:(lia) Em) as Sm.
    assert (Nf : N * fine < 2 ^ 32 * fine) by (apply Z.mul_lt_mono_pos_r; lia).
    lia.
Qed.

Lemma Pct_toInt (x : number) :
  Pct x -> isInteger x = true -> scf x = toInt x * unitOne /\ 0 <= toInt x <= 100.
Proof.
  intros [F B] I. pose proof unitOne_pos as HG.
  pose proof (toInt_value x F I) as V. split; [exact V|].
  rewrite V in B. destruct B as [B1 B2].
  replace 0 with (0 * unitOne) in B1 by ring.
  apply Z.mul_le_mono_pos_r in B1; [|exact HG].
  apply Z.mul_le_mono_pos_r in B2; [|exact HG]. lia.
Qed.

(** The overall score. *)
Lemma overall_agrees (t v r c s f : number) :
  Pct t -> isInteger t = true -> Pct v -> isInteger v = true ->
  Pct r -> isInteger r = true -> Pct c -> isInteger c = true ->
  Pct s -> isInteger s = true -> Pct f -> isInteger f = true ->
  agrees
    (Math_round
       (add (add (add (add (add (mul t (dec 25 100)) (mul v (dec 20 100)))
                           (mul r (dec 20 100)))
                      (mul c (dec 10 100)))
                 (mul s (dec 15 100)))
            (mul f (dec 10 100))))
    (Spec.overallValue (toInt t) (toInt v) (toInt r) (toInt c) (toInt s) (toInt f))
    (Spec.overall (toInt t) (toInt v) (toInt r) (toInt c) (toInt s) (toInt f)).
Proof.
  intros Pt It Pv Iv Pr Ir Pc Ic Ps Is Pf If'. pose proof unitOne_pos as HG.
  destruct coarse_facts as (Hf & Hco & Hu).
  destruct weights_near as (_ & _ & W25 & W20 & W15 & W10).
  destruct (Pct_toInt t Pt It) as [Vt Bt]. destruct (Pct_toInt v Pv Iv) as [Vv Bv].
  destruct (Pct_toInt r Pr Ir) as [Vr Br]. destruct (Pct_toInt c Pc Ic) as [Vc Bc].
  destruct (Pct_toInt s Ps Is) as [Vs Bs]. destruct (Pct_toInt f Pf If') as [Vf Bf].
  destruct (weighted_near t _ 25 Pt W25 ltac:(lia)) as (F1 & N1 & E1).
  destruct (weighted_near v _ 20 Pv W20 ltac:(lia)) as (F2 & N2 & E2).
  destruct (weighted_near r _ 20 Pr W20 ltac:(lia)) as (F3 & N3 & E3).
  destruct (weighted_near c _ 10 Pc W10 ltac:(lia)) as (F4 & N4 & E4).
  destruct (weighted_near s _ 15 Ps W15 ltac:(lia)) as (F5 & N5 & E5).
  destruct (weighted_near f _ 10 Pf W10 ltac:(lia)) as (F6 & N6 & E6).
  destruct Pt as [_ Rt], Pv as [_ Rv], Pr as [_ Rr], Pc as [_ Rc], Ps as [_ Rs],
    Pf as [_ Rf].
  set (p1 := mul t (dec 25 100)) in *. set (p2 := mul v (dec 20 100)) in *.
  set (p3 := mul r (dec 20 100)) in *. set (p4 := mul c (dec 10 100)) in *.
  set (p5 := mul s (dec 15 100)) in *. set (p6 := mul f (dec 10 100)) in *.
  destruct (add_near p1 p2 F1 F2 ltac:(lia)) as (G1 & M1 & A1).
  destruct (add_near _ p3 G1 F3 ltac:(lia)) as (G2 & M2 & A2).
  destruct (add_near _ p4 G2 F4 ltac:(lia)) as (G3 & M3 & A3).
  destruct (add_near _ p5 G3 F5 ltac:(lia)) as (G4 & M4 & A4).
  destruct (add_near _ p6 G4 F6 ltac:(lia)) as (G5 & M5 & A5).
  change (Spec.overall (toInt t) (toInt v) (toInt r) (toInt c) (toInt s) (toInt f))
    with (Spec.roundHalfAway
            (Spec.overallValue (toInt t) (toInt v) (toInt r) (toInt c) (toInt s)
               (toInt f))).
  apply (agrees_of_near _ _
           (25 * toInt t + 20 * toInt v + 20 * toInt r + 10 * toInt c
            + 15 * toInt s + 10 * toInt f) 100);
    [exact G5|exact M5|lia|lia| |lia|].
  - unfold Spec.overallValue.
    rewrite !inject_Z_plus, !inject_Z_mult.
    change (inject_Z 100) with 100%Q. change (inject_Z 25) with 25%Q.
    change (inject_Z 20) with 20%Q. change (inject_Z 15) with 15%Q.
    change (inject_Z 10) with 10%Q.
    field.
  - lia.
Qed.

(** The trust score. *)
Lemma trust_agrees (s r : number) (h nn n : nat) :
  Pct s -> isInteger s = true -> Pct r -> isInteger r = true ->
  (h <= n)%nat -> (nn <= n)%nat -> (0 < n)%nat -> Z.of_nat n < 2 ^ 32 ->
  agrees
    (Math_round
       (add (add (add (mul s (dec 35 100))
                      (mul (sub (ofZ 100) (mul (div (ofNat h) (ofNat n)) (ofZ 100)))
                           (dec 30 100)))
                 (mul r (dec 25 100)))
            (mul (mul (div (ofNat nn) (ofNat n)) (ofZ 100)) (dec 10 100))))
    (Spec.trustValue (toInt s) (toInt r) (Spec.rate h n) (Spec.rate nn n))
    (Spec.trust (toInt s) (toInt r) (Spec.rate h n) (Spec.rate nn n)).
Proof.
  intros Ps Is Pr Ir Hh Hnn Hn Hb. pose proof unitOne_pos as HG.
  destruct coarse_facts as (Hf & Hco & Hu).
  destruct weights_near as (W35 & W30 & W25 & _ & _ & W10).
  destruct (Pct_toInt s Ps Is) as [Vs Bs]. destruct (Pct_toInt r Pr Ir) as [Vr Br].
  destruct (ofZ_exact 100 ltac:(reflexivity)) as [F100 V100].
  (* the hedging term *)
  destruct (div_near h n Hh Hn ltac:(lia)) as [Uh Eh]. cbv zeta in Eh.
  destruct (times100_near _ Uh) as [Pm1 Em1].
  set (m1 := mul (div (ofNat h) (ofNat n)) (ofZ 100)) in *.
  destruct Pm1 as [Fm1 Bm1].
  destruct (sub_near (ofZ 100) m1 F100 Fm1 ltac:(rewrite V100; lia)) as (Fd & Nd & Ed).
  destruct (sub_bounds (ofZ 100) m1 0 (100 * unitOne) F100 Fm1 OnGrid_0 SOn_100
              ltac:(rewrite V100; lia)) as [_ Bd].
  change (SFsub 53 1024) with sub in Bd. rewrite V100 in Ed.
  set (d := sub (ofZ 100) m1) in *.
  destruct (weighted_near d _ 30 (conj Fd Bd) W30 ltac:(lia)) as (F2 & N2 & E2).
  (* the term of the mentions that are not negative *)
  destruct (div_near nn n Hnn Hn ltac:(lia)) as [Un En]. cbv zeta in En.
  destruct (times100_near _ Un) as [Pm2 Em2].
  set (m2 := mul (div (ofNat nn) (ofNat n)) (ofZ 100)) in *.
  destruct (weighted_near m2 _ 10 Pm2 W10 ltac:(lia)) as (F4 & N4 & E4).
  destruct Pm2 as [Fm2 Bm2].
  (* the two scores *)
  destruct (weighted_near s _ 35 Ps W35 ltac:(lia)) as (F1 & N1 & E1).
  destruct (weighted_near r _ 25 Pr W25 ltac:(lia)) as (F3 & N3 & E3).
  destruct Ps as [_ Rs], Pr as [_ Rr].
  set (t1 := mul s (dec 35 100)) in *. set (t2 := mul d (dec 30 100)) in *.
  set (t3 := mul r (dec 25 100)) in *. set (t4 := mul m2 (dec 10 100)) in *.
  destruct (add_near t1 t2 F1 F2 ltac:(lia)) as (G1 & M1 & A1).
  destruct (add_near _ t3 G1 F3 ltac:(lia)) as (G2 & M2 & A2).
  destruct (add_near _ t4 G2 F4 ltac:(lia)) as (G3 & M3 & A3).
  set (N := Z.of_nat n) in *. set (H := Z.of_nat h) in *. set (NN := Z.of_nat nn) in *.
  assert (HN : 0 < N) by (unfold N; lia).
  assert (HH : 0 <= H <= N) by (unfold H, N; lia).
  assert (HNN : 0 <= NN <= N) by (unfold NN, N; lia).
  change (Spec.trust (toInt s) (toInt r) (Spec.rate h n) (Spec.rate nn n))
    with (Spec.roundHalfAway
            (Spec.trustValue (toInt s) (toInt r) (Spec.rate h n) (Spec.rate nn n))).
  assert (Ss : 0 <= toInt s * N <= 100 * N)
    by (split; [apply Z.mul_nonneg_nonneg|apply Z.mul_le_mono_nonneg_r]; lia).
  assert (Sr : 0 <= toInt r * N <= 100 * N)
    by (split; [apply Z.mul_nonneg_nonneg|apply Z.mul_le_mono_nonneg_r]; lia).
  apply (agrees_of_near _ _
           (35 * (toInt s * N) + 30 * (100 * N - 100 * H) + 25 * (toInt r * N)
            + 1000 * NN) (100 * N));
    [exact G3|exact M3|lia|lia| |lia|].
  - unfold Spec.trustValue, Spec.rate. fold N H NN.
    rewrite !inject_Z_plus, !inject_Z_mult.
    unfold Zminus. rewrite !inject_Z_plus, inject_Z_opp, !inject_Z_mult.
    change (inject_Z 100) with 100%Q. change (inject_Z 35) with 35%Q.
    change (inject_Z 30) with 30%Q. change (inject_Z 25) with 25%Q.
    change (inject_Z 1000) with 1000%Q.
    field. apply inject_Z_nonzero. exact HN.
  - pose proof (scale_bounds N _ _ _ ltac:(lia) A3) as SA3.
    pose proof (scale_bounds N _ _ _ ltac:(lia) A2) as SA2.
    pose proof (scale_bounds N _ _ _ ltac:(lia) A1) as SA1.
    pose proof (scale_bounds N _ _ _ ltac:(lia) E1) as SE1.
    pose proof (scale_bounds N _ _ _ ltac:(lia) E2) as SE2.
    pose proof (scale_bounds N _ _ _ ltac:(lia) E3) as SE3.
    pose proof (scale_bounds N _ _ _ ltac:(lia) E4) as SE4.
    pose proof (scale_bounds N _ _ _ ltac:(lia) Ed) as SEd.
    pose proof (scale_bounds N _ _ _ ltac:(lia) Em1) as SEm1.
    pose proof (scale_bounds N _ _ _ ltac:(lia) Em2) as SEm2.
    assert (Nf : N * fine < 2 ^ 32 * fine) by (apply Z.mul_lt_mono_pos_r; lia).
    assert (Es : N * scf s = toInt s * N * unitOne) by (rewrite Vs; ring).
    assert (Er : N * scf r = toInt r * N * unitOne) by (rewrite Vr; ring).
    lia.
Qed.

Local Open Scope num_scope.

(** The three composite scores of a non-empty batch, as the source
    computes them. *)
Lemma calculateScores_nonempty (analyses : list Analysis) :
  analyses <> [] ->
  let n := ofNat (List.length analyses) in
  let s := calculateScores analyses in
  let hedgingRate := ofNat (count hasHedging analyses) / n in
  let nonNegative :=
    ofNat (count (fun a => negb (MentionType_eqb (mentionType a) NEGATIVE)) analyses) in
  ai_citation_score s
  = Math_round (ofNat (count (fun a => truthy (citedUrl a)) analyses) / n * ofZ 100)
  /\ ai_trust_score s
     = Math_round
         (sentiment_score s * dec 35 100
          + (ofZ 100 - hedgingRate * ofZ 100) * dec 30 100
          + ai_recommendation_score s * dec 25 100
          + (nonNegative / n * ofZ 100) * dec 10 100)
  /\ overall_score s
     = Math_round
         (ai_trust_score s * dec 25 100
          + ai_visibility_score s * dec 20 100
          + ai_recommendation_score s * dec 20 100
          + ai_citation_score s * dec 10 100
          + sentiment_score s * dec 15 100
          + confidence_score s * dec 10 100).
Proof.
  intros Hne. destruct analyses as [|a l]; [contradiction|].
  unfold calculateScores.
  cbn [List.length Nat.eqb overall_score ai_trust_score ai_visibility_score
       ai_recommendation_score ai_citation_score sentiment_score confidence_score].
  repeat split.
Qed.

Local Close Scope num_scope.

(** The composite scores of a batch of analyses in range. *)
Lemma calculateScores_agrees (analyses : list Analysis) :
  analyses <> [] -> Z.of_nat (List.length analyses) < 2 ^ 32 ->
  Forall scoresInRange analyses ->
  let n := List.length analyses in
  let s := calculateScores analyses in
  agrees (ai_citation_score s)
    (Spec.citationValue (count (fun a => truthy (citedUrl a)) analyses) n)
    (Spec.citation (count (fun a => truthy (citedUrl a)) analyses) n)
  /\ agrees (ai_trust_score s)
       (Spec.trustValue (toInt (sentiment_score s)) (toInt (ai_recommendation_score s))
          (Spec.rate (count hasHedging analyses) n)
          (Spec.rate
             (count (fun a => negb (MentionType_eqb (mentionType a) NEGATIVE)) analyses)
             n))
       (Spec.trust (toInt (sentiment_score s)) (toInt (ai_recommendation_score s))
          (Spec.rate (count hasHedging analyses) n)
          (Spec.rate
             (count (fun a => negb (MentionType_eqb (mentionType a) NEGATIVE)) analyses)
             n))
  /\ agrees (overall_score s)
       (Spec.overallValue (toInt (ai_trust_score s)) (toInt (ai_visibility_score s))
          (toInt (ai_recommendation_score s)) (toInt (ai_citation_score s))
          (toInt (sentiment_score s)) (toInt (confidence_score s)))
       (Spec.overall (toInt (ai_trust_score s)) (toInt (ai_visibility_score s))
          (toInt (ai_recommendation_score s)) (toInt (ai_citation_score s))
          (toInt (sentiment_score s)) (toInt (confidence_score s))).
Proof.
  intros Hne Hb Hall n s.
  assert (Hn : (0 < n)%nat) by (unfold n; destruct analyses; [contradiction|cbn; lia]).
  assert (Hb' : Z.of_nat (List.length analyses) < 2 ^ 53) by lia.
  destruct (calculateScores_allPct analyses Hb' Hall) as (P1 & P2 & P3 & P4 & P5 & P6 & P7).
  destruct (calculateScores_allInteger analyses Hb' Hall)
    as (I1 & I2 & I3 & I4 & I5 & I6 & I7).
  destruct (calculateScores_nonempty analyses Hne) as (Ec & Et & Eo).
  fold s in P1, P2, P3, P4, P5, P6, P7, I1, I2, I3, I4, I5, I6, I7, Ec, Et, Eo.
  split; [|split].
  - rewrite Ec. apply citation_agrees; [apply count_le|exact Hn|exact Hb].
  - rewrite Et.
    apply trust_agrees; try assumption; apply count_le.
  - rewrite Eo. apply overall_agrees; assumption.
Qed.

Lemma analyzeAll_nonempty (responses : list jsstring) (businessName : jsstring)
    (competitors : list jsstring) :
  responses <> [] -> analyzeAll responses businessName competitors <> [].
Proof.
  intros Hne. destruct responses as [|r rs]; [contradiction|].
  unfold analyzeAll. cbn [flat_map].
  destruct (analyzeResponse_fields r businessName competitors) as (a & Ha & _).
  rewrite Ha. discriminate.
Qed.

(** C7, as the aggregator has it.  For a non-empty batch of fewer than
    [2 ^ 32] responses the citation, trust and overall scores are
    integers, and each is the formula of the specification, evaluated
    exactly on the counts and on the integer scores already rounded, and
    rounded to the nearest integer, whenever the exact value of the
    formula is not a tie.  At a tie, where the formula rounds up, the
    aggregator returns that integer or the one below: its sum of binary64
    products falls on either side of the half.  The citation count is
    that of the analyses whose [citedUrl] is true. *)
Theorem calculateScores_formulas (responses : list jsstring) (businessName : jsstring)
    (competitors : list jsstring) :
  responses <> [] -> Z.of_nat (List.length responses) < 2 ^ 32 ->
  let analyses := analyzeAll responses businessName competitors in
  let n := List.length analyses in
  let s := calculateScores analyses in
  let cited := count (fun a => truthy (citedUrl a)) analyses in
  let hedgingRate := Spec.rate (count hasHedging analyses) n in
  let nonNegativeRate :=
    Spec.rate
      (count (fun a => negb (MentionType_eqb (mentionType a) NEGATIVE)) analyses) n in
  let trust := toInt (ai_trust_score s) in
  let visibility := toInt (ai_visibility_score s) in
  let recommendation := toInt (ai_recommendation_score s) in
  let citation := toInt (ai_citation_score s) in
  let sentiment := toInt (sentiment_score s) in
  let confidence := toInt (confidence_score s) in
  agrees (ai_citation_score s) (Spec.citationValue cited n) (Spec.citation cited n)
  /\ agrees (ai_trust_score s)
       (Spec.trustValue sentiment recommendation hedgingRate nonNegativeRate)
       (Spec.trust sentiment recommendation hedgingRate nonNegativeRate)
  /\ agrees (overall_score s)
       (Spec.overallValue trust visibility recommendation citation sentiment confidence)
       (Spec.overall trust visibility recommendation citation sentiment confidence).
Proof.
  intros Hne Hb analyses.
  pose proof (analyzeAll_length responses businessName competitors) as L.
  apply (calculateScores_agrees analyses).
  - apply analyzeAll_nonempty, Hne.
  - fold analyses in L. lia.
  - apply analyzeAll_inRange.
Qed.

Lemma calculateScores_formulas_witness :
  let responses := [plainResponse; plainResponse; praiseResponse] in
  let s := calculateScores (analyzeAll responses acme []) in
  responses <> [] /\ Z.of_nat (List.length responses) < 2 ^ 32
  /\ agrees (overall_score s)
       (Spec.overallValue 63 0 0 0 67 57) (Spec.overall 63 0 0 0 67 57).
Proof.
  assert (H1 : [plainResponse; plainResponse; praiseResponse] <> []) by discriminate.
  assert (H2 : Z.of_nat (List.length [plainResponse; plainResponse; praiseResponse])
               < 2 ^ 32) by reflexivity.
  split; [exact H1|]. split; [exact H2|].
  exact (proj2 (proj2 (calculateScores_formulas
                         [plainResponse; plainResponse; praiseResponse] acme [] H1 H2))).
Defined.

(** A tie of the citation formula: of forty responses, twenty-three cite a
    URL of the business; the formula is worth 57.5, which rounds to 58,
    but the binary64 quotient 23/40 times 100 is just below 57.5 and the
    aggregator returns 57. *)
Lemma calculateScores_citation_tie :
  let responses :=
    repeat (js "See https://acme.example for the list.") 23 ++ repeat plainResponse 17 in
  let analyses := analyzeAll responses acme [] in
  List.length analyses = 40%nat
  /\ count (fun a => truthy (citedUrl a)) analyses = 23%nat
  /\ Spec.isTie (Spec.citationValue 23 40) = true
  /\ Spec.citation 23 40 = 58
  /\ ai_citation_score (calculateScores analyses) = ofZ 57.
Proof.
  repeat split; vm_compute; reflexivity.
Qed.

Local Close Scope Z_scope.
